(** * Verification of the sdb SimpleDB client: request signing pipeline,
      error decoding, action wrappers, item helpers and the buffering writer.

    Go strings are byte sequences; they are modelled as [string] (sequences
    of 8-bit [ascii]).  [url.Values] is [map[string][]string], modelled as a
    finite map from strings to lists of strings. *)

From Stdlib Require Import ZArith NArith Ascii String List Lia Bool.
From Stdlib Require Import DecimalString DecimalPos DecimalZ.
From stdpp Require Import base gmap strings list sorting fin_maps.


(** ** Byte-level helpers of package [strings] *)

Module Strings.

(** [len(s)] *)
Abbreviation len := String.length.

(** [strings.HasPrefix(s, prefix)] *)
Fixpoint HasPrefix (s pre : string) : bool :=
  match pre, s with
  | EmptyString, _ => true
  | String _ _, EmptyString => false
  | String a pre', String b s' => if decide (a = b) then HasPrefix s' pre' else false
  end.

(** The loop of [strings.Replace(s, old, new, -1)]: scan [s] from the left;
    [skip] counts the bytes of a match that are still to be dropped. *)
Fixpoint Replace_go (old new : string) (skip : nat) (s : string) : string :=
  match s with
  | EmptyString => EmptyString
  | String c s' =>
      match skip with
      | S k => Replace_go old new k s'
      | O => if HasPrefix s old
             then new +:+ Replace_go old new (len old - 1) s'
             else String c (Replace_go old new 0 s')
      end
  end.

(** With an empty [old] the library inserts [new] before every UTF-8
    sequence and at the end; on ASCII text, where a sequence is a byte, that
    is this function.  The client only replaces the one-byte string [+]. *)
Fixpoint Replace_empty (new : string) (s : string) : string :=
  match s with
  | EmptyString => new
  | String c s' => new +:+ String c (Replace_empty new s')
  end.

(** [strings.Replace(s, old, new, -1)] *)
Definition Replace (s old new : string) : string :=
  if decide (old = new) then s
  else match old with
       | EmptyString => Replace_empty new s
       | String _ _ => Replace_go old new 0 s
       end.

(** [strings.Cut(s, sep)] for a one-byte separator: the text before the
    first [sep], the text after it, and whether [sep] was found. *)
Fixpoint Cut (s : string) (sep : ascii) : string * string * bool :=
  match s with
  | EmptyString => (EmptyString, EmptyString, false)
  | String c s' =>
      if decide (c = sep) then (EmptyString, s', true)
      else let '(b, a, f) := Cut s' sep in (String c b, a, f)
  end.

(** [strings.Contains(s, string(c))] *)
Fixpoint ContainsByte (s : string) (c : ascii) : bool :=
  match s with
  | EmptyString => false
  | String d s' => if decide (d = c) then true else ContainsByte s' c
  end.

End Strings.

(** ** Package [net/url]: query escaping and [url.Values] *)

Module Url.

Definition byte_in (lo hi c : ascii) : bool :=
  ((N_of_ascii lo <=? N_of_ascii c) && (N_of_ascii c <=? N_of_ascii hi))%N.

(** [shouldEscape(c, encodeQueryComponent)]: only the unreserved
    characters of RFC 3986 are left alone. *)
Definition shouldEscape (c : ascii) : bool :=
  if byte_in "a" "z" c || byte_in "A" "Z" c || byte_in "0" "9" c then false
  else match c with
       | "-" | "_" | "." | "~" => false
       | _ => true
       end%char.

(** ["0123456789ABCDEF"[n]] *)
Definition upperhex (n : N) : ascii :=
  if (n <? 10)%N then ascii_of_N (48 + n) else ascii_of_N (55 + n).

(** [url.QueryEscape]: a space becomes [+], every other escaped byte [c]
    becomes [%] followed by the two upper-case hex digits [c>>4], [c&15]. *)
Fixpoint QueryEscape (s : string) : string :=
  match s with
  | EmptyString => EmptyString
  | String c s' =>
      if shouldEscape c then
        if decide (c = " "%char) then String "+" (QueryEscape s')
        else String "%" (String (upperhex (N.shiftr (N_of_ascii c) 4))
               (String (upperhex (N.land (N_of_ascii c) 15)) (QueryEscape s')))
      else String c (QueryEscape s')
  end.

(** [url.Values] *)
Abbreviation Values := (gmap string (list string)).

(** [v[key]], the nil slice when [key] is absent. *)
Definition get (v : Values) (key : string) : list string := default [] (v !! key).

(** [func (v Values) Add(key, value string)]:
    [v[key] = append(v[key], value)]. *)
Definition Add (key value : string) (v : Values) : Values :=
  <[key := get v key ++ [value]]> v.

(** The keys of the map in the order [slices.Sort] leaves them in:
    ascending byte-wise lexicographic order. *)
Definition sortedKeys (v : Values) : list string :=
  merge_sort String.le (map fst (map_to_list v)).

(** One pass of the inner loop of [Encode]: write [&] unless the buffer is
    empty, then the escaped key, [=], and the escaped value. *)
Definition writePair (keyEscaped : string) (buf : string) (value : string) : string :=
  (if (0 <? Strings.len buf)%nat then buf +:+ "&" else buf)
    +:+ keyEscaped +:+ "=" +:+ QueryEscape value.

(** [func (v Values) Encode() string] *)
Definition Encode (v : Values) : string :=
  if decide (size v = 0%nat) then ""
  else foldl (fun buf k => foldl (writePair (QueryEscape k)) buf (get v k))
             "" (sortedKeys v).

(** *** Decoding, as [url.ParseQuery] does it *)

Definition ishex (c : ascii) : bool :=
  byte_in "0" "9" c || byte_in "a" "f" c || byte_in "A" "F" c.

Definition unhex (c : ascii) : N :=
  if byte_in "0" "9" c then (N_of_ascii c - 48)%N
  else if byte_in "a" "f" c then (N_of_ascii c - 97 + 10)%N
  else if byte_in "A" "F" c then (N_of_ascii c - 65 + 10)%N
  else 0%N.

(** [unescape]: [%XY] with two hex digits becomes the byte [XY]; a [%]
    without two hex digits after it is an error.  With [plus] set, as in
    [url.QueryUnescape], a [+] is read as a space; without it the function
    is plain percent-decoding. *)
Fixpoint unescape (plus : bool) (s : string) : option string :=
  match s with
  | EmptyString => Some EmptyString
  | String c r =>
      if decide (c = "%"%char) then
        match r with
        | String a (String b r') =>
            if ishex a && ishex b
            then String (ascii_of_N (N.lor (N.shiftl (unhex a) 4) (unhex b)))
                   <$> unescape plus r'
            else None
        | _ => None
        end
      else if plus && bool_decide (c = "+"%char) then String " " <$> unescape plus r
      else String c <$> unescape plus r
  end.

(** The pieces between separators, [cur] being the piece under
    construction in reverse. *)
Fixpoint Split_go (sep : ascii) (cur : string) (s : string) : list string :=
  match s with
  | EmptyString => [String.rev cur]
  | String c r =>
      if decide (c = sep) then String.rev cur :: Split_go sep EmptyString r
      else Split_go sep (String c cur) r
  end.

Definition Split (s : string) (sep : ascii) : list string := Split_go sep EmptyString s.

(** One turn of the loop of [parseQuery] on the piece [key] cut off at the
    next [&]; the error kept is the first one met. *)
Definition parsePiece (plus : bool) (st : Values * bool) (piece : string) : Values * bool :=
  let '(m, err) := st in
  if Strings.ContainsByte piece ";" then (m, true)
  else if decide (piece = EmptyString) then (m, err)
  else
    let '(key, value, _) := Strings.Cut piece "=" in
    match unescape plus key with
    | None => (m, true)
    | Some key =>
        match unescape plus value with
        | None => (m, true)
        | Some value => (Add key value m, err)
        end
    end.

(** [url.ParseQuery]: the decoded mapping and whether an error was met. *)
Definition ParseQuery (plus : bool) (query : string) : Values * bool :=
  foldl (parsePiece plus) (∅, false) (Split query "&").

End Url.

(** ** Packages [crypto/sha256], [crypto/hmac] and [encoding/base64]

    The digest follows FIPS 180-4, the keyed MAC follows RFC 2104 and the
    encoding follows RFC 4648 with the standard alphabet and padding, which
    is what [sha256.New], [hmac.New] and [base64.StdEncoding] implement.
    32-bit words are numbers in [N] reduced modulo [2^32]. *)

Module Sha256.

Definition w32 (x : N) : N := (x mod 4294967296)%N.
Definition add32 (x y : N) : N := w32 (x + y).
Definition rotr (n x : N) : N :=
  w32 (N.lor (N.shiftr x n) (N.shiftl x (32 - n))).
Definition not32 (x : N) : N := N.lxor x 4294967295.

Definition Ch (x y z : N) : N := N.lxor (N.land x y) (N.land (not32 x) z).
Definition Maj (x y z : N) : N :=
  N.lxor (N.lxor (N.land x y) (N.land x z)) (N.land y z).
Definition Sigma0 (x : N) : N := N.lxor (N.lxor (rotr 2 x) (rotr 13 x)) (rotr 22 x).
Definition Sigma1 (x : N) : N := N.lxor (N.lxor (rotr 6 x) (rotr 11 x)) (rotr 25 x).
Definition sigma0 (x : N) : N := N.lxor (N.lxor (rotr 7 x) (rotr 18 x)) (N.shiftr x 3).
Definition sigma1 (x : N) : N := N.lxor (N.lxor (rotr 17 x) (rotr 19 x)) (N.shiftr x 10).

(** The first 64 primes. *)
Definition primes : list N :=
  [2; 3; 5; 7; 11; 13; 17; 19; 23; 29; 31; 37; 41; 43; 47; 53; 59; 61; 67; 71;
   73; 79; 83; 89; 97; 101; 103; 107; 109; 113; 127; 131; 137; 139; 149; 151;
   157; 163; 167; 173; 179; 181; 191; 193; 197; 199; 211; 223; 227; 229; 233;
   239; 241; 251; 257; 263; 269; 271; 277; 281; 283; 293; 307; 311]%N.

(** The integer cube root, the largest [r] with [r^3 <= n], found bit by
    bit from bit [bits - 1] down. *)
Fixpoint cbrt_go (bits : nat) (n r : N) : N :=
  match bits with
  | O => r
  | S b => let c := (r + 2 ^ N.of_nat b)%N in
           cbrt_go b n (if (c * c * c <=? n)%N then c else r)
  end.

(** The first 32 bits of the fractional part of the cube root, and of the
    square root, of [q]. *)
Definition frac_cbrt (q : N) : N := w32 (cbrt_go 36 (q * 2 ^ 96)%N 0%N).
Definition frac_sqrt (q : N) : N := w32 (N.sqrt (q * 2 ^ 64)%N).

(** The round constants: the fractional parts of the cube roots of the
    first 64 primes. *)
Definition K : list N := Eval vm_compute in map frac_cbrt primes.

(** The chaining value: eight 32-bit words. *)
Record state := State { ha : N; hb : N; hc : N; hd : N; he : N; hf : N; hg : N; hh : N }.

(** The initial chaining value: the fractional parts of the square roots
    of the first 8 primes. *)
Definition init : state :=
  Eval vm_compute in
    State (frac_sqrt 2) (frac_sqrt 3) (frac_sqrt 5) (frac_sqrt 7)
          (frac_sqrt 11) (frac_sqrt 13) (frac_sqrt 17) (frac_sqrt 19).

(** One round with round constant [k] and schedule word [w]. *)
Definition round (s : state) (k w : N) : state :=
  let t1 := add32 (add32 (add32 (add32 (hh s) (Sigma1 (he s))) (Ch (he s) (hf s) (hg s))) k) w in
  let t2 := add32 (Sigma0 (ha s)) (Maj (ha s) (hb s) (hc s)) in
  State (add32 t1 t2) (ha s) (hb s) (hc s) (add32 (hd s) t1) (he s) (hf s) (hg s).

(** The 64 rounds over a sliding window of the last 16 schedule words:
    the head of the window is [W t]; the word appended to it is
    [W (t+16) = sigma1 (W (t+14)) + W (t+9) + sigma0 (W (t+1)) + W t]. *)
Fixpoint rounds (ks : list N) (win : list N) (s : state) : state :=
  match ks with
  | [] => s
  | k :: ks' =>
      let w := nth 0 win 0%N in
      let next := add32 (add32 (add32 (sigma1 (nth 14 win 0%N)) (nth 9 win 0%N))
                               (sigma0 (nth 1 win 0%N))) w in
      rounds ks' (tl win ++ [next]) (round s k w)
  end.

(** Big-endian 32-bit words of a block of bytes. *)
Fixpoint words (bs : list N) : list N :=
  match bs with
  | b0 :: b1 :: b2 :: b3 :: r =>
      (b0 * 16777216 + b1 * 65536 + b2 * 256 + b3)%N :: words r
  | _ => []
  end.

Definition compress (s : state) (block : list N) : state :=
  let t := rounds K (words block) s in
  State (add32 (ha s) (ha t)) (add32 (hb s) (hb t)) (add32 (hc s) (hc t))
        (add32 (hd s) (hd t)) (add32 (he s) (he t)) (add32 (hf s) (hf t))
        (add32 (hg s) (hg t)) (add32 (hh s) (hh t)).

(** Cut a byte sequence into 64-byte blocks; [cur] holds the bytes of the
    block being filled, most recent first. *)
Fixpoint blocks (cur : list N) (bs : list N) : list (list N) :=
  match bs with
  | [] => []
  | b :: r =>
      let cur' := b :: cur in
      if decide (length cur' = 64%nat) then rev cur' :: blocks [] r
      else blocks cur' r
  end.

(** Big-endian bytes of a number, [n] of them. *)
Fixpoint be_bytes (n : nat) (x : N) : list N :=
  match n with
  | O => []
  | S n' => (N.shiftr x (8 * N.of_nat n') mod 256)%N :: be_bytes n' x
  end.

(** Padding: a one bit, zero bits up to 56 modulo 64 bytes, then the
    message length in bits as a 64-bit big-endian number. *)
Definition pad (msg : list N) : list N :=
  let l := length msg in
  let zeros := ((64 + 55 - l mod 64) mod 64)%nat in
  msg ++ [128%N] ++ replicate zeros 0%N
      ++ be_bytes 8 (N.of_nat l * 8 mod 18446744073709551616)%N.

Definition digest_bytes (s : state) : list N :=
  be_bytes 4 (ha s) ++ be_bytes 4 (hb s) ++ be_bytes 4 (hc s) ++ be_bytes 4 (hd s)
  ++ be_bytes 4 (he s) ++ be_bytes 4 (hf s) ++ be_bytes 4 (hg s) ++ be_bytes 4 (hh s).

(** [sha256.Sum256] on a byte sequence. *)
Definition sum (msg : list N) : list N :=
  digest_bytes (foldl compress init (blocks [] (pad msg))).

End Sha256.

Module Hmac.

Definition blockSize : nat := 64.

(** The key block of RFC 2104: keys longer than a block are hashed, then
    the key is filled with zeros to the block size. *)
Definition keyBlock (key : list N) : list N :=
  let k := if decide (blockSize < length key)%nat then Sha256.sum key else key in
  k ++ replicate (blockSize - length k) 0%N.

(** [hmac.New(sha256.New, key)], [Write(msg)], [Sum(nil)]. *)
Definition sum (key msg : list N) : list N :=
  let kb := keyBlock key in
  let ipad := map (N.lxor 54) kb in
  let opad := map (N.lxor 92) kb in
  Sha256.sum (opad ++ Sha256.sum (ipad ++ msg)).

End Hmac.

Module Base64.

(** [encodeStd]: the alphabet [A-Z a-z 0-9 + /]. *)
Definition encodeStd (n : N) : ascii :=
  if (n <? 26)%N then ascii_of_N (65 + n)
  else if (n <? 52)%N then ascii_of_N (71 + n)
  else if (n <? 62)%N then ascii_of_N (n - 4)
  else if (n =? 62)%N then "+"%char else "/"%char.

(** [base64.StdEncoding.EncodeToString] *)
Fixpoint EncodeToString (src : list N) : string :=
  match src with
  | [] => EmptyString
  | [a] =>
      String (encodeStd (N.shiftr a 2))
      (String (encodeStd (N.shiftl (N.land a 3) 4)) "==")
  | [a; b] =>
      String (encodeStd (N.shiftr a 2))
      (String (encodeStd (N.lor (N.shiftl (N.land a 3) 4) (N.shiftr b 4)))
      (String (encodeStd (N.shiftl (N.land b 15) 2)) "="))
  | a :: b :: c :: r =>
      String (encodeStd (N.shiftr a 2))
      (String (encodeStd (N.lor (N.shiftl (N.land a 3) 4) (N.shiftr b 4)))
      (String (encodeStd (N.lor (N.shiftl (N.land b 15) 2) (N.shiftr c 6)))
      (String (encodeStd (N.land c 63)) (EncodeToString r))))
  end.

(** The value of a character of the alphabet, the inverse of [encodeStd]. *)
Definition decodeStd (c : ascii) : N :=
  let n := N_of_ascii c in
  if (65 <=? n)%N && (n <=? 90)%N then (n - 65)%N
  else if (97 <=? n)%N && (n <=? 122)%N then (n - 71)%N
  else if (48 <=? n)%N && (n <=? 57)%N then (n + 4)%N
  else if (n =? 43)%N then 62%N else 63%N.

End Base64.

(** [[]byte(s)] *)
Definition bytes_of (s : string) : list N := map N_of_ascii (list_ascii_of_string s).

(** ** Package [strconv] *)

Module Strconv.

(** [strconv.FormatInt(i, 10)]: a minus sign for negative numbers, then
    the decimal digits without leading zeros. *)
Definition FormatInt (i : Z) : string := NilZero.string_of_int (Z.to_int i).

(** [strconv.Itoa(i)] is [FormatInt(int64(i), 10)]. *)
Definition Itoa (i : Z) : string := FormatInt i.

End Strconv.

(** ** Package [time]: a UTC instant and its formatting *)

Module Time.

Local Open Scope Z_scope.

(** The reading of the wall clock after [.UTC()]: seconds since the Unix
    epoch and the nanoseconds within the second. *)
Record Time := mkTime { Unix : Z; Nanosecond : Z }.

(** Proleptic Gregorian date of a day number counted from 1970-01-01. *)
Definition civil (days : Z) : Z * Z * Z :=
  let z := days + 719468 in
  let era := z / 146097 in
  let doe := z - era * 146097 in
  let yoe := (doe - doe / 1460 + doe / 36524 - doe / 146096) / 365 in
  let doy := doe - (365 * yoe + yoe / 4 - yoe / 100) in
  let mp := (5 * doy + 2) / 153 in
  let d := doy - (153 * mp + 2) / 5 + 1 in
  let m := if mp <? 10 then mp + 3 else mp - 9 in
  let y := yoe + era * 400 in
  (if m <=? 2 then y + 1 else y, m, d).

Definition Year (t : Time) : Z := (civil (Unix t / 86400)).1.1.
Definition Month (t : Time) : Z := (civil (Unix t / 86400)).1.2.
Definition Day (t : Time) : Z := (civil (Unix t / 86400)).2.
Definition Hour (t : Time) : Z := Unix t mod 86400 / 3600.
Definition Minute (t : Time) : Z := Unix t mod 3600 / 60.
Definition Second (t : Time) : Z := Unix t mod 60.

Definition digit (n : Z) : ascii := ascii_of_N (48 + Z.to_N n).

(** [appendInt(b, x, width)]: the decimal form of [x], filled with zeros
    on the left up to [width] digits, after a minus sign if [x < 0]. *)
Definition appendInt (x : Z) (width : nat) : string :=
  let u := Z.abs x in
  let sign := if x <? 0 then "-" else "" in
  if bool_decide (width = 2%nat) && (u <? 100) then
    sign +:+ String (digit (u / 10)) (String (digit (u mod 10)) "")
  else if bool_decide (width = 4%nat) && (u <? 10000) then
    sign +:+ String (digit (u / 1000)) (String (digit (u / 100 mod 10))
              (String (digit (u / 10 mod 10)) (String (digit (u mod 10)) "")))
  else
    let ds := Strconv.FormatInt u in
    sign +:+ String.string_of_list_ascii (replicate (width - String.length ds)%nat "0"%char) +:+ ds.

(** The chunks a layout is cut into by [nextStdChunk]. *)
Inductive chunk :=
| lit (s : string)
| stdLongYear | stdZeroMonth | stdZeroDay | stdHour
| stdZeroMinute | stdZeroSecond | stdNumColonTZ.

(** The layout ["2006-01-02T15:04:05-07:00"] (the constant [dateFormat],
    [DATE_FORMAT] in the revision with the log writer). *)
Definition dateFormat : list chunk :=
  [stdLongYear; lit "-"; stdZeroMonth; lit "-"; stdZeroDay; lit "T";
   stdHour; lit ":"; stdZeroMinute; lit ":"; stdZeroSecond; stdNumColonTZ].

(** What [Format] writes for one chunk; [offset] is the zone offset in
    seconds east of UTC. *)
Definition formatChunk (t : Time) (offset : Z) (c : chunk) : string :=
  match c with
  | lit s => s
  | stdLongYear => appendInt (Year t) 4
  | stdZeroMonth => appendInt (Month t) 2
  | stdZeroDay => appendInt (Day t) 2
  | stdHour => appendInt (Hour t) 2
  | stdZeroMinute => appendInt (Minute t) 2
  | stdZeroSecond => appendInt (Second t) 2
  | stdNumColonTZ =>
      let zone := Z.quot offset 60 in
      (if zone <? 0 then "-" else "+")
        +:+ appendInt (Z.quot (Z.abs zone) 60) 2 +:+ ":" +:+ appendInt (Z.rem (Z.abs zone) 60) 2
  end.

(** [t.Format(layout)] for a time in UTC, whose offset is zero. *)
Definition Format (t : Time) (layout : list chunk) : string :=
  foldr (fun c acc => formatChunk t 0 c +:+ acc) "" layout.

End Time.

(** ** The client *)

Module Sdb.

Import Url.

Definition LF : string := String "010"%char EmptyString.

(** [float64], kept as its 64 bits; the client never computes with it. *)
Record float64 := Float64 { float64_bits : N }.

Record SimpleDBError := mkSimpleDBError {
  Code : string;
  Message : string;
  RequestId : string
}.

Record Response := mkResponse {
  Errors : list SimpleDBError;
  Response_RequestId : string
}.

Record ResponseMetadata := mkResponseMetadata {
  ResponseMetadata_RequestId : string;
  BoxUsage : float64
}.

Record DeleteDomainResponse := mkDeleteDomainResponse {
  DeleteDomain_ResponseMetadata : ResponseMetadata
}.

Record CreateDomainResponse := mkCreateDomainResponse {
  CreateDomain_ResponseMetadata : ResponseMetadata
}.

Record ListDomainsResponse := mkListDomainsResponse {
  DomainNames : list string;
  ListDomains_ResponseMetadata : ResponseMetadata
}.

Record DomainMetadataResponse := mkDomainMetadataResponse {
  ItemCount : Z;
  ItemNamesSizeBytes : Z;
  AttributeNameCount : Z;
  AttributeNamesSizeBytes : Z;
  AttributeValueCount : Z;
  AttributeValuesSizeBytes : Z;
  Timestamp : Z;
  DomainMetadata_ResponseMetadata : ResponseMetadata
}.

Record PutAttributesResponse := mkPutAttributesResponse {
  PutAttributes_ResponseMetadata : ResponseMetadata
}.

Record Attribute := mkAttribute {
  Name : string;
  Value : string;
  Replace : bool
}.

Record GetAttributesResponse := mkGetAttributesResponse {
  Attributes : list Attribute
}.

Record DeleteAttributesResponse := mkDeleteAttributesResponse {
  DeleteAttributes_ResponseMetadata : ResponseMetadata
}.

Record Item := mkItem {
  Item_Name : string;
  Item_Attributes : list Attribute
}.

Record SelectResponse := mkSelectResponse {
  Items : list Item
}.

Record SimpleDB := mkSimpleDB {
  RawResponse : string;
  RawRequest : string;
  p : Values;
  accessKey : string;
  secretKey : string;
  region : string
}.

(** The dynamic types of the [error] values the client returns. *)
Inductive error :=
| SimpleDBError_error (e : SimpleDBError)
| errorString (text : string)
| libraryError (pkg : string) (detail : string).

(** [func (err SimpleDBError) Error() string] *)
Definition SimpleDBError_Error (err : SimpleDBError) : string :=
  Code err +:+ ": " +:+ Message err.

(** The struct types a response body is decoded into. *)
Inductive shape :=
| TResponse | TListDomainsResponse | TDomainMetadataResponse
| TCreateDomainResponse | TDeleteDomainResponse | TPutAttributesResponse
| TGetAttributesResponse | TDeleteAttributesResponse | TSelectResponse.

Definition target (T : shape) : Type :=
  match T with
  | TResponse => Response
  | TListDomainsResponse => ListDomainsResponse
  | TDomainMetadataResponse => DomainMetadataResponse
  | TCreateDomainResponse => CreateDomainResponse
  | TDeleteDomainResponse => DeleteDomainResponse
  | TPutAttributesResponse => PutAttributesResponse
  | TGetAttributesResponse => GetAttributesResponse
  | TDeleteAttributesResponse => DeleteAttributesResponse
  | TSelectResponse => SelectResponse
  end.

Definition zeroMetadata : ResponseMetadata := mkResponseMetadata "" (Float64 0).

(** The zero value of each struct type. *)
Definition zero (T : shape) : target T :=
  match T with
  | TResponse => mkResponse [] ""
  | TListDomainsResponse => mkListDomainsResponse [] zeroMetadata
  | TDomainMetadataResponse => mkDomainMetadataResponse 0%Z 0%Z 0%Z 0%Z 0%Z 0%Z 0%Z zeroMetadata
  | TCreateDomainResponse => mkCreateDomainResponse zeroMetadata
  | TDeleteDomainResponse => mkDeleteDomainResponse zeroMetadata
  | TPutAttributesResponse => mkPutAttributesResponse zeroMetadata
  | TGetAttributesResponse => mkGetAttributesResponse []
  | TDeleteAttributesResponse => mkDeleteAttributesResponse zeroMetadata
  | TSelectResponse => mkSelectResponse []
  end.

(** An [*http.Response] as far as the client looks at it; [Body] is what
    [ioutil.ReadAll(r.Body)] gives. *)
Record HttpResponse := mkHttpResponse {
  StatusCode : Z;
  Status : string;
  Body : string + error
}.

(** The outside world: the HTTP round trip and the XML decoder. *)
Record Env := mkEnv {
  http_Post : string -> string -> string -> HttpResponse + error;
  xml_Unmarshal : forall T : shape, string -> target T -> target T * option error
}.

Definition set_p (v : Values) (sdb : SimpleDB) : SimpleDB :=
  mkSimpleDB (RawResponse sdb) (RawRequest sdb) v (accessKey sdb) (secretKey sdb) (region sdb).
Definition set_RawRequest (r : string) (sdb : SimpleDB) : SimpleDB :=
  mkSimpleDB (RawResponse sdb) r (p sdb) (accessKey sdb) (secretKey sdb) (region sdb).
Definition set_RawResponse (r : string) (sdb : SimpleDB) : SimpleDB :=
  mkSimpleDB r (RawRequest sdb) (p sdb) (accessKey sdb) (secretKey sdb) (region sdb).

(** [sdb.p.Add(key, value)] *)
Definition p_Add (key value : string) (sdb : SimpleDB) : SimpleDB :=
  set_p (Add key value (p sdb)) sdb.

(** [func (sdb *SimpleDB) sign(s string) string] *)
Definition sign (sdb : SimpleDB) (s : string) : string :=
  Base64.EncodeToString (Hmac.sum (bytes_of (secretKey sdb)) (bytes_of s)).

(** [func (sdb *SimpleDB) resetParameters()]; [now] is the reading of
    [time.Now().UTC()]. *)
Definition resetParameters (now : Time.Time) (sdb : SimpleDB) : SimpleDB :=
  let sdb := set_RawRequest "" sdb in
  let sdb := set_RawResponse "" sdb in
  let sdb := set_p ∅ sdb in
  let sdb := p_Add "AWSAccessKeyId" (accessKey sdb) sdb in
  let sdb := p_Add "SignatureMethod" "HmacSHA256" sdb in
  let sdb := p_Add "SignatureVersion" "2" sdb in
  let sdb := p_Add "Version" "2009-04-15" sdb in
  let t := now in
  p_Add "Timestamp" (Time.Format t Time.dateFormat) sdb.

(** [func (sdb *SimpleDB) unmarshal(r *http.Response, v interface{}) error] *)
Definition unmarshal (env : Env) (r : HttpResponse) (T : shape) (v : target T)
    (sdb : SimpleDB) : SimpleDB * target T * option error :=
  match Body r with
  | inr err => (sdb, v, Some err)
  | inl b =>
      let sdb := set_RawResponse b sdb in
      let '(v, err) := xml_Unmarshal env T b v in
      (sdb, v, err)
  end.

(** [unsignedSignature] in [post]: the string that is signed. *)
Definition unsignedSignature (sdb : SimpleDB) : string :=
  ("POST" +:+ LF) +:+ region sdb +:+ LF +:+ ("/" +:+ LF)
    +:+ Strings.Replace (Encode (p sdb)) "+" "%20".

(** The first statements of [post], up to the HTTP call: the signature is
    added to the parameters and the body to send is kept in [RawRequest]. *)
Definition signRequest (sdb : SimpleDB) : SimpleDB :=
  let unsigned := unsignedSignature sdb in
  let sdb := p_Add "Signature" (sign sdb unsigned) sdb in
  let sdb := set_RawRequest (Encode (p sdb)) sdb in
  set_RawRequest (Strings.Replace (RawRequest sdb) "+" "%20") sdb.

Definition contentType : string := "application/x-www-form-urlencoded; charset=utf-8".

(** [func (sdb *SimpleDB) post(v interface{}) error] *)
Definition post (env : Env) (T : shape) (v : target T) (sdb : SimpleDB)
    : SimpleDB * target T * option error :=
  let sdb := signRequest sdb in
  match http_Post env ("https://" +:+ region sdb) contentType (RawRequest sdb) with
  | inr err => (sdb, v, Some err)
  | inl r =>
      if decide (StatusCode r ≠ 200%Z) then
        let '(sdb, v', err) := unmarshal env r TResponse (zero TResponse) sdb in
        match err with
        | Some e => (sdb, v, Some e)
        | None =>
            match Errors v' with
            | e0 :: _ =>
                (sdb, v, Some (SimpleDBError_error
                   (mkSimpleDBError (Code e0) (Message e0) (RequestId e0))))
            | [] => (sdb, v, Some (errorString (Status r)))
            end
        end
      else unmarshal env r T v sdb
  end.

(** [func NewAttribute(name string, value string) *Attribute] *)
Definition NewAttribute (name value : string) : Attribute :=
  mkAttribute name value false.

(** [func NewItem(name string) *Item] *)
Definition NewItem (name : string) : Item := mkItem name [].

(** [func (i *Item) AddAttribute(name string, value string) *Attribute]:
    the attribute returned and the item after the call. *)
Definition AddAttribute (name value : string) (i : Item) : Attribute * Item :=
  let a := mkAttribute name value false in
  (a, mkItem (Item_Name i) (Item_Attributes i ++ [a])).

(** [func (i *Item) RemoveAttribute(a Attribute) Attribute]: the loop
    state is the slice rebuilt so far and [removedAttr]. *)
Definition RemoveAttribute (a : Attribute) (i : Item) : Attribute * Item :=
  let removedAttr := mkAttribute "" "" false in
  let attrs := Item_Attributes i in
  let '(kept, removedAttr) :=
    foldl (fun '(kept, removedAttr) attr =>
             if bool_decide (Name attr ≠ Name a) && bool_decide (Value attr ≠ Value a)
             then (kept ++ [attr], removedAttr)
             else (kept, attr))
          ([], removedAttr) attrs in
  (removedAttr, mkItem (Item_Name i) kept).

(** [func NewSimpleDB(a string, s string, r string) SimpleDB] *)
Definition NewSimpleDB (now : Time.Time) (a s r : string) : SimpleDB :=
  resetParameters now (mkSimpleDB "" "" ∅ a s r).

(** [for i, x := range l { ... }] over a state. *)
Fixpoint range {A St : Type} (body : nat -> A -> St -> St) (i : nat) (l : list A)
    (s : St) : St :=
  match l with
  | [] => s
  | x :: l' => range body (S i) l' (body i x s)
  end.

(** *** The parameters each action sets before [post] *)

Definition ListDomains_p (now : Time.Time) (sdb : SimpleDB) : SimpleDB :=
  let sdb := resetParameters now sdb in
  p_Add "Action" "ListDomains" sdb.

Definition DomainMetadata_p (now : Time.Time) (name : string) (sdb : SimpleDB) : SimpleDB :=
  let sdb := resetParameters now sdb in
  let sdb := p_Add "Action" "DomainMetadata" sdb in
  p_Add "DomainName" name sdb.

Definition CreateDomain_p (now : Time.Time) (name : string) (sdb : SimpleDB) : SimpleDB :=
  let sdb := resetParameters now sdb in
  let sdb := p_Add "Action" "CreateDomain" sdb in
  p_Add "DomainName" name sdb.

Definition DeleteDomain_p (now : Time.Time) (name : string) (sdb : SimpleDB) : SimpleDB :=
  let sdb := resetParameters now sdb in
  let sdb := p_Add "Action" "DeleteDomain" sdb in
  p_Add "DomainName" name sdb.

Definition PutAttributes_p (now : Time.Time) (domain : string) (i : Item)
    (sdb : SimpleDB) : SimpleDB :=
  let sdb := resetParameters now sdb in
  let sdb := p_Add "Action" "PutAttributes" sdb in
  let sdb := p_Add "DomainName" domain sdb in
  let sdb := p_Add "ItemName" (Item_Name i) sdb in
  range (fun i a sdb =>
           let o := Strconv.Itoa (Z.of_nat i + 1)%Z in
           let sdb := p_Add ("Attribute." +:+ o +:+ ".Name") (Name a) sdb in
           p_Add ("Attribute." +:+ o +:+ ".Value") (Value a) sdb)
        0 (Item_Attributes i) sdb.

Definition BatchPutAttributes_p (now : Time.Time) (domain : string) (items : list Item)
    (sdb : SimpleDB) : SimpleDB :=
  let sdb := resetParameters now sdb in
  let sdb := p_Add "Action" "BatchPutAttributes" sdb in
  let sdb := p_Add "DomainName" domain sdb in
  range (fun i item sdb =>
           let itemNo := Strconv.Itoa (Z.of_nat i + 1)%Z in
           let sdb := p_Add ("Item." +:+ itemNo +:+ ".ItemName") (Item_Name item) sdb in
           range (fun j a sdb =>
                    let o := Strconv.Itoa (Z.of_nat j + 1)%Z in
                    let sdb := p_Add ("Item." +:+ itemNo +:+ ".Attribute." +:+ o +:+ ".Name")
                                     (Name a) sdb in
                    p_Add ("Item." +:+ itemNo +:+ ".Attribute." +:+ o +:+ ".Value")
                          (Value a) sdb)
                 0 (Item_Attributes item) sdb)
        0 items sdb.

Definition GetAttributes_p (now : Time.Time) (domain itemName : string)
    (sdb : SimpleDB) : SimpleDB :=
  let sdb := resetParameters now sdb in
  let sdb := p_Add "Action" "GetAttributes" sdb in
  let sdb := p_Add "DomainName" domain sdb in
  p_Add "ItemName" itemName sdb.

Definition DeleteItem_p (now : Time.Time) (domain itemName : string)
    (sdb : SimpleDB) : SimpleDB :=
  let sdb := resetParameters now sdb in
  let sdb := p_Add "Action" "DeleteAttributes" sdb in
  let sdb := p_Add "DomainName" domain sdb in
  p_Add "ItemName" itemName sdb.

Definition Select_p (now : Time.Time) (q : string) (sdb : SimpleDB) : SimpleDB :=
  let sdb := resetParameters now sdb in
  let sdb := p_Add "Action" "Select" sdb in
  p_Add "SelectExpression" q sdb.

(** *** The public action methods: client after the call, result, error *)

Definition ListDomains (env : Env) (now : Time.Time) (sdb : SimpleDB) :=
  post env TListDomainsResponse (zero _) (ListDomains_p now sdb).

Definition DomainMetadata (env : Env) (now : Time.Time) (name : string) (sdb : SimpleDB) :=
  post env TDomainMetadataResponse (zero _) (DomainMetadata_p now name sdb).

Definition CreateDomain (env : Env) (now : Time.Time) (name : string) (sdb : SimpleDB) :=
  post env TCreateDomainResponse (zero _) (CreateDomain_p now name sdb).

Definition DeleteDomain (env : Env) (now : Time.Time) (name : string) (sdb : SimpleDB) :=
  post env TDeleteDomainResponse (zero _) (DeleteDomain_p now name sdb).

Definition PutAttributes (env : Env) (now : Time.Time) (domain : string) (i : Item)
    (sdb : SimpleDB) :=
  post env TPutAttributesResponse (zero _) (PutAttributes_p now domain i sdb).

Definition BatchPutAttributes (env : Env) (now : Time.Time) (domain : string)
    (items : list Item) (sdb : SimpleDB) :=
  post env TPutAttributesResponse (zero _) (BatchPutAttributes_p now domain items sdb).

Definition GetAttributes (env : Env) (now : Time.Time) (domain itemName : string)
    (sdb : SimpleDB) :=
  post env TGetAttributesResponse (zero _) (GetAttributes_p now domain itemName sdb).

Definition DeleteItem (env : Env) (now : Time.Time) (domain itemName : string)
    (sdb : SimpleDB) :=
  post env TDeleteAttributesResponse (zero _) (DeleteItem_p now domain itemName sdb).

Definition Select (env : Env) (now : Time.Time) (q : string) (sdb : SimpleDB) :=
  post env TSelectResponse (zero _) (Select_p now q sdb).

(** *** The struct declarations as data

    Field name, XML path tag and Go type of every field of the structs a
    response is decoded into. *)

Inductive gotype :=
| Tstring | Tint64 | Tfloat64 | Tbool
| Tslice (elem : gotype)
| Tstruct (name : string).

Record field := mkField { fname : string; ftag : string; ftype : gotype }.

Global Instance gotype_eq_dec : EqDecision gotype.
Proof. solve_decision. Defined.
Global Instance field_eq_dec : EqDecision field.
Proof. solve_decision. Defined.

Definition struct_fields (name : string) : list field :=
  if decide (name = "SimpleDBError") then
    [mkField "Code" "Error>Code" Tstring; mkField "Message" "Error>Message" Tstring;
     mkField "RequestId" "" Tstring]
  else if decide (name = "Response") then
    [mkField "Errors" "" (Tslice (Tstruct "SimpleDBError")); mkField "RequestId" "" Tstring]
  else if decide (name = "ResponseMetadata") then
    [mkField "RequestId" "" Tstring; mkField "BoxUsage" "" Tfloat64]
  else if decide (name = "DeleteDomainResponse") then
    [mkField "ResponseMetadata" "" (Tstruct "ResponseMetadata")]
  else if decide (name = "CreateDomainResponse") then
    [mkField "ResponseMetadata" "" (Tstruct "ResponseMetadata")]
  else if decide (name = "ListDomainsResponse") then
    [mkField "DomainNames" "ListDomainsResult>DomainName" (Tslice Tstring);
     mkField "ResponseMetadata" "" (Tstruct "ResponseMetadata")]
  else if decide (name = "DomainMetadataResponse") then
    [mkField "ItemCount" "DomainMetadataResult>ItemCount" Tint64;
     mkField "ItemNamesSizeBytes" "DomainMetadataResult>ItemNamesSizeBytes" Tint64;
     mkField "AttributeNameCount" "DomainMetadataResult>AttributeNameCount" Tint64;
     mkField "AttributeNamesSizeBytes" "DomainMetadataResult>AttributeNamesSizeBytes" Tint64;
     mkField "AttributeValueCount" "DomainMetadataResult>AttributeValueCount" Tint64;
     mkField "AttributeValuesSizeBytes" "DomainMetadataResult>AttributeValuesSizeBytes" Tint64;
     mkField "Timestamp" "DomainMetadataResult>Timestamp" Tint64;
     mkField "ResponseMetadata" "" (Tstruct "ResponseMetadata")]
  else if decide (name = "PutAttributesResponse") then
    [mkField "ResponseMetadata" "" (Tstruct "ResponseMetadata")]
  else if decide (name = "GetAttributesResponse") then
    [mkField "Attributes" "GetAttributesResult>Attribute" (Tslice (Tstruct "Attribute"))]
  else if decide (name = "DeleteAttributesResponse") then
    [mkField "ResponseMetadata" "" (Tstruct "ResponseMetadata")]
  else if decide (name = "SelectResponse") then
    [mkField "Items" "SelectResult>Item" (Tslice (Tstruct "Item"))]
  else if decide (name = "Attribute") then
    [mkField "Name" "" Tstring; mkField "Value" "" Tstring; mkField "Replace" "" Tbool]
  else if decide (name = "Item") then
    [mkField "Name" "" Tstring; mkField "Attributes" "Attribute" (Tslice (Tstruct "Attribute"))]
  else [].

Definition shape_name (T : shape) : string :=
  match T with
  | TResponse => "Response"
  | TListDomainsResponse => "ListDomainsResponse"
  | TDomainMetadataResponse => "DomainMetadataResponse"
  | TCreateDomainResponse => "CreateDomainResponse"
  | TDeleteDomainResponse => "DeleteDomainResponse"
  | TPutAttributesResponse => "PutAttributesResponse"
  | TGetAttributesResponse => "GetAttributesResponse"
  | TDeleteAttributesResponse => "DeleteAttributesResponse"
  | TSelectResponse => "SelectResponse"
  end.

(** The public action methods and the type of the result of each. *)
Inductive action :=
| AListDomains | ADomainMetadata | ACreateDomain | ADeleteDomain
| APutAttributes | ABatchPutAttributes | AGetAttributes | ADeleteItem | ASelect.

Definition result_shape (a : action) : shape :=
  match a with
  | AListDomains => TListDomainsResponse
  | ADomainMetadata => TDomainMetadataResponse
  | ACreateDomain => TCreateDomainResponse
  | ADeleteDomain => TDeleteDomainResponse
  | APutAttributes => TPutAttributesResponse
  | ABatchPutAttributes => TPutAttributesResponse
  | AGetAttributes => TGetAttributesResponse
  | ADeleteItem => TDeleteAttributesResponse
  | ASelect => TSelectResponse
  end.

(** Whether a struct type has a field [ResponseMetadata] of the struct
    type [ResponseMetadata]. *)
Definition has_ResponseMetadata (T : shape) : bool :=
  bool_decide (mkField "ResponseMetadata" "" (Tstruct "ResponseMetadata")
                 ∈ struct_fields (shape_name T)).

(** The arguments of a call of an action method. *)
Inductive call :=
| CallListDomains
| CallDomainMetadata (name : string)
| CallCreateDomain (name : string)
| CallDeleteDomain (name : string)
| CallPutAttributes (domain : string) (i : Item)
| CallBatchPutAttributes (domain : string) (items : list Item)
| CallGetAttributes (domain itemName : string)
| CallDeleteItem (domain itemName : string)
| CallSelect (q : string).

Definition call_action (c : call) : action :=
  match c with
  | CallListDomains => AListDomains
  | CallDomainMetadata _ => ADomainMetadata
  | CallCreateDomain _ => ACreateDomain
  | CallDeleteDomain _ => ADeleteDomain
  | CallPutAttributes _ _ => APutAttributes
  | CallBatchPutAttributes _ _ => ABatchPutAttributes
  | CallGetAttributes _ _ => AGetAttributes
  | CallDeleteItem _ _ => ADeleteItem
  | CallSelect _ => ASelect
  end.

(** The client just before [post] in a call. *)
Definition call_p (now : Time.Time) (c : call) (sdb : SimpleDB) : SimpleDB :=
  match c with
  | CallListDomains => ListDomains_p now sdb
  | CallDomainMetadata name => DomainMetadata_p now name sdb
  | CallCreateDomain name => CreateDomain_p now name sdb
  | CallDeleteDomain name => DeleteDomain_p now name sdb
  | CallPutAttributes domain i => PutAttributes_p now domain i sdb
  | CallBatchPutAttributes domain items => BatchPutAttributes_p now domain items sdb
  | CallGetAttributes domain itemName => GetAttributes_p now domain itemName sdb
  | CallDeleteItem domain itemName => DeleteItem_p now domain itemName sdb
  | CallSelect q => Select_p now q sdb
  end.

(** The client after a call and the error returned. *)
Definition run (env : Env) (now : Time.Time) (c : call) (sdb : SimpleDB)
    : SimpleDB * option error :=
  match c with
  | CallListDomains => let '(s, _, e) := ListDomains env now sdb in (s, e)
  | CallDomainMetadata name => let '(s, _, e) := DomainMetadata env now name sdb in (s, e)
  | CallCreateDomain name => let '(s, _, e) := CreateDomain env now name sdb in (s, e)
  | CallDeleteDomain name => let '(s, _, e) := DeleteDomain env now name sdb in (s, e)
  | CallPutAttributes domain i => let '(s, _, e) := PutAttributes env now domain i sdb in (s, e)
  | CallBatchPutAttributes domain items =>
      let '(s, _, e) := BatchPutAttributes env now domain items sdb in (s, e)
  | CallGetAttributes domain itemName =>
      let '(s, _, e) := GetAttributes env now domain itemName sdb in (s, e)
  | CallDeleteItem domain itemName =>
      let '(s, _, e) := DeleteItem env now domain itemName sdb in (s, e)
  | CallSelect q => let '(s, _, e) := Select env now q sdb in (s, e)
  end.

End Sdb.

(** ** The buffering log writer (the revision of [sdb.go] that declares
    [SDBWriter]) *)

Module Writer.

Import Sdb.

(** The fields of [SDBWriter] that [Write] reads and writes; [sdb] is a
    shared pointer used only by the flush and [m] is the lock that makes
    calls of [Write] sequential. *)
Record SDBWriter := mkSDBWriter {
  Domain : string;
  buffer : list Item
}.

(** A goroutine started by [Write]: the call
    [s.sdb.BatchPutAttributes(s.Domain, tmp)] with its copy [tmp] of the
    buffer. *)
Inductive goroutine :=
| go_BatchPutAttributes (tmp : list Item).

(** What [NewSDBWriter] returns once [CreateDomain] has succeeded. *)
Definition NewSDBWriter (domain : string) : SDBWriter := mkSDBWriter domain [].

Section Write.

(** [strings.TrimSpace] *)
Variable TrimSpace : string -> string.

(** The name given to the item written at [t]. *)
Definition itemName (t : Time.Time) : string :=
  Strconv.FormatInt (Time.Unix t) +:+ "." +:+ Strconv.Itoa (Time.Nanosecond t).

(** [func (s *SDBWriter) Write(p []byte) (n int, err error)]: the writer
    after the call, the goroutines started, and [n]; [err] is nil when
    the call returns.  [t] is the reading of [time.Now().UTC()]. *)
Definition Write (t : Time.Time) (p : string) (s : SDBWriter)
    : SDBWriter * list goroutine * Z :=
  let name := itemName t in
  let i := mkItem name [] in
  let i := (AddAttribute "msg" (TrimSpace p) i).2 in
  let s := mkSDBWriter (Domain s) (buffer s ++ [i]) in
  let '(s, started) :=
    if decide (length (buffer s) = 25%nat) then
      let tmp := buffer s in
      (mkSDBWriter (Domain s) [], [go_BatchPutAttributes tmp])
    else (s, []) in
  (s, started, Z.of_nat (String.length p)).

(** A sequence of calls of [Write], one per clock reading and input;
    the goroutines started are collected in order. *)
Fixpoint Writes (calls : list (Time.Time * string)) (s : SDBWriter)
    : SDBWriter * list goroutine :=
  match calls with
  | [] => (s, [])
  | (t, p) :: rest =>
      let '(s, started, _) := Write t p s in
      let '(s', started') := Writes rest s in
      (s', started ++ started')
  end.

(** The item [Write] puts in the buffer for one call. *)
Definition logItem (c : Time.Time * string) : Item :=
  mkItem (itemName c.1) [mkAttribute "msg" (TrimSpace c.2) false].

End Write.

End Writer.

(** ** The wire format in the words of the specification

    Section 4.1: [reset()] re-seeds the four protocol-fixed fields plus a
    fresh UTC timestamp formatted as [YYYY-MM-DDThh:mm:ss±hh:mm].
    Section 4.4: every action adds [Action=<Name>] and its own fields;
    put-attributes indexes attributes as [Attribute.<j>.Name/Value] and
    batch-put indexes items and attributes as [Item.<i>.ItemName],
    [Item.<i>.Attribute.<j>.Name/Value], counting from 1. *)

Module Wire.

Import Sdb.
Local Open Scope Z_scope.

Definition is_digit (c : ascii) : bool := Url.byte_in "0" "9" c.
Definition is_byte (a c : ascii) : bool := bool_decide (c = a).
Definition is_sign (c : ascii) : bool := is_byte "+" c || is_byte "-" c.

(** A string matches a pattern when it has one character per test of the
    pattern and every character passes its test. *)
Fixpoint matches (pat : list (ascii -> bool)) (s : string) : bool :=
  match pat, s with
  | [], EmptyString => true
  | f :: pat', String c s' => f c && matches pat' s'
  | _, _ => false
  end.

(** [YYYY-MM-DDThh:mm:ss±hh:mm] *)
Definition timestamp_pattern : list (ascii -> bool) :=
  [is_digit; is_digit; is_digit; is_digit; is_byte "-"; is_digit; is_digit;
   is_byte "-"; is_digit; is_digit; is_byte "T"; is_digit; is_digit;
   is_byte ":"; is_digit; is_digit; is_byte ":"; is_digit; is_digit;
   is_sign; is_digit; is_digit; is_byte ":"; is_digit; is_digit].

Definition is_timestamp (s : string) : bool := matches timestamp_pattern s.

(** Two digits for a field below 100. *)
Definition two (n : Z) : string :=
  String (Time.digit (n / 10)) (String (Time.digit (n mod 10)) "").

(** Four digits for a field below 10000. *)
Definition four (n : Z) : string :=
  String (Time.digit (n / 1000)) (String (Time.digit (n / 100 mod 10))
    (String (Time.digit (n / 10 mod 10)) (String (Time.digit (n mod 10)) ""))).

(** The fields every request starts from. *)
Definition seed (accessKeyId timestamp : string) : Url.Values :=
  <["Timestamp" := [timestamp]]>
  (<["Version" := ["2009-04-15"]]>
  (<["SignatureVersion" := ["2"]]>
  (<["SignatureMethod" := ["HmacSHA256"]]>
  (<["AWSAccessKeyId" := [accessKeyId]]> ∅)))).

(** The fields of the elements of a list, numbered from [i]. *)
Fixpoint fields_from {A : Type} (f : nat -> A -> list (string * string)) (i : nat)
    (l : list A) : list (string * string) :=
  match l with
  | [] => []
  | x :: l' => f i x ++ fields_from f (S i) l'
  end.

Definition number (i : nat) : string := Strconv.Itoa (Z.of_nat i + 1)%Z.

(** [Attribute.<j>.Name] and [Attribute.<j>.Value] for a name and a value. *)
Definition put_attribute (j : nat) (nv : string * string) : list (string * string) :=
  [("Attribute." +:+ number j +:+ ".Name", nv.1);
   ("Attribute." +:+ number j +:+ ".Value", nv.2)].

Definition batch_attribute (itemNo : string) (j : nat) (nv : string * string)
    : list (string * string) :=
  [("Item." +:+ itemNo +:+ ".Attribute." +:+ number j +:+ ".Name", nv.1);
   ("Item." +:+ itemNo +:+ ".Attribute." +:+ number j +:+ ".Value", nv.2)].

(** An item as it goes on the wire: its name and the name and value of each
    attribute, in order. *)
Definition name_value (a : Attribute) : string * string := (Name a, Value a).
Definition wire_item (i : Item) : string * list (string * string) :=
  (Item_Name i, map name_value (Item_Attributes i)).

Definition batch_item (i : nat) (it : string * list (string * string))
    : list (string * string) :=
  ("Item." +:+ number i +:+ ".ItemName", it.1)
    :: fields_from (batch_attribute (number i)) 0 it.2.

(** The fields an action adds after the reset, in the order it adds them. *)
Definition call_fields (c : call) : list (string * string) :=
  match c with
  | CallListDomains => [("Action", "ListDomains")]
  | CallDomainMetadata name => [("Action", "DomainMetadata"); ("DomainName", name)]
  | CallCreateDomain name => [("Action", "CreateDomain"); ("DomainName", name)]
  | CallDeleteDomain name => [("Action", "DeleteDomain"); ("DomainName", name)]
  | CallPutAttributes domain i =>
      [("Action", "PutAttributes"); ("DomainName", domain); ("ItemName", (wire_item i).1)]
        ++ fields_from put_attribute 0 (wire_item i).2
  | CallBatchPutAttributes domain items =>
      [("Action", "BatchPutAttributes"); ("DomainName", domain)]
        ++ fields_from batch_item 0 (map wire_item items)
  | CallGetAttributes domain itemName =>
      [("Action", "GetAttributes"); ("DomainName", domain); ("ItemName", itemName)]
  | CallDeleteItem domain itemName =>
      [("Action", "DeleteAttributes"); ("DomainName", domain); ("ItemName", itemName)]
  | CallSelect q => [("Action", "Select"); ("SelectExpression", q)]
  end.

(** Adding a list of fields to a mapping, one [Add] per field. *)
Definition AddAll (fs : list (string * string)) (v : Url.Values) : Url.Values :=
  foldl (fun v kv => Url.Add kv.1 kv.2 v) v fs.

(** The same on the client: one [sdb.p.Add] per field. *)
Definition p_AddAll (fs : list (string * string)) (sdb : SimpleDB) : SimpleDB :=
  foldl (fun s kv => p_Add kv.1 kv.2 s) sdb fs.

(** The test of the loop of [RemoveAttribute]: the attribute is kept. *)
Definition survives (a attr : Attribute) : Prop :=
  Name attr ≠ Name a ∧ Value attr ≠ Value a.

Global Instance survives_dec a attr : Decision (survives a attr).
Proof. unfold survives. apply _. Defined.

End Wire.

(** ** The canonical query string in the words of the specification

    Section 4.2: percent-encode all parameters, sort by key, and write a
    space as [%20] rather than [+]. *)

Module Canon.

Import Url.

(** Percent-encoding of one byte: the unreserved characters stand for
    themselves, every other byte, the space included, is [%] and two
    upper-case hex digits. *)
Definition pctByte (c : ascii) : string :=
  if shouldEscape c
  then String "%" (String (upperhex (N.shiftr (N_of_ascii c) 4))
                     (String (upperhex (N.land (N_of_ascii c) 15)) ""))
  else String c "".

Fixpoint pctEncode (s : string) : string :=
  match s with
  | EmptyString => EmptyString
  | String c s' => pctByte c +:+ pctEncode s'
  end.

(** The key-value pairs of a mapping: keys in ascending order, the values of
    one key in the order they were added. *)
Definition pairsOf (v : Values) (keys : list string) : list (string * string) :=
  flat_map (fun k => map (pair k) (get v k)) keys.

Definition pairs (v : Values) : list (string * string) := pairsOf v (sortedKeys v).

(** The piece [key=value] of one pair, percent-encoded, and the piece
    [Encode] writes for it. *)
Definition pctPiece (kv : string * string) : string :=
  pctEncode kv.1 +:+ "=" +:+ pctEncode kv.2.

Definition escPiece (kv : string * string) : string :=
  QueryEscape kv.1 +:+ "=" +:+ QueryEscape kv.2.

(** [key=value] pieces joined by [&]. *)
Definition canonicalQuery (v : Values) : string :=
  String.concat "&" (map pctPiece (pairs v)).

(** The string to sign: method, host, path and canonical query string, one
    line feed between two components. *)
Definition stringToSign (host : string) (v : Values) : string :=
  String.concat Sdb.LF ["POST"; host; "/"; canonicalQuery v].

(** Every [+] replaced by [%20]. *)
Fixpoint plus20 (s : string) : string :=
  match s with
  | EmptyString => EmptyString
  | String c s' => if decide (c = "+"%char) then "%20" +:+ plus20 s' else String c (plus20 s')
  end.

(** The values of key [k] in a list of pairs, in order. *)
Definition values_of (k : string) (l : list (string * string)) : list string :=
  map snd (filter (fun kv => kv.1 = k) l).

(** The mappings [Add] builds: no key is bound to an empty list. *)
Definition built (v : Values) : Prop := map_Forall (fun _ vs => vs ≠ []) v.

Global Instance built_dec v : Decision (built v).
Proof. unfold built. apply _. Defined.

(** [q] is [p] with one value of one parameter changed. *)
Definition value_change (p q : Values) : Prop :=
  ∃ k vs i x x',
    p !! k = Some vs ∧ vs !! i = Some x ∧ x' ≠ x ∧ q = <[k := <[i := x']> vs]> p.

(** The number whose base-256 digits, least significant first, are the
    bytes of [l]. *)
Definition num (l : list N) : N := foldr (fun b acc => (b + 256 * acc)%N) 0%N l.

(** The statement that a change of one value of one parameter always
    changes the signature. *)
Definition signatures_always_differ : Prop :=
  ∀ sdb sdb' : Sdb.SimpleDB,
    Sdb.secretKey sdb' = Sdb.secretKey sdb →
    Sdb.region sdb' = Sdb.region sdb →
    built (Sdb.p sdb) →
    value_change (Sdb.p sdb) (Sdb.p sdb') →
    Sdb.sign sdb (Sdb.unsignedSignature sdb) ≠ Sdb.sign sdb' (Sdb.unsignedSignature sdb').

End Canon.

(** ** Sample values used in the examples *)

Module Sample.

Import Sdb.

(** Bytes in lower-case hexadecimal, as digests are usually printed. *)
Definition hexdigit (n : N) : ascii :=
  if (n <? 10)%N then ascii_of_N (48 + n) else ascii_of_N (87 + n).
Definition hex (bs : list N) : string :=
  string_of_list_ascii
    (flat_map (fun b => [hexdigit (N.shiftr b 4); hexdigit (N.land b 15)]) bs).

Definition now : Time.Time := Time.mkTime 1394183101 5.

Definition client : SimpleDB := NewSimpleDB now "AKIDEXAMPLE" "secret" "sdb.eu-west-1.amazonaws.com".

Definition entry1 : SimpleDBError := mkSimpleDBError "InvalidParameterValue" "Value () is invalid" "r1".
Definition entry2 : SimpleDBError := mkSimpleDBError "MissingParameter" "No DomainName" "r2".

(** A world that answers every request with the status and body given and
    decodes every error envelope as [decoded]. *)
Definition world (code : Z) (status : string) (body : string)
    (decoded : Response * option error) : Env :=
  mkEnv (fun _ _ _ => inl (mkHttpResponse code status (inl body)))
        (fun T => match T return string -> target T -> target T * option error with
                  | TResponse => fun _ _ => decoded
                  | _ => fun _ v => (v, None)
                  end).

Definition xmlError : error := libraryError "encoding/xml" "XML syntax error".

(** A [TrimSpace] for the examples: it drops the ASCII white space at both
    ends, as [strings.TrimSpace] does on ASCII text. *)
Fixpoint trimLeft (s : string) : string :=
  match s with
  | String c s' => if Ascii.is_space c then trimLeft s' else s
  | EmptyString => EmptyString
  end.
Definition trimSpace (s : string) : string :=
  String.rev (trimLeft (String.rev (trimLeft s))).

(** [n] times the letter x, and the client whose one parameter has it as
    its value. *)
Fixpoint xs (n : nat) : string :=
  match n with
  | O => EmptyString
  | S n' => String "x" (xs n')
  end.

Definition clientWith (n : nat) : SimpleDB :=
  mkSimpleDB "" "" {["k" := [xs n]]} "AKIDEXAMPLE" "secret" "sdb.eu-west-1.amazonaws.com".

Definition item (replace : bool) : Item :=
  mkItem "item1" [mkAttribute "color" "red" replace; mkAttribute "size" "big" replace].

End Sample.

(** ** The receiving side of a request, the batches of the log writer, the
    first revision of the client, the tests *)

Module Service.

Import Sdb Canon.

(** The receiving side of what [post] does, with the same library
    functions: decode the body with [url.ParseQuery], take the one
    [Signature] out, and compare it with the signature of the canonical form
    of what is left. *)
Definition verify (secret host body : string) : bool :=
  let '(m, err) := Url.ParseQuery true body in
  match m !! "Signature" with
  | Some [sig] =>
      negb err
      && bool_decide
           (sig = Base64.EncodeToString
                    (Hmac.sum (bytes_of secret)
                       (bytes_of (stringToSign host (delete "Signature" m)))))
  | _ => false
  end.

(** The bytes of a request body: unreserved characters and [%], [=], [&]. *)
Definition body_byte (c : ascii) : bool :=
  negb (Url.shouldEscape c) || Wire.is_byte "%" c || Wire.is_byte "=" c || Wire.is_byte "&" c.

Fixpoint all_bytes (f : ascii -> bool) (s : string) : bool :=
  match s with
  | EmptyString => true
  | String c s' => f c && all_bytes f s'
  end.

(** The characters of base64 text. *)
Definition base64_byte (c : ascii) : bool :=
  Url.byte_in "A" "Z" c || Url.byte_in "a" "z" c || Url.byte_in "0" "9" c
  || Wire.is_byte "+" c || Wire.is_byte "/" c || Wire.is_byte "=" c.

End Service.

Module Batches.

Import Sdb Writer.

(** The argument of each flush started, in order. *)
Definition batches (started : list goroutine) : list (list Item) :=
  map (fun g => match g with go_BatchPutAttributes tmp => tmp end) started.

End Batches.

Module Calls.

Import Sdb.

(** A call of an action method with its typed result: the client after the
    call, the result and the error.  For each action this is the method
    itself, [outcome env now (CallSelect q) sdb] being [Select env now q sdb]
    and so on. *)
Definition outcome (env : Env) (now : Time.Time) (c : call) (sdb : SimpleDB)
    : SimpleDB * target (result_shape (call_action c)) * option error :=
  match c return SimpleDB * target (result_shape (call_action c)) * option error with
  | CallListDomains => ListDomains env now sdb
  | CallDomainMetadata name => DomainMetadata env now name sdb
  | CallCreateDomain name => CreateDomain env now name sdb
  | CallDeleteDomain name => DeleteDomain env now name sdb
  | CallPutAttributes domain i => PutAttributes env now domain i sdb
  | CallBatchPutAttributes domain items => BatchPutAttributes env now domain items sdb
  | CallGetAttributes domain itemName => GetAttributes env now domain itemName sdb
  | CallDeleteItem domain itemName => DeleteItem env now domain itemName sdb
  | CallSelect q => Select env now q sdb
  end.

(** What [ioutil.ReadAll] gave for the body of the response, if there was a
    response and the body could be read. *)
Definition body_read (env : Env) (sent : SimpleDB) : option string :=
  match http_Post env ("https://" +:+ region sent) contentType (RawRequest sent) with
  | inl r => match Body r with inl b => Some b | inr _ => None end
  | inr _ => None
  end.

End Calls.

Module Items.

Import Sdb.

(** The zero [Attribute], what [var removedAttr Attribute] holds. *)
Definition zeroAttribute : Attribute := mkAttribute "" "" false.

(** [AddAttribute] called once per name and value of a list, in order. *)
Definition AddAttributes (nvs : list (string * string)) (i : Item) : Item :=
  foldl (fun i nv => (AddAttribute nv.1 nv.2 i).2) i nvs.

End Items.

Module Keys.

(** The parameter names of the attribute with index [j] (counted from 0)
    in put-attributes, and of item [i] and its attribute [j] in
    batch-put-attributes. *)
Definition putName (j : nat) : string := "Attribute." +:+ Wire.number j +:+ ".Name".
Definition putValue (j : nat) : string := "Attribute." +:+ Wire.number j +:+ ".Value".
Definition batchItemName (i : nat) : string := "Item." +:+ Wire.number i +:+ ".ItemName".
Definition batchName (i j : nat) : string :=
  "Item." +:+ Wire.number i +:+ ".Attribute." +:+ Wire.number j +:+ ".Name".
Definition batchValue (i j : nat) : string :=
  "Item." +:+ Wire.number i +:+ ".Attribute." +:+ Wire.number j +:+ ".Value".

End Keys.

(** ** The first revision of the client in [sdb.go]

    The revision that declares [SDBWriter]: errors of the service are kept
    in a field [Error] of the client instead of being returned as a
    [SimpleDBError]; the delete action is called [DeleteAttributes]; the
    result types and the wire format are those of the later revision. *)

Module Rev1.

Import Url.

Record Error := mkError {
  Code : string;
  Message : string
}.

Record Response := mkResponse {
  Errors : list Error;
  RequestId : string
}.

(** [Response{}] *)
Definition zeroResponse : Response := mkResponse [] "".

Record SimpleDB := mkSimpleDB {
  p : Values;
  accessKey : string;
  secretKey : string;
  region : string;
  Error_ : Response;
  RawResponse : string;
  RawRequest : string
}.

(** The outside world: the HTTP round trip, the XML decoder for error
    envelopes and the one for results. *)
Record Env := mkEnv {
  http_Post : string -> string -> string -> Sdb.HttpResponse + Sdb.error;
  xml_Unmarshal_Response : string -> Response -> Response * option Sdb.error;
  xml_Unmarshal : forall T : Sdb.shape, string -> Sdb.target T -> Sdb.target T * option Sdb.error
}.

Definition set_p (v : Values) (sdb : SimpleDB) : SimpleDB :=
  mkSimpleDB v (accessKey sdb) (secretKey sdb) (region sdb) (Error_ sdb)
    (RawResponse sdb) (RawRequest sdb).
Definition set_Error (e : Response) (sdb : SimpleDB) : SimpleDB :=
  mkSimpleDB (p sdb) (accessKey sdb) (secretKey sdb) (region sdb) e
    (RawResponse sdb) (RawRequest sdb).
Definition set_RawResponse (r : string) (sdb : SimpleDB) : SimpleDB :=
  mkSimpleDB (p sdb) (accessKey sdb) (secretKey sdb) (region sdb) (Error_ sdb)
    r (RawRequest sdb).
Definition set_RawRequest (r : string) (sdb : SimpleDB) : SimpleDB :=
  mkSimpleDB (p sdb) (accessKey sdb) (secretKey sdb) (region sdb) (Error_ sdb)
    (RawResponse sdb) r.

(** [sdb.p.Add(key, value)] *)
Definition p_Add (key value : string) (sdb : SimpleDB) : SimpleDB :=
  set_p (Add key value (p sdb)) sdb.

(** [func (sdb *SimpleDB) sign(s string) string] *)
Definition sign (sdb : SimpleDB) (s : string) : string :=
  Base64.EncodeToString (Hmac.sum (bytes_of (secretKey sdb)) (bytes_of s)).

(** [func (sdb *SimpleDB) resetParameters()] *)
Definition resetParameters (now : Time.Time) (sdb : SimpleDB) : SimpleDB :=
  let sdb := set_Error zeroResponse sdb in
  let sdb := set_RawRequest "" sdb in
  let sdb := set_RawResponse "" sdb in
  let sdb := set_p ∅ sdb in
  let sdb := p_Add "AWSAccessKeyId" (accessKey sdb) sdb in
  let sdb := p_Add "SignatureMethod" "HmacSHA256" sdb in
  let sdb := p_Add "SignatureVersion" "2" sdb in
  let sdb := p_Add "Version" "2009-04-15" sdb in
  let t := now in
  p_Add "Timestamp" (Time.Format t Time.dateFormat) sdb.

(** [func (sdb *SimpleDB) unmarshal(r *http.Response, v interface{}) error],
    on a result and on an error envelope. *)
Definition unmarshal (env : Env) (r : Sdb.HttpResponse) (T : Sdb.shape) (v : Sdb.target T)
    (sdb : SimpleDB) : SimpleDB * Sdb.target T * option Sdb.error :=
  match Sdb.Body r with
  | inr err => (sdb, v, Some err)
  | inl b =>
      let sdb := set_RawResponse b sdb in
      let '(v, err) := xml_Unmarshal env T b v in
      (sdb, v, err)
  end.

Definition unmarshal_Response (env : Env) (r : Sdb.HttpResponse) (v : Response)
    (sdb : SimpleDB) : SimpleDB * Response * option Sdb.error :=
  match Sdb.Body r with
  | inr err => (sdb, v, Some err)
  | inl b =>
      let sdb := set_RawResponse b sdb in
      let '(v, err) := xml_Unmarshal_Response env b v in
      (sdb, v, err)
  end.

(** The first statements of [post], up to the HTTP call. *)
Definition signRequest (sdb : SimpleDB) : SimpleDB :=
  let unsignedSignature :=
    ("POST" +:+ Sdb.LF) +:+ region sdb +:+ Sdb.LF +:+ ("/" +:+ Sdb.LF)
      +:+ Strings.Replace (Encode (p sdb)) "+" "%20" in
  let sdb := p_Add "Signature" (sign sdb unsignedSignature) sdb in
  let sdb := set_RawRequest (Encode (p sdb)) sdb in
  set_RawRequest (Strings.Replace (RawRequest sdb) "+" "%20") sdb.

Definition errorText : string := "Error occured, see SimpleDB.Error for details".

(** [func (sdb *SimpleDB) post(v interface{}) (err error)] *)
Definition post (env : Env) (T : Sdb.shape) (v : Sdb.target T) (sdb : SimpleDB)
    : SimpleDB * Sdb.target T * option Sdb.error :=
  let sdb := signRequest sdb in
  match http_Post env ("https://" +:+ region sdb) Sdb.contentType (RawRequest sdb) with
  | inr err => (sdb, v, Some err)
  | inl r =>
      if decide (Sdb.StatusCode r ≠ 200%Z) then
        let '(sdb, v', err) := unmarshal_Response env r zeroResponse sdb in
        match err with
        | Some e => (sdb, v, Some e)
        | None => (set_Error v' sdb, v, Some (Sdb.errorString errorText))
        end
      else unmarshal env r T v sdb
  end.

(** [func NewSimpleDB(a string, s string, r string) *SimpleDB] *)
Definition NewSimpleDB (now : Time.Time) (a s r : string) : SimpleDB :=
  resetParameters now (mkSimpleDB ∅ a s r zeroResponse "" "").

(** The parameters each action sets before [post]. *)
Definition call_p (now : Time.Time) (c : Sdb.call) (sdb : SimpleDB) : SimpleDB :=
  let sdb := resetParameters now sdb in
  match c with
  | Sdb.CallListDomains => p_Add "Action" "ListDomains" sdb
  | Sdb.CallDomainMetadata name =>
      let sdb := p_Add "Action" "DomainMetadata" sdb in
      p_Add "DomainName" name sdb
  | Sdb.CallCreateDomain name =>
      let sdb := p_Add "Action" "CreateDomain" sdb in
      p_Add "DomainName" name sdb
  | Sdb.CallDeleteDomain name =>
      let sdb := p_Add "Action" "DeleteDomain" sdb in
      p_Add "DomainName" name sdb
  | Sdb.CallPutAttributes domain i =>
      let sdb := p_Add "Action" "PutAttributes" sdb in
      let sdb := p_Add "DomainName" domain sdb in
      let sdb := p_Add "ItemName" (Sdb.Item_Name i) sdb in
      Sdb.range (fun i a sdb =>
                   let o := Strconv.Itoa (Z.of_nat i + 1)%Z in
                   let sdb := p_Add ("Attribute." +:+ o +:+ ".Name") (Sdb.Name a) sdb in
                   p_Add ("Attribute." +:+ o +:+ ".Value") (Sdb.Value a) sdb)
                0 (Sdb.Item_Attributes i) sdb
  | Sdb.CallBatchPutAttributes domain items =>
      let sdb := p_Add "Action" "BatchPutAttributes" sdb in
      let sdb := p_Add "DomainName" domain sdb in
      Sdb.range (fun i item sdb =>
                   let itemNo := Strconv.Itoa (Z.of_nat i + 1)%Z in
                   let sdb := p_Add ("Item." +:+ itemNo +:+ ".ItemName")
                                    (Sdb.Item_Name item) sdb in
                   Sdb.range (fun j a sdb =>
                                let o := Strconv.Itoa (Z.of_nat j + 1)%Z in
                                let sdb := p_Add ("Item." +:+ itemNo +:+ ".Attribute."
                                                    +:+ o +:+ ".Name") (Sdb.Name a) sdb in
                                p_Add ("Item." +:+ itemNo +:+ ".Attribute." +:+ o +:+ ".Value")
                                      (Sdb.Value a) sdb)
                             0 (Sdb.Item_Attributes item) sdb)
                0 items sdb
  | Sdb.CallGetAttributes domain itemName =>
      let sdb := p_Add "Action" "GetAttributes" sdb in
      let sdb := p_Add "DomainName" domain sdb in
      p_Add "ItemName" itemName sdb
  | Sdb.CallDeleteItem domain itemName =>
      let sdb := p_Add "Action" "DeleteAttributes" sdb in
      let sdb := p_Add "DomainName" domain sdb in
      p_Add "ItemName" itemName sdb
  | Sdb.CallSelect q =>
      let sdb := p_Add "Action" "Select" sdb in
      p_Add "SelectExpression" q sdb
  end.

(** The action methods [ListDomains], [DomainMetadata], [CreateDomain],
    [DeleteDomain], [PutAttributes], [BatchPutAttributes], [GetAttributes],
    [DeleteAttributes] (the call [CallDeleteItem]) and [Select]: the client
    after the call, the result and the error. *)
Definition outcome (env : Env) (now : Time.Time) (c : Sdb.call) (sdb : SimpleDB)
    : SimpleDB * Sdb.target (Sdb.result_shape (Sdb.call_action c)) * option Sdb.error :=
  post env (Sdb.result_shape (Sdb.call_action c)) (Sdb.zero _) (call_p now c sdb).

(** [func NewSDBWriter(sdb *SimpleDB, domain string) (sw *SDBWriter, err error)]:
    the client after the call, the writer if there is one, and the error. *)
Definition NewSDBWriter (env : Env) (now : Time.Time) (sdb : SimpleDB) (domain : string)
    : SimpleDB * option Writer.SDBWriter * option Sdb.error :=
  let '(sdb, _, err) := outcome env now (Sdb.CallCreateDomain domain) sdb in
  match err with
  | Some e => (sdb, None, Some e)
  | None => (sdb, Some (Writer.mkSDBWriter domain []), None)
  end.

(** The same client in the later revision, which has no field [Error]. *)
Definition later (sdb : SimpleDB) : Sdb.SimpleDB :=
  Sdb.mkSimpleDB (RawResponse sdb) (RawRequest sdb) (p sdb) (accessKey sdb)
    (secretKey sdb) (region sdb).

End Rev1.

(** ** The tests of [sdb_test.go] *)

Module Tests.

Import Sdb.

(** The checks of [TestCreateDomainMissingDomainName] and
    [TestDeleteDomainMissingDomainName] on the error returned: one call of
    [t.Error] if it is nil, and the type switch, whose default case calls
    [t.Error] and whose case [SimpleDBError] calls it if the code is not
    [InvalidParameterValue]. *)
Definition expectInvalidParameter (err : option error) : nat :=
  (match err with None => 1 | Some _ => 0 end)
  + match err with
    | Some (SimpleDBError_error v) =>
        if decide (Code v ≠ "InvalidParameterValue") then 1 else 0
    | _ => 1
    end.

(** The two tests: the client [db] after the test and the number of calls
    of [t.Error]. *)
Definition TestCreateDomainMissingDomainName (env : Env) (now : Time.Time) (db : SimpleDB)
    : SimpleDB * nat :=
  let '(db, _, err) := CreateDomain env now "" db in (db, expectInvalidParameter err).

Definition TestDeleteDomainMissingDomainName (env : Env) (now : Time.Time) (db : SimpleDB)
    : SimpleDB * nat :=
  let '(db, _, err) := DeleteDomain env now "" db in (db, expectInvalidParameter err).

End Tests.

(** ** Decoding an error envelope: [encoding/xml] on the struct tags of
    [Response] and [SimpleDBError]

    [xml.Unmarshal] as far as the error path of [post] needs it: documents
    made of elements without attributes and of plain ASCII text, decoded
    into structs whose fields are strings, structs and slices of these.  A
    body outside that part (attributes, entities, comments, other bytes,
    tags that do not match) and a field of another kind give [None]: the
    model says nothing about them. *)

Module Xml.

Import Sdb.

(** An element with what it contains, or a run of character data. *)
Inductive Node :=
| Element (name : string) (children : list Node)
| CharData (data : string).

Inductive Token :=
| StartElement (name : string)
| EndElement (name : string)
| Text (data : string).

Definition quote : string := String (ascii_of_nat 34) EmptyString.

(** The XML declarations the decoder is known to pass over. *)
Definition declarations : list string :=
  ["?xml version=" +:+ quote +:+ "1.0" +:+ quote +:+ "?";
   "?xml version=" +:+ quote +:+ "1.0" +:+ quote +:+ " encoding="
     +:+ quote +:+ "UTF-8" +:+ quote +:+ "?"].

Definition is_letter (c : ascii) : bool :=
  Url.byte_in "A" "Z" c || Url.byte_in "a" "z" c.

Fixpoint every (f : ascii -> bool) (s : string) : bool :=
  match s with
  | EmptyString => true
  | String c s' => f c && every f s'
  end.

(** The element names of the model: a letter, then letters and digits. *)
Definition is_name (s : string) : bool :=
  match s with
  | EmptyString => false
  | String c s' => is_letter c && every (fun c => is_letter c || Url.byte_in "0" "9" c) s'
  end.

(** The bytes of character data of the model: printable ASCII, tab and
    line feed, without the markup bytes. *)
Definition is_text (c : ascii) : bool :=
  (Url.byte_in " " "~" c || Wire.is_byte "009" c || Wire.is_byte "010" c)
  && negb (Wire.is_byte "<" c || Wire.is_byte ">" c || Wire.is_byte "&" c).

(** What stands between [<] and [>]. *)
Definition tag_tokens (body : string) : option (list Token) :=
  if bool_decide (body ∈ declarations) then Some []
  else
    match body with
    | String "/" name => if is_name name then Some [EndElement name] else None
    | _ =>
        if is_name body then Some [StartElement body]
        else
          match String.rev body with
          | String "/" r =>
              let name := String.rev r in
              if is_name name then Some [StartElement name; EndElement name] else None
          | _ => None
          end
    end.

Definition text_tokens (cur : string) : list Token :=
  match cur with
  | EmptyString => []
  | _ => [Text (String.rev cur)]
  end.

(** The tokens of a body; [cur] is the text or the tag being read, in
    reverse. *)
Fixpoint tokens (in_tag : bool) (cur : string) (s : string) : option (list Token) :=
  match s with
  | EmptyString => if in_tag then None else Some (text_tokens cur)
  | String c r =>
      if in_tag then
        if Wire.is_byte ">" c then
          match tag_tokens (String.rev cur), tokens false EmptyString r with
          | Some a, Some ts => Some (a ++ ts)
          | _, _ => None
          end
        else if Wire.is_byte "<" c then None
        else tokens true (String c cur) r
      else if Wire.is_byte "<" c then
        match tokens true EmptyString r with
        | Some ts => Some (text_tokens cur ++ ts)
        | None => None
        end
      else if is_text c then tokens false (String c cur) r
      else None
  end.

(** The first element of the token stream, with the elements still open
    and what each holds so far on [stack]; what precedes it is passed
    over and what follows it is never read. *)
Fixpoint build (ts : list Token) (stack : list (string * list Node)) : option Node :=
  match ts with
  | [] => None
  | StartElement name :: ts' => build ts' ((name, []) :: stack)
  | Text data :: ts' =>
      match stack with
      | [] => build ts' []
      | (name, children) :: stack' =>
          build ts' ((name, children ++ [CharData data]) :: stack')
      end
  | EndElement name :: ts' =>
      match stack with
      | [] => None
      | (open, children) :: stack' =>
          if decide (open = name) then
            match stack' with
            | [] => Some (Element open children)
            | (name', children') :: stack'' =>
                build ts' ((name', children' ++ [Element open children]) :: stack'')
            end
          else None
      end
  end.

Definition parse (b : string) : option Node :=
  match tokens false EmptyString b with
  | Some ts => build ts []
  | None => None
  end.

(** A value of a Go type: a struct is kept as the fields that have been
    set, by Go field name; the others hold their zero value. *)
Inductive Value :=
| Vstring (s : string)
| Vslice (elems : list Value)
| Vstruct (fields : list (string * Value)).

Fixpoint get (name : string) (fields : list (string * Value)) : option Value :=
  match fields with
  | [] => None
  | (k, v) :: rest => if decide (k = name) then Some v else get name rest
  end.

Fixpoint set (name : string) (v : Value) (fields : list (string * Value))
    : list (string * Value) :=
  match fields with
  | [] => [(name, v)]
  | (k, w) :: rest =>
      if decide (k = name) then (k, v) :: rest else (k, w) :: set name v rest
  end.

Definition elems_of (v : option Value) : list Value :=
  match v with
  | Some (Vslice l) => l
  | _ => []
  end.

Definition fields_of (v : option Value) : list (string * Value) :=
  match v with
  | Some (Vstruct l) => l
  | _ => []
  end.

(** What [structFieldInfo] makes of a field and its [xml] tag: the path of
    parent elements, the element name and the field. *)
Record fieldInfo := mkFieldInfo {
  parents : list string;
  name : string;
  goname : string;
  typ : gotype
}.

Definition structFieldInfo (f : field) : fieldInfo :=
  if decide (ftag f = EmptyString) then mkFieldInfo [] (fname f) (fname f) (ftype f)
  else
    let parents := Url.Split (ftag f) ">" in
    let parents :=
      match parents with
      | EmptyString :: rest => fname f :: rest
      | _ => parents
      end in
    mkFieldInfo (removelast parents) (List.last parents EmptyString) (fname f) (ftype f).

Definition getTypeInfo (struct_name : string) : list fieldInfo :=
  map structFieldInfo (struct_fields struct_name).

Inductive Match :=
| Perfect (f : fieldInfo)
| Prefix (parents : list string)
| NoBusiness.

(** The loop over the fields at the head of [unmarshalPath]: the first
    field whose path continues [parents] and that the element either is or
    leads to. *)
Fixpoint findField (fields : list fieldInfo) (path : list string) (local : string) : Match :=
  match fields with
  | [] => NoBusiness
  | f :: rest =>
      if negb (bool_decide (take (length path) (parents f) = path)) then
        findField rest path local
      else if bool_decide (length (parents f) = length path) && bool_decide (name f = local)
      then Perfect f
      else if bool_decide (length path < length (parents f))
              && bool_decide (parents f !! length path = Some local)
      then Prefix (take (S (length path)) (parents f))
      else findField rest path local
  end.

(** The character data directly in an element: what a string field gets. *)
Definition chardata (children : list Node) : string :=
  foldr (fun c acc => match c with CharData d => d +:+ acc | Element _ _ => acc end)
        EmptyString children.

(** [unmarshalPath] on the element [start] met while the struct
    [struct_name], with the fields [sv], is being filled below the parent
    path [path]; an element no field has business with is skipped. *)
Fixpoint unmarshalPath (struct_name : string) (sv : list (string * Value))
    (path : list string) (start : Node) {struct start} : option (list (string * Value)) :=
  match start with
  | CharData _ => Some sv
  | Element local children =>
      let into :=
        fix into (struct_name : string) (sv : list (string * Value)) (path : list string)
                 (cs : list Node) {struct cs} : option (list (string * Value)) :=
          match cs with
          | [] => Some sv
          | c :: cs' =>
              match unmarshalPath struct_name sv path c with
              | Some sv' => into struct_name sv' path cs'
              | None => None
              end
          end in
      match findField (getTypeInfo struct_name) path local with
      | Perfect f =>
          match typ f with
          | Tstring => Some (set (goname f) (Vstring (chardata children)) sv)
          | Tslice Tstring =>
              Some (set (goname f)
                      (Vslice (elems_of (get (goname f) sv) ++ [Vstring (chardata children)]))
                      sv)
          | Tslice (Tstruct s) =>
              match into s [] [] children with
              | Some ev =>
                  Some (set (goname f)
                          (Vslice (elems_of (get (goname f) sv) ++ [Vstruct ev])) sv)
              | None => None
              end
          | Tstruct s =>
              match into s (fields_of (get (goname f) sv)) [] children with
              | Some ev => Some (set (goname f) (Vstruct ev) sv)
              | None => None
              end
          | _ => None
          end
      | Prefix path' => into struct_name sv path' children
      | NoBusiness => Some sv
      end
  end.

(** The children of an element decoded one after the other. *)
Fixpoint unmarshalChildren (struct_name : string) (sv : list (string * Value))
    (path : list string) (cs : list Node) : option (list (string * Value)) :=
  match cs with
  | [] => Some sv
  | c :: cs' =>
      match unmarshalPath struct_name sv path c with
      | Some sv' => unmarshalChildren struct_name sv' path cs'
      | None => None
      end
  end.

(** [xml.Unmarshal(b, &v)] for [v] a struct: the first element of the
    body, whatever its name, is decoded into it. *)
Definition Unmarshal (b : string) (struct_name : string) (sv : list (string * Value))
    : option (list (string * Value)) :=
  match parse b with
  | Some (Element _ children) => unmarshalChildren struct_name sv [] children
  | _ => None
  end.

(** [Response] and [SimpleDBError] as values and back. *)
Definition string_of (v : option Value) : string :=
  match v with
  | Some (Vstring s) => s
  | _ => EmptyString
  end.

Definition of_SimpleDBError (e : SimpleDBError) : Value :=
  Vstruct [("Code", Vstring (Code e)); ("Message", Vstring (Message e));
           ("RequestId", Vstring (RequestId e))].

Definition to_SimpleDBError (v : Value) : SimpleDBError :=
  let fs := fields_of (Some v) in
  mkSimpleDBError (string_of (get "Code" fs)) (string_of (get "Message" fs))
    (string_of (get "RequestId" fs)).

Definition of_Response (v : Response) : list (string * Value) :=
  [("Errors", Vslice (map of_SimpleDBError (Errors v)));
   ("RequestId", Vstring (Response_RequestId v))].

Definition to_Response (fs : list (string * Value)) : Response :=
  mkResponse (map to_SimpleDBError (elems_of (get "Errors" fs)))
    (string_of (get "RequestId" fs)).

(** [xml.Unmarshal(b, &v)] for [v] a [*Response]. *)
Definition Unmarshal_Response (b : string) (v : Response) : option (Response * option error) :=
  match Unmarshal b "Response" (of_Response v) with
  | Some fs => Some (to_Response fs, None)
  | None => None
  end.

End Xml.

(** ** Error envelopes as the service sends them *)

Module Envelope.

Import Sdb Xml.

(** One error of the service: its code, its message and its box usage. *)
Definition error_node (e : string * string * string) : Node :=
  Element "Error"
    [Element "Code" [CharData e.1.1]; Element "Message" [CharData e.1.2];
     Element "BoxUsage" [CharData e.2]].

(** The envelope with the errors [errs] and the request id [rid]. *)
Definition document (errs : list (string * string * string)) (rid : string) : Node :=
  Element "Response"
    [Element "Errors" (map error_node errs); Element "RequestID" [CharData rid]].

(** The code and the message of the last error, empty when there is none. *)
Definition last_code (errs : list (string * string * string)) : string :=
  from_option (fun e => e.1.1) EmptyString (last errs).
Definition last_message (errs : list (string * string * string)) : string :=
  from_option (fun e => e.1.2) EmptyString (last errs).

(** The decoder of the world is [encoding/xml] on error envelopes, where
    the model knows what that gives. *)
Definition decodes_by_tags (env : Env) : Prop :=
  ∀ b v r, Unmarshal_Response b v = Some r → xml_Unmarshal env TResponse b v = r.

(** A service that answers every request with the status and body given;
    envelopes are decoded by [Unmarshal_Response]. *)
Definition service (code : Z) (status : string) (body : string) : Env :=
  mkEnv (fun _ _ _ => inl (mkHttpResponse code status (inl body)))
        (fun T => match T return string -> target T -> target T * option error with
                  | TResponse => fun b v =>
                      default (v, Some (libraryError "encoding/xml" "syntax error"))
                        (Unmarshal_Response b v)
                  | _ => fun _ v => (v, None)
                  end).

Definition one_error : string :=
  "<?xml version=" +:+ quote +:+ "1.0" +:+ quote +:+ "?>" +:+ LF
  +:+ "<Response><Errors><Error><Code>InvalidParameterValue</Code>"
  +:+ "<Message>Value () for parameter DomainName is invalid. </Message>"
  +:+ "<BoxUsage>0.0055590278</BoxUsage></Error></Errors>"
  +:+ "<RequestID>b1e8f1f7</RequestID></Response>".

Definition two_errors : string :=
  "<?xml version=" +:+ quote +:+ "1.0" +:+ quote +:+ "?>" +:+ LF
  +:+ "<Response><Errors><Error><Code>InvalidParameterValue</Code>"
  +:+ "<Message>Value () for parameter DomainName is invalid. </Message>"
  +:+ "<BoxUsage>0.0055590278</BoxUsage></Error>"
  +:+ "<Error><Code>MissingParameter</Code>"
  +:+ "<Message>The request must contain the parameter ItemName</Message>"
  +:+ "<BoxUsage>0.0000219907</BoxUsage></Error></Errors>"
  +:+ "<RequestID>b1e8f1f7</RequestID></Response>".

End Envelope.

(** * Properties *)

Example QueryEscape_ex :
  Url.QueryEscape "a b+c=d&e~f/g" = "a+b%2Bc%3Dd%26e~f%2Fg".
Proof. reflexivity. Qed.

Example Encode_ex :
  Url.Encode (Url.Add "b" "2 3" (Url.Add "a" "x" (Url.Add "b" "1" ∅)))
  = "a=x&b=1&b=2+3".
Proof. vm_compute. reflexivity. Qed.

Example Replace_ex :
  Strings.Replace "a+b++c" "+" "%20" = "a%20b%20%20c".
Proof. reflexivity. Qed.

Example sha256_abc :
  Sample.hex (Sha256.sum (bytes_of "abc"))
  = "ba7816bf8f01cfea414140de5dae2223b00361a396177a9cb410ff61f20015ad".
Proof. vm_compute. reflexivity. Qed.

Example sha256_empty :
  Sample.hex (Sha256.sum [])
  = "e3b0c44298fc1c149afbf4c8996fb92427ae41e4649b934ca495991b7852b855".
Proof. vm_compute. reflexivity. Qed.

Example sha256_two_blocks :
  Sample.hex (Sha256.sum (bytes_of "abcdbcdecdefdefgefghfghighijhijkijkljklmklmnlmnomnopnopq"))
  = "248d6a61d20638b8e5c026930c3e6039a33ce45964ff2167f6ecedd419db06c1".
Proof. vm_compute. reflexivity. Qed.

Example hmac_rfc4231_2 :
  Sample.hex (Hmac.sum (bytes_of "Jefe") (bytes_of "what do ya want for nothing?"))
  = "5bdcc146bf60754e6a042426089575c75a003f089d2739839dec58b964ec3843".
Proof. vm_compute. reflexivity. Qed.

Example hmac_rfc4231_6 :
  Sample.hex (Hmac.sum (replicate 131 170%N)
         (bytes_of "Test Using Larger Than Block-Size Key - Hash Key First"))
  = "60e431591ee0b67f0d8a26aacbf5b77f8e0bc6213728c5140546040f0ee37f54".
Proof. vm_compute. reflexivity. Qed.

Example base64_ex :
  map (fun s => Base64.EncodeToString (bytes_of s)) ["foobar"; "fooba"; "foob"; ""]
  = ["Zm9vYmFy"; "Zm9vYmE="; "Zm9vYg=="; ""].
Proof. vm_compute. reflexivity. Qed.

Example ParseQuery_ex :
  Url.ParseQuery true "a=x&b=1&b=2+3%2b&&c" 
  = (Url.Add "c" "" (Url.Add "b" "2 3+" (Url.Add "b" "1" (Url.Add "a" "x" ∅))), false).
Proof. vm_compute. reflexivity. Qed.

Example ParseQuery_bad :
  snd (Url.ParseQuery true "a=%zz") = true.
Proof. vm_compute. reflexivity. Qed.

Example Format_ex :
  map (fun u => Time.Format (Time.mkTime u 0) Time.dateFormat)
      [0; 1000000000; 951782400; 951868799; 1394183101; -1; 253402300799; 1709251199]%Z
  = ["1970-01-01T00:00:00+00:00"; "2001-09-09T01:46:40+00:00";
     "2000-02-29T00:00:00+00:00"; "2000-02-29T23:59:59+00:00";
     "2014-03-07T09:05:01+00:00"; "1969-12-31T23:59:59+00:00";
     "9999-12-31T23:59:59+00:00"; "2024-02-29T23:59:59+00:00"].
Proof. vm_compute. reflexivity. Qed.

(** ** Items and attributes *)

Section RemoveAttribute.

Import Sdb Wire.

Lemma RemoveAttribute_loop a attrs kept removed :
  foldl (fun '(kept, removedAttr) attr =>
           if bool_decide (Name attr ≠ Name a) && bool_decide (Value attr ≠ Value a)
           then (kept ++ [attr], removedAttr)
           else (kept, attr))
        (kept, removed) attrs
  = (kept ++ filter (survives a) attrs,
     default removed (last (filter (fun attr => ¬ survives a attr) attrs))).
Proof.
  revert kept removed.
  induction attrs as [|attr attrs IH]; intros kept removed; simpl.
  - by rewrite app_nil_r.
  - destruct (decide (survives a attr)) as [Hs|Hs].
    + pose proof Hs as [Hn Hv].
      rewrite (bool_decide_eq_true_2 _ Hn), (bool_decide_eq_true_2 _ Hv). simpl.
      rewrite IH, filter_cons_True, filter_cons_False by tauto.
      by rewrite <- app_assoc.
    + assert (bool_decide (Name attr ≠ Name a) && bool_decide (Value attr ≠ Value a) = false)
        as ->.
      { apply andb_false_iff. unfold survives in Hs.
        destruct (decide (Name attr ≠ Name a)) as [Hn|Hn].
        - right. apply bool_decide_eq_false_2. tauto.
        - left. by apply bool_decide_eq_false_2. }
      rewrite IH, filter_cons_False, filter_cons_True by tauto.
      f_equal. rewrite last_cons.
      by destruct (last (filter (λ attr0, ¬ survives a attr0) attrs)).
Qed.

(** C10. [RemoveAttribute] keeps an attribute only when both its name and
    its value differ from the target's: the item is left with exactly those
    attributes, in order; every attribute that shares the name, or the
    value, with the target is gone; and the result is the last attribute
    removed, or the zero attribute when none was. *)
Theorem RemoveAttribute_spec (a : Attribute) (i : Item) :
  let '(removed, i') := RemoveAttribute a i in
  Item_Name i' = Item_Name i
  ∧ Item_Attributes i' = filter (survives a) (Item_Attributes i)
  ∧ (∀ attr, attr ∈ Item_Attributes i →
       (Name attr = Name a ∨ Value attr = Value a) → attr ∉ Item_Attributes i')
  ∧ (∀ attr, attr ∈ Item_Attributes i' ↔
       attr ∈ Item_Attributes i ∧ Name attr ≠ Name a ∧ Value attr ≠ Value a)
  ∧ removed = default (mkAttribute "" "" false)
                (last (filter (fun attr => ¬ survives a attr) (Item_Attributes i))).
Proof.
  unfold RemoveAttribute. rewrite RemoveAttribute_loop. simpl.
  split; [done|]. split; [done|]. split; [|split; [|done]].
  - intros attr _ Hor Hin. apply list_elem_of_filter in Hin as [[Hn Hv] _]. tauto.
  - intros attr. rewrite list_elem_of_filter. unfold survives. tauto.
Qed.

End RemoveAttribute.

Example RemoveAttribute_ex :
  Sdb.RemoveAttribute (Sdb.mkAttribute "color" "red" false)
    (Sdb.mkItem "i" [Sdb.mkAttribute "color" "blue" false;
                     Sdb.mkAttribute "size" "red" true;
                     Sdb.mkAttribute "size" "big" false])
  = (Sdb.mkAttribute "size" "red" true, Sdb.mkItem "i" [Sdb.mkAttribute "size" "big" false]).
Proof. reflexivity. Qed.

(** ** Transport and decoding of errors *)

Section Post.

Import Sdb.

Variable env : Env.

(** What [post] returns when the status is not 200. *)
Lemma post_not_200 T (v : target T) sdb r :
  let sent := signRequest sdb in
  http_Post env ("https://" +:+ region sent) contentType (RawRequest sent) = inl r →
  StatusCode r ≠ 200%Z →
  post env T v sdb
  = match Body r with
    | inr err => (sent, v, Some err)
    | inl b =>
        match xml_Unmarshal env TResponse b (zero TResponse) with
        | (_, Some e) => (set_RawResponse b sent, v, Some e)
        | (v', None) =>
            (set_RawResponse b sent, v,
             Some match Errors v' with
                  | e0 :: _ => SimpleDBError_error
                                 (mkSimpleDBError (Code e0) (Message e0) (RequestId e0))
                  | [] => errorString (Status r)
                  end)
        end
    end.
Proof.
  intros sent Hpost Hne. unfold post. fold sent. rewrite Hpost.
  rewrite decide_True by done. unfold unmarshal.
  destruct (Body r) as [b|err]; [|done].
  destruct (xml_Unmarshal env TResponse b (zero TResponse)) as [v' [e|]]; [done|].
  by destruct (Errors v').
Qed.

(** Every action method ends in [post] on the parameters it has set. *)
Lemma run_post now c sdb :
  run env now c sdb
  = let '(s, _, e) := post env (result_shape (call_action c))
                        (zero (result_shape (call_action c))) (call_p now c sdb) in
    (s, e).
Proof. by destruct c. Qed.

End Post.

Section ErrorPaths.

Import Sdb.

(** What [post] makes of the [Response] the decoder returns: the
    structured error of the head of its [Errors] when there is one, and a
    plain error carrying the HTTP status text when [Errors] is empty. *)
Lemma post_error_envelope env now c sdb r b v :
  let sent := signRequest (call_p now c sdb) in
  http_Post env ("https://" +:+ region sent) contentType (RawRequest sent) = inl r →
  StatusCode r ≠ 200%Z →
  Body r = inl b →
  xml_Unmarshal env TResponse b (zero TResponse) = (v, None) →
  (∀ e0 rest, Errors v = e0 :: rest →
     (run env now c sdb).2
     = Some (SimpleDBError_error (mkSimpleDBError (Code e0) (Message e0) (RequestId e0))))
  ∧ (Errors v = [] → (run env now c sdb).2 = Some (errorString (Status r))).
Proof.
  intros sent Hpost Hne Hb Hx. rewrite run_post.
  rewrite (post_not_200 env _ _ _ r Hpost Hne), Hb, Hx.
  split.
  - intros e0 rest ->. done.
  - intros ->. done.
Qed.

(** C4. A response with a status other than 200 whose body does not decode
    as an error envelope makes the call return the decoder's error; neither
    the status code nor the status text has a part in the result. *)
Theorem post_decode_failure env now c sdb r b v e :
  let sent := signRequest (call_p now c sdb) in
  http_Post env ("https://" +:+ region sent) contentType (RawRequest sent) = inl r →
  StatusCode r ≠ 200%Z →
  Body r = inl b →
  xml_Unmarshal env TResponse b (zero TResponse) = (v, Some e) →
  (run env now c sdb).2 = Some e
  ∧ ∀ env' r',
      http_Post env' ("https://" +:+ region sent) contentType (RawRequest sent) = inl r' →
      StatusCode r' ≠ 200%Z →
      Body r' = inl b →
      xml_Unmarshal env' TResponse b (zero TResponse)
      = xml_Unmarshal env TResponse b (zero TResponse) →
      (run env' now c sdb).2 = Some e.
Proof.
  intros sent Hpost Hne Hb Hx. split.
  - rewrite run_post.
    by rewrite (post_not_200 env _ _ _ r Hpost Hne), Hb, Hx.
  - intros env' r' Hpost' Hne' Hb' Hx'. rewrite run_post.
    by rewrite (post_not_200 env' _ _ _ r' Hpost' Hne'), Hb', Hx', Hx.
Qed.

End ErrorPaths.

Lemma post_decode_failure_witness :
  (Sdb.run (Sample.world 503 "503 Service Unavailable" "<html>"
              (Sdb.zero Sdb.TResponse, Some Sample.xmlError))
           Sample.now (Sdb.CallSelect "select * from d") Sample.client).2
  = Some Sample.xmlError.
Proof.
  refine (proj1 (post_decode_failure
            (Sample.world 503 "503 Service Unavailable" "<html>"
               (Sdb.zero Sdb.TResponse, Some Sample.xmlError))
            Sample.now (Sdb.CallSelect "select * from d") Sample.client
            (Sdb.mkHttpResponse 503 "503 Service Unavailable" (inl "<html>")) "<html>"
            (Sdb.zero Sdb.TResponse) Sample.xmlError
            _ _ _ _)).
  - reflexivity.
  - simpl. lia.
  - reflexivity.
  - reflexivity.
Defined.

Example post_empty_envelope :
  (Sdb.run (Sample.world 500 "500 Internal Server Error" "<Response/>"
              (Sdb.mkResponse [] "", None))
           Sample.now Sdb.CallListDomains Sample.client).2
  = Some (Sdb.errorString "500 Internal Server Error").
Proof. vm_compute. reflexivity. Qed.

(** ** The parameter builder *)

Section Builder.

Import Sdb Wire.

Lemma Add_fresh k x (v : Url.Values) : v !! k = None → Url.Add k x v = <[k := [x]]> v.
Proof. intros H. unfold Url.Add, Url.get. by rewrite H. Qed.

Lemma reset_p now sdb :
  p (resetParameters now sdb) = seed (accessKey sdb) (Time.Format now Time.dateFormat).
Proof.
  unfold resetParameters, p_Add, seed. simpl.
  rewrite (Add_fresh "AWSAccessKeyId") by done.
  rewrite (Add_fresh "SignatureMethod") by done.
  rewrite (Add_fresh "SignatureVersion") by done.
  rewrite (Add_fresh "Version") by done.
  by rewrite (Add_fresh "Timestamp").
Qed.

(** Nothing of the client but its keys and region passes through a reset. *)
Lemma reset_forgets now sdb :
  resetParameters now sdb
  = resetParameters now (mkSimpleDB "" "" ∅ (accessKey sdb) (secretKey sdb) (region sdb)).
Proof. done. Qed.

Lemma p_AddAll_app fs gs sdb : p_AddAll (fs ++ gs) sdb = p_AddAll gs (p_AddAll fs sdb).
Proof. apply foldl_app. Qed.

Lemma p_AddAll_p fs sdb : p (p_AddAll fs sdb) = AddAll fs (p sdb).
Proof.
  revert sdb. induction fs as [|kv fs IH]; intros sdb; [done|].
  simpl. by rewrite IH.
Qed.

Lemma range_fields {A B} (g : A → B) (f : nat → B → list (string * string))
    (body : nat → A → SimpleDB → SimpleDB) i l sdb :
  (∀ j a s, body j a s = p_AddAll (f j (g a)) s) →
  range body i l sdb = p_AddAll (fields_from f i (map g l)) sdb.
Proof.
  intros Hbody. revert i sdb.
  induction l as [|a l IH]; intros i sdb; [done|].
  simpl. by rewrite IH, Hbody, p_AddAll_app.
Qed.

(** Every action method is a reset followed by the fields of the action. *)
Lemma call_p_fields now c sdb :
  call_p now c sdb = p_AddAll (call_fields c) (resetParameters now sdb).
Proof.
  destruct c as [| | | |domain i|domain items| | |]; try done.
  - unfold call_p, PutAttributes_p, call_fields.
    rewrite p_AddAll_app. unfold wire_item; simpl fst; simpl snd.
    by apply range_fields.
  - unfold call_p, BatchPutAttributes_p, call_fields.
    rewrite p_AddAll_app.
    apply range_fields. intros j it s. unfold batch_item, wire_item; simpl fst; simpl snd.
    by apply range_fields.
Qed.

End Builder.

(** ** The timestamp *)

Section Timestamp.

Import Wire.
Local Open Scope Z_scope.

Lemma civil_bounds days :
  let '(_, m, d) := Time.civil days in 1 <= m <= 12 ∧ 1 <= d <= 31.
Proof.
  unfold Time.civil. cbv zeta.
  set (z := days + 719468).
  set (era := z / 146097).
  set (doe := z - era * 146097).
  assert (Hdoe : 0 <= doe <= 146096) by (unfold doe, era; Z.div_mod_to_equations; lia).
  clearbody doe. clear era z days.
  set (yoe := (doe - doe / 1460 + doe / 36524 - doe / 146096) / 365).
  set (doy := doe - (365 * yoe + yoe / 4 - yoe / 100)).
  assert (Hdoy : 0 <= doy <= 365) by (unfold doy, yoe; Z.div_mod_to_equations; lia).
  clearbody doy.
  set (mp := (5 * doy + 2) / 153).
  assert (Hmp : 0 <= mp <= 11) by (unfold mp; Z.div_mod_to_equations; lia).
  assert (Hd : 1 <= doy - (153 * mp + 2) / 5 + 1 <= 31)
    by (unfold mp; Z.div_mod_to_equations; lia).
  destruct (mp <? 10) eqn:E; [apply Z.ltb_lt in E | apply Z.ltb_ge in E]; lia.
Qed.

Lemma Month_bounds t : 1 <= Time.Month t <= 12.
Proof.
  unfold Time.Month. pose proof (civil_bounds (Time.Unix t / 86400)) as H.
  destruct (Time.civil _) as [[y m] d]. simpl. lia.
Qed.

Lemma Day_bounds t : 1 <= Time.Day t <= 31.
Proof.
  unfold Time.Day. pose proof (civil_bounds (Time.Unix t / 86400)) as H.
  destruct (Time.civil _) as [[y m] d]. simpl. lia.
Qed.

Lemma Hour_bounds t : 0 <= Time.Hour t <= 23.
Proof. unfold Time.Hour. Z.div_mod_to_equations. lia. Qed.

Lemma Minute_bounds t : 0 <= Time.Minute t <= 59.
Proof. unfold Time.Minute. Z.div_mod_to_equations. lia. Qed.

Lemma Second_bounds t : 0 <= Time.Second t <= 59.
Proof. unfold Time.Second. Z.div_mod_to_equations. lia. Qed.

Lemma is_digit_digit k : 0 <= k <= 9 → is_digit (Time.digit k) = true.
Proof.
  intros H.
  assert (k = 0 ∨ k = 1 ∨ k = 2 ∨ k = 3 ∨ k = 4 ∨ k = 5 ∨ k = 6 ∨ k = 7 ∨ k = 8 ∨ k = 9)
    as Hk by lia.
  by repeat (destruct Hk as [->|Hk]; [done|]); subst.
Qed.

Lemma appendInt_two n : 0 <= n < 100 → Time.appendInt n 2 = two n.
Proof.
  intros H. unfold Time.appendInt.
  rewrite Z.abs_eq by lia.
  replace (n <? 0) with false by (symmetry; apply Z.ltb_ge; lia).
  replace (n <? 100) with true by (symmetry; apply Z.ltb_lt; lia).
  done.
Qed.

Lemma appendInt_four n : 0 <= n < 10000 → Time.appendInt n 4 = four n.
Proof.
  intros H. unfold Time.appendInt.
  rewrite Z.abs_eq by lia.
  replace (n <? 0) with false by (symmetry; apply Z.ltb_ge; lia).
  replace (n <? 10000) with true by (symmetry; apply Z.ltb_lt; lia).
  done.
Qed.

(** The timestamp of a clock reading, field by field. *)
Lemma Format_dateFormat t :
  0 <= Time.Year t <= 9999 →
  Time.Format t Time.dateFormat
  = four (Time.Year t) +:+ "-" +:+ two (Time.Month t) +:+ "-" +:+ two (Time.Day t)
      +:+ "T" +:+ two (Time.Hour t) +:+ ":" +:+ two (Time.Minute t) +:+ ":"
      +:+ two (Time.Second t) +:+ "+00:00".
Proof.
  intros Hy. unfold Time.Format, Time.dateFormat, foldr, Time.formatChunk.
  pose proof (Month_bounds t). pose proof (Day_bounds t). pose proof (Hour_bounds t).
  pose proof (Minute_bounds t). pose proof (Second_bounds t).
  rewrite appendInt_four by lia.
  rewrite !appendInt_two by lia.
  done.
Qed.

Lemma Format_is_timestamp t :
  0 <= Time.Year t <= 9999 → is_timestamp (Time.Format t Time.dateFormat) = true.
Proof.
  intros Hy. rewrite Format_dateFormat by done.
  pose proof (Month_bounds t). pose proof (Day_bounds t). pose proof (Hour_bounds t).
  pose proof (Minute_bounds t). pose proof (Second_bounds t).
  unfold is_timestamp, timestamp_pattern, four, two. simpl.
  rewrite !is_digit_digit; [done|..]; Z.div_mod_to_equations; lia.
Qed.

End Timestamp.

Section Actions.

Import Sdb Wire.

(** C6. Every action method starts from the reset: whatever the client held
    before, the parameters are the five fixed fields, with the client's
    access key and the timestamp of the clock reading of this call, followed
    by the fields of the action; nothing of an earlier call is left.  For a
    clock reading in the years 0 to 9999 the timestamp has the form
    [YYYY-MM-DDThh:mm:ss±hh:mm]. *)
Theorem action_starts_from_reset now c sdb :
  let timestamp := Time.Format now Time.dateFormat in
  p (resetParameters now sdb) = seed (accessKey sdb) timestamp
  ∧ RawRequest (resetParameters now sdb) = "" ∧ RawResponse (resetParameters now sdb) = ""
  ∧ p (call_p now c sdb) = AddAll (call_fields c) (seed (accessKey sdb) timestamp)
  ∧ (∀ prev, accessKey prev = accessKey sdb → p (call_p now c prev) = p (call_p now c sdb))
  ∧ ((0 <= Time.Year now <= 9999)%Z →
     is_timestamp timestamp = true
     ∧ timestamp
       = four (Time.Year now) +:+ "-" +:+ two (Time.Month now) +:+ "-" +:+ two (Time.Day now)
           +:+ "T" +:+ two (Time.Hour now) +:+ ":" +:+ two (Time.Minute now) +:+ ":"
           +:+ two (Time.Second now) +:+ "+00:00").
Proof.
  intros timestamp. split; [apply reset_p|]. split; [done|]. split; [done|].
  split; [|split].
  - by rewrite call_p_fields, p_AddAll_p, reset_p.
  - intros prev Hk. by rewrite !call_p_fields, !p_AddAll_p, !reset_p, Hk.
  - intros Hy. split; [by apply Format_is_timestamp | by apply Format_dateFormat].
Qed.

(** C8. The parameters of put-attributes and batch-put-attributes are the
    fixed fields, the action and the domain, and then only [ItemName],
    [Name] and [Value] fields taken from the items' names and their
    attributes' names and values; two calls whose items differ only in the
    [Replace] flags build the same parameters and behave alike. *)
Theorem Replace_not_serialized env now domain sdb (i i' : Item) (items items' : list Item) :
  wire_item i = wire_item i' →
  map wire_item items = map wire_item items' →
  p (PutAttributes_p now domain i sdb)
  = AddAll ([("Action", "PutAttributes"); ("DomainName", domain); ("ItemName", Item_Name i)]
              ++ fields_from put_attribute 0 (map name_value (Item_Attributes i)))
      (seed (accessKey sdb) (Time.Format now Time.dateFormat))
  ∧ p (BatchPutAttributes_p now domain items sdb)
    = AddAll ([("Action", "BatchPutAttributes"); ("DomainName", domain)]
                ++ fields_from batch_item 0 (map wire_item items))
        (seed (accessKey sdb) (Time.Format now Time.dateFormat))
  ∧ PutAttributes_p now domain i sdb = PutAttributes_p now domain i' sdb
  ∧ BatchPutAttributes_p now domain items sdb = BatchPutAttributes_p now domain items' sdb
  ∧ PutAttributes env now domain i sdb = PutAttributes env now domain i' sdb
  ∧ BatchPutAttributes env now domain items sdb = BatchPutAttributes env now domain items' sdb.
Proof.
  intros Hi Hitems.
  pose proof (call_p_fields now (CallPutAttributes domain i) sdb) as Hp.
  pose proof (call_p_fields now (CallPutAttributes domain i') sdb) as Hp'.
  pose proof (call_p_fields now (CallBatchPutAttributes domain items) sdb) as Hb.
  pose proof (call_p_fields now (CallBatchPutAttributes domain items') sdb) as Hb'.
  simpl call_p in *. unfold call_fields in *.
  assert (PutAttributes_p now domain i sdb = PutAttributes_p now domain i' sdb) as Eput
    by (by rewrite Hp, Hp', Hi).
  assert (BatchPutAttributes_p now domain items sdb
          = BatchPutAttributes_p now domain items' sdb) as Ebatch
    by (by rewrite Hb, Hb', Hitems).
  split; [by rewrite Hp, p_AddAll_p, reset_p|].
  split; [by rewrite Hb, p_AddAll_p, reset_p|].
  split; [done|]. split; [done|].
  unfold PutAttributes, BatchPutAttributes. by rewrite Eput, Ebatch.
Qed.

End Actions.

Lemma action_starts_from_reset_witness :
  Wire.is_timestamp (Time.Format Sample.now Time.dateFormat) = true.
Proof.
  refine (proj1 (proj2 (proj2 (proj2 (proj2 (proj2
    (action_starts_from_reset Sample.now (Sdb.CallCreateDomain "d") Sample.client))))) _)).
  vm_compute. split; discriminate.
Defined.

Lemma Replace_not_serialized_witness :
  Sdb.PutAttributes_p Sample.now "d" (Sample.item false) Sample.client
  = Sdb.PutAttributes_p Sample.now "d" (Sample.item true) Sample.client.
Proof.
  refine (proj1 (proj2 (proj2
    (Replace_not_serialized
       (Sample.world 200 "200 OK" "" (Sdb.zero Sdb.TResponse, None)) Sample.now "d"
       Sample.client (Sample.item false) (Sample.item true)
       [Sample.item false] [Sample.item true] _ _)))).
  - reflexivity.
  - reflexivity.
Defined.

Example reset_after_call :
  Sdb.p (Sdb.resetParameters Sample.now
           (Sdb.CreateDomain_p Sample.now "old" Sample.client)) !! "DomainName" = None.
Proof. vm_compute. reflexivity. Qed.

Example PutAttributes_fields :
  Strings.Replace
    (Url.Encode (Sdb.p (Sdb.PutAttributes_p Sample.now "d" (Sample.item true) Sample.client)))
    "+" "%20"
  = "AWSAccessKeyId=AKIDEXAMPLE&Action=PutAttributes&Attribute.1.Name=color&Attribute.1.Value=red&Attribute.2.Name=size&Attribute.2.Value=big&DomainName=d&ItemName=item1&SignatureMethod=HmacSHA256&SignatureVersion=2&Timestamp=2014-03-07T09%3A05%3A01%2B00%3A00&Version=2009-04-15".
Proof. vm_compute. reflexivity. Qed.

(** ** Decimal numbers *)

Section Decimal.

Lemma FormatInt_inj i j : Strconv.FormatInt i = Strconv.FormatInt j → i = j.
Proof.
  unfold Strconv.FormatInt. intros H.
  assert (Hnn : ∀ z, Z.to_int z ≠ Decimal.Pos Decimal.Nil ∧ Z.to_int z ≠ Decimal.Neg Decimal.Nil).
  { intros [|q|q]; simpl; split; try discriminate;
      intros [= Hq]; by apply DecimalPos.Unsigned.to_uint_nonnil in Hq. }
  assert (Some (Z.to_int i) = Some (Z.to_int j)) as [= Hij].
  { rewrite <- (NilZero.isi (Z.to_int i)), <- (NilZero.isi (Z.to_int j)) by apply Hnn.
    by rewrite H. }
  by rewrite <- (DecimalZ.of_to i), <- (DecimalZ.of_to j), Hij.
Qed.

Lemma string_of_uint_no_dot d :
  Strings.ContainsByte (NilEmpty.string_of_uint d) "." = false.
Proof. induction d; simpl; try done. Qed.

Lemma FormatInt_no_dot i : Strings.ContainsByte (Strconv.FormatInt i) "." = false.
Proof.
  unfold Strconv.FormatInt.
  destruct (Z.to_int i) as [d|d]; simpl.
  - destruct d; try done; apply (string_of_uint_no_dot (_ d)).
  - destruct d; try done; apply (string_of_uint_no_dot (_ d)).
Qed.

Lemma app_dot_inj a a' b b' :
  Strings.ContainsByte a "." = false → Strings.ContainsByte a' "." = false →
  a +:+ "." +:+ b = a' +:+ "." +:+ b' → a = a' ∧ b = b'.
Proof.
  revert a'. induction a as [|c a IH]; intros [|c' a'] Ha Ha' H; simpl in *.
  - by injection H.
  - injection H as <- _. by rewrite decide_True in Ha'.
  - injection H as -> _. by rewrite decide_True in Ha.
  - injection H as -> H.
    destruct (decide (c' = "."%char)); [done|].
    destruct (IH a' Ha Ha' H) as [-> ->]. done.
Qed.

End Decimal.

(** ** The buffering log writer *)

Section LogWriter.

Import Sdb Writer.

Variable TrimSpace : string → string.

Lemma itemName_inj t t' : itemName t = itemName t' ↔ t = t'.
Proof.
  split; [|by intros ->].
  unfold itemName. intros H.
  apply app_dot_inj in H as [Hu Hn]; try apply FormatInt_no_dot.
  apply FormatInt_inj in Hu. apply FormatInt_inj in Hn.
  destruct t, t'. simpl in *. by subst.
Qed.

Lemma Write_unfold t p0 domain buf :
  Write TrimSpace t p0 (mkSDBWriter domain buf)
  = (if decide (length (buf ++ [logItem TrimSpace (t, p0)]) = 25%nat)
     then (mkSDBWriter domain [], [go_BatchPutAttributes (buf ++ [logItem TrimSpace (t, p0)])])
     else (mkSDBWriter domain (buf ++ [logItem TrimSpace (t, p0)]), []),
     Z.of_nat (String.length p0)).
Proof.
  unfold Write, logItem. simpl.
  by destruct (decide _).
Qed.

(** Below 25 items the writes only fill the buffer. *)
Lemma Writes_fill calls domain buf :
  length buf + length calls < 25 →
  Writes TrimSpace calls (mkSDBWriter domain buf)
  = (mkSDBWriter domain (buf ++ map (logItem TrimSpace) calls), []).
Proof.
  revert buf. induction calls as [|[t p0] calls IH]; intros buf Hlen; simpl.
  - by rewrite app_nil_r.
  - rewrite Write_unfold. simpl in Hlen.
    rewrite decide_False by (rewrite length_app; simpl; lia).
    rewrite IH by (rewrite length_app; simpl; lia).
    by rewrite <- app_assoc.
Qed.

(** The write that brings the buffer to 25 items flushes all of them. *)
Lemma Writes_flush calls domain buf :
  length buf + length calls = 25 → calls ≠ [] →
  Writes TrimSpace calls (mkSDBWriter domain buf)
  = (mkSDBWriter domain [],
     [go_BatchPutAttributes (buf ++ map (logItem TrimSpace) calls)]).
Proof.
  revert buf. induction calls as [|[t p0] calls IH]; intros buf Hlen Hne; [done|].
  simpl. rewrite Write_unfold. simpl in Hlen.
  destruct calls as [|c calls].
  - simpl. by rewrite decide_True by (rewrite length_app; simpl in *; lia).
  - rewrite decide_False by (rewrite length_app; simpl in *; lia).
    rewrite IH; [|rewrite length_app; simpl in *; lia|done].
    by rewrite <- app_assoc.
Qed.

(** C9, as the code has it.  The first 25 writes to a new writer start one
    flush, at the 25th write and with the 25 items in the order written;
    each item has the single attribute [msg] holding the trimmed text and
    the name made of the seconds and nanoseconds of the clock reading of its
    write; the buffer is empty afterwards, so the next write leaves a buffer
    of one item.  Two items have the same name exactly when their clock
    readings are the same, so the names are unique when the readings are. *)
Theorem Write_flushes_at_25 domain calls :
  length calls = 25 →
  let items := map (logItem TrimSpace) calls in
  Writes TrimSpace calls (NewSDBWriter domain)
  = (mkSDBWriter domain [], [go_BatchPutAttributes items])
  ∧ (∀ n, n < 25 → (Writes TrimSpace (take n calls) (NewSDBWriter domain)).2 = [])
  ∧ (∀ k c, calls !! k = Some c →
       items !! k = Some (mkItem (Strconv.FormatInt (Time.Unix c.1) +:+ "."
                                    +:+ Strconv.Itoa (Time.Nanosecond c.1))
                                 [mkAttribute "msg" (TrimSpace c.2) false]))
  ∧ (∀ t p0, Write TrimSpace t p0 (mkSDBWriter domain [])
             = (mkSDBWriter domain [logItem TrimSpace (t, p0)], [], Z.of_nat (String.length p0)))
  ∧ (∀ c c', Item_Name (logItem TrimSpace c) = Item_Name (logItem TrimSpace c') ↔ c.1 = c'.1)
  ∧ (NoDup (map fst calls) ↔ NoDup (map Item_Name items)).
Proof.
  intros Hlen items. split; [|split; [|split; [|split; [|split]]]].
  - unfold NewSDBWriter. rewrite Writes_flush; [done|simpl; lia|].
    intros ->. simpl in Hlen. lia.
  - intros n Hn. unfold NewSDBWriter.
    rewrite Writes_fill; [done|]. rewrite length_take. simpl. lia.
  - intros k c Hk. unfold items. rewrite list_lookup_fmap, Hk. done.
  - intros t p0. by rewrite Write_unfold.
  - intros c c'. simpl. apply itemName_inj.
  - unfold items. rewrite <- list_fmap_compose.
    replace (map fst calls) with (fst <$> calls) by done.
    assert (Item_Name ∘ logItem TrimSpace = itemName ∘ fst) as -> by done.
    rewrite list_fmap_compose. split.
    + apply NoDup_fmap_2. intros t t'. apply itemName_inj.
    + apply NoDup_fmap_1.
Qed.

End LogWriter.

Lemma Write_flushes_at_25_witness :
  Writer.Writes Sample.trimSpace
    (map (fun k => (Time.mkTime 1394183101 (Z.of_nat k), " line ")) (seq 0 25))
    (Writer.NewSDBWriter "log")
  = (Writer.mkSDBWriter "log" [],
     [Writer.go_BatchPutAttributes
        (map (Writer.logItem Sample.trimSpace)
           (map (fun k => (Time.mkTime 1394183101 (Z.of_nat k), " line ")) (seq 0 25)))]).
Proof.
  refine (proj1 (Write_flushes_at_25 Sample.trimSpace "log"
           (map (fun k => (Time.mkTime 1394183101 (Z.of_nat k), " line ")) (seq 0 25)) _)).
  reflexivity.
Defined.

(** Writes that read the same instant give their items the same name: the
    25 items of this flush all carry one name. *)
Lemma Write_names_not_unique :
  ∃ items,
    Writer.Writes Sample.trimSpace (replicate 25 (Sample.now, "x")) (Writer.NewSDBWriter "log")
    = (Writer.mkSDBWriter "log" [], [Writer.go_BatchPutAttributes items])
    ∧ length items = 25
    ∧ ¬ NoDup (map Sdb.Item_Name items).
Proof.
  eexists. split; [vm_compute; reflexivity|]. split; [reflexivity|].
  intros H. apply NoDup_cons in H as [Hin _]. apply Hin. left.
Qed.

Example Write_26th :
  (Writer.Writes Sample.trimSpace
     (map (fun k => (Time.mkTime 1394183101 (Z.of_nat k), " line ")) (seq 0 26))
     (Writer.NewSDBWriter "log")).1
  = Writer.mkSDBWriter "log"
      [Sdb.mkItem "1394183101.25" [Sdb.mkAttribute "msg" "line" false]].
Proof. vm_compute. reflexivity. Qed.

(** ** Strings *)

Section StringFacts.

Lemma app_cons_s c (a b : string) : String c a +:+ b = String c (a +:+ b).
Proof. done. Qed.

Lemma app_nil_l_s (s : string) : "" +:+ s = s.
Proof. done. Qed.

Lemma app_nil_r_s (s : string) : s +:+ "" = s.
Proof. induction s as [|c s IH]; [done|]. by rewrite app_cons_s, IH. Qed.

Lemma app_assoc_s (a b c : string) : (a +:+ b) +:+ c = a +:+ (b +:+ c).
Proof. induction a as [|d a IH]; [done|]. by rewrite !app_cons_s, IH. Qed.

Lemma rev_app_spec (a b : string) : String.rev_app a b = String.rev a +:+ b.
Proof.
  unfold String.rev. revert b. induction a as [|c a IH]; intros b; [done|].
  simpl. rewrite IH, (IH (String c "")), app_assoc_s. done.
Qed.

Lemma rev_cons_s c (a : string) : String.rev (String c a) = String.rev a +:+ String c "".
Proof. unfold String.rev at 1. simpl. apply rev_app_spec. Qed.

Lemma ContainsByte_app a b c :
  Strings.ContainsByte (a +:+ b) c = Strings.ContainsByte a c || Strings.ContainsByte b c.
Proof. induction a as [|d a IH]; simpl; [done|]. by destruct (decide (d = c)). Qed.

(** Replacing the one-byte string [+] is replacing every such byte. *)
Lemma Replace_plus s : Strings.Replace s "+" "%20" = Canon.plus20 s.
Proof.
  unfold Strings.Replace. simpl.
  induction s as [|c s IH]; [done|].
  simpl. destruct (decide ("+"%char = c)) as [<-|Hne].
  - rewrite IH. by destruct s.
  - rewrite decide_False by done. by rewrite IH.
Qed.

Lemma plus20_app a b : Canon.plus20 (a +:+ b) = Canon.plus20 a +:+ Canon.plus20 b.
Proof.
  induction a as [|c a IH]; [done|].
  simpl. destruct (decide (c = "+"%char)); rewrite IH; [|done].
  by rewrite !app_cons_s.
Qed.

Lemma plus20_QueryEscape s : Canon.plus20 (Url.QueryEscape s) = Canon.pctEncode s.
Proof.
  induction s as [|c s IH]; [done|].
  simpl. unfold Canon.pctByte.
  destruct (Url.shouldEscape c) eqn:Hesc.
  - destruct (decide (c = " "%char)) as [->|Hsp].
    + simpl. by rewrite IH.
    + simpl.
      assert (∀ n, (n < 16)%N → Url.upperhex n ≠ "+"%char) as Hhex.
      { intros n Hn. 
        assert (n = 0 ∨ n = 1 ∨ n = 2 ∨ n = 3 ∨ n = 4 ∨ n = 5 ∨ n = 6 ∨ n = 7 ∨ n = 8
                ∨ n = 9 ∨ n = 10 ∨ n = 11 ∨ n = 12 ∨ n = 13 ∨ n = 14 ∨ n = 15)%N
          as Hc by lia.
        by repeat (destruct Hc as [->|Hc]; [done|]); subst. }
      rewrite !decide_False; [by rewrite IH| |].
      * apply Hhex. change 15%N with (N.ones 4). rewrite N.land_ones.
        apply N.mod_lt. done.
      * apply Hhex. rewrite N.shiftr_div_pow2.
        pose proof (N_ascii_bounded c). apply N.Div0.div_lt_upper_bound. simpl. lia.
  - simpl. rewrite decide_False; [by rewrite IH|].
    intros ->. done.
Qed.

End StringFacts.

(** ** The canonical query string *)

Section Canonical.

Import Url Canon.

Lemma writePair_empty ke x : writePair ke "" x = ke +:+ "=" +:+ QueryEscape x.
Proof. done. Qed.

Lemma writePair_nonempty ke buf x :
  buf ≠ "" → writePair ke buf x = buf +:+ "&" +:+ ke +:+ "=" +:+ QueryEscape x.
Proof.
  intros Hb. unfold writePair.
  replace (0 <? String.length buf)%nat with true.
  - by rewrite app_assoc_s.
  - symmetry. apply Nat.ltb_lt. destruct buf; [done|simpl; lia].
Qed.

Lemma app_not_nil (a b : string) : b ≠ "" → a +:+ b ≠ "".
Proof. intros Hb. destruct a; [done|]. by rewrite app_cons_s. Qed.

Lemma fold_writePair_nonempty l buf :
  buf ≠ "" →
  foldl (fun buf kv => writePair (QueryEscape kv.1) buf kv.2) buf l
  = match l with
    | [] => buf
    | _ => buf +:+ "&" +:+ String.concat "&" (map escPiece l)
    end.
Proof.
  revert buf. induction l as [|kv l IH]; intros buf Hb; [done|].
  simpl foldl. rewrite writePair_nonempty by done.
  rewrite IH by (do 3 apply app_not_nil; done).
  destruct l as [|kv' l]; [done|].
  change (map escPiece (kv :: kv' :: l)) with (escPiece kv :: map escPiece (kv' :: l)).
  change (String.concat "&" (escPiece kv :: map escPiece (kv' :: l)))
    with (escPiece kv +:+ "&" +:+ String.concat "&" (map escPiece (kv' :: l))).
  unfold escPiece at 2. by rewrite !app_assoc_s.
Qed.

Lemma fold_writePair l :
  foldl (fun buf kv => writePair (QueryEscape kv.1) buf kv.2) "" l
  = String.concat "&" (map escPiece l).
Proof.
  destruct l as [|kv l]; [done|].
  simpl foldl. rewrite writePair_empty.
  rewrite fold_writePair_nonempty by (apply app_not_nil; done).
  by destruct l.
Qed.

Lemma fold_pairsOf (v : Values) keys buf :
  foldl (fun buf k => foldl (writePair (QueryEscape k)) buf (get v k)) buf keys
  = foldl (fun buf kv => writePair (QueryEscape kv.1) buf kv.2) buf (pairsOf v keys).
Proof.
  unfold pairsOf. revert buf.
  induction keys as [|k keys IH]; intros buf; [done|].
  simpl. rewrite foldl_app, IH. f_equal.
  generalize (get v k). intros vs. revert buf.
  induction vs as [|x vs IHvs]; intros buf; [done|]. simpl. by rewrite IHvs.
Qed.

Lemma sortedKeys_perm (v : Values) : sortedKeys v ≡ₚ (map_to_list v).*1.
Proof. unfold sortedKeys. apply merge_sort_Permutation. Qed.

Lemma sortedKeys_sorted (v : Values) : StronglySorted String.le (sortedKeys v).
Proof. unfold sortedKeys. apply StronglySorted_merge_sort; apply _. Qed.

Lemma sortedKeys_NoDup (v : Values) : NoDup (sortedKeys v).
Proof. rewrite sortedKeys_perm. apply NoDup_fst_map_to_list. Qed.

Lemma elem_of_sortedKeys (v : Values) k : k ∈ sortedKeys v ↔ is_Some (v !! k).
Proof.
  rewrite sortedKeys_perm, list_elem_of_fmap. split.
  - intros [[k' x] [-> Hin]]. apply elem_of_map_to_list in Hin. by exists x.
  - intros [x Hx]. exists (k, x). split; [done|]. by apply elem_of_map_to_list.
Qed.

(** What [Encode] returns: the escaped pieces in key order, joined by [&]. *)
Lemma Encode_pieces (v : Values) :
  Encode v = String.concat "&" (map escPiece (pairs v)).
Proof.
  unfold Encode, pairs. destruct (decide (size v = 0%nat)) as [Hz|Hnz].
  - apply map_size_empty_iff in Hz. subst v.
    assert (sortedKeys (∅ : Values) = []) as ->; [|done].
    apply Permutation_nil_r. rewrite sortedKeys_perm. by rewrite map_to_list_empty.
  - by rewrite fold_pairsOf, fold_writePair.
Qed.

Lemma plus20_concat l :
  plus20 (String.concat "&" l) = String.concat "&" (map plus20 l).
Proof.
  induction l as [|x l IH]; [done|].
  destruct l as [|y l]; [done|].
  change (String.concat "&" (x :: y :: l)) with (x +:+ "&" +:+ String.concat "&" (y :: l)).
  rewrite !plus20_app, IH. done.
Qed.

Lemma plus20_escPiece kv : plus20 (escPiece kv) = pctPiece kv.
Proof.
  unfold escPiece, pctPiece. by rewrite !plus20_app, !plus20_QueryEscape.
Qed.

(** The query string the client signs is the canonical query string. *)
Lemma Replace_Encode (v : Values) :
  Strings.Replace (Encode v) "+" "%20" = canonicalQuery v.
Proof.
  rewrite Replace_plus, Encode_pieces, plus20_concat, map_map.
  unfold canonicalQuery. f_equal. apply map_ext. intros kv. apply plus20_escPiece.
Qed.

Lemma nibble_cases (n : N) :
  (n < 16)%N →
  (n = 0 ∨ n = 1 ∨ n = 2 ∨ n = 3 ∨ n = 4 ∨ n = 5 ∨ n = 6 ∨ n = 7 ∨ n = 8
   ∨ n = 9 ∨ n = 10 ∨ n = 11 ∨ n = 12 ∨ n = 13 ∨ n = 14 ∨ n = 15)%N.
Proof. lia. Qed.

Lemma hi_nibble c : (N.shiftr (N_of_ascii c) 4 < 16)%N.
Proof.
  rewrite N.shiftr_div_pow2. pose proof (N_ascii_bounded c).
  apply N.Div0.div_lt_upper_bound. simpl. lia.
Qed.

Lemma lo_nibble c : (N.land (N_of_ascii c) 15 < 16)%N.
Proof. change 15%N with (N.ones 4). rewrite N.land_ones. by apply N.mod_lt. Qed.

Lemma upperhex_unreserved n : (n < 16)%N → shouldEscape (upperhex n) = false.
Proof.
  intros Hn. apply nibble_cases in Hn.
  by repeat (destruct Hn as [->|Hn]; [done|]); subst.
Qed.

(** A byte that has to be escaped, other than [%], does not occur in
    percent-encoded text. *)
Lemma pctByte_free c x :
  shouldEscape x = true → x ≠ "%"%char → Strings.ContainsByte (pctByte c) x = false.
Proof.
  intros Hx Hpc. unfold pctByte.
  destruct (shouldEscape c) eqn:Hc; simpl.
  - rewrite decide_False by done.
    rewrite decide_False
      by (intros E; rewrite <- E, upperhex_unreserved in Hx by apply hi_nibble; done).
    by rewrite decide_False
      by (intros E; rewrite <- E, upperhex_unreserved in Hx by apply lo_nibble; done).
  - rewrite decide_False; [done|]. intros ->. congruence.
Qed.

Lemma pctEncode_free s x :
  shouldEscape x = true → x ≠ "%"%char → Strings.ContainsByte (pctEncode s) x = false.
Proof.
  intros Hx Hpc. induction s as [|c s IH]; [done|].
  simpl. by rewrite ContainsByte_app, pctByte_free, IH.
Qed.

Lemma pctPiece_free kv x :
  shouldEscape x = true → x ≠ "%"%char → x ≠ "="%char →
  Strings.ContainsByte (pctPiece kv) x = false.
Proof.
  intros Hx Hpc Heq. unfold pctPiece.
  rewrite !ContainsByte_app, !pctEncode_free by done. simpl.
  by rewrite decide_False.
Qed.

Lemma concat_free l x :
  x ≠ "&"%char → Forall (fun s => Strings.ContainsByte s x = false) l →
  Strings.ContainsByte (String.concat "&" l) x = false.
Proof.
  intros Hx. induction 1 as [|s l Hs Hl IH]; [done|].
  destruct l as [|s' l]; [done|].
  change (String.concat "&" (s :: s' :: l)) with (s +:+ "&" +:+ String.concat "&" (s' :: l)).
  rewrite !ContainsByte_app, Hs, IH. simpl. by rewrite decide_False.
Qed.

Lemma canonicalQuery_free v x :
  shouldEscape x = true → x ≠ "%"%char → x ≠ "="%char → x ≠ "&"%char →
  Strings.ContainsByte (canonicalQuery v) x = false.
Proof.
  intros Hx Hpc Heq Hamp. unfold canonicalQuery.
  apply concat_free; [done|]. apply Forall_forall. intros s Hs.
  apply list_elem_of_fmap in Hs as [kv [-> _]]. by apply pctPiece_free.
Qed.

End Canonical.

Section Signing.

Import Sdb Canon.

Lemma unsignedSignature_spec sdb :
  unsignedSignature sdb = stringToSign (region sdb) (p sdb).
Proof.
  unfold unsignedSignature, stringToSign. rewrite Replace_Encode.
  change (String.concat LF ["POST"; region sdb; "/"; canonicalQuery (p sdb)])
    with ("POST" +:+ LF +:+ region sdb +:+ LF +:+ "/" +:+ LF +:+ canonicalQuery (p sdb)).
  by rewrite !app_assoc_s.
Qed.

(** C1. The string that is signed is [POST], a line feed, the region host, a
    line feed, [/], a line feed and the canonical query string, and nothing
    after it: the parameters percent-encoded, in ascending order of their
    keys, with no [+] and no line feed in it.  The [Signature] parameter that
    [post] adds is the base64 text of the HMAC-SHA256 of that string under
    the secret key, and the body sent is the canonical query string of the
    parameters with the signature. *)
Theorem post_signs_canonical_request sdb :
  let toSign := "POST" +:+ LF +:+ region sdb +:+ LF +:+ "/" +:+ LF +:+ canonicalQuery (p sdb) in
  let signature :=
    Base64.EncodeToString (Hmac.sum (bytes_of (secretKey sdb)) (bytes_of toSign)) in
  unsignedSignature sdb = toSign
  ∧ StronglySorted String.le (Url.sortedKeys (p sdb))
  ∧ Url.sortedKeys (p sdb) ≡ₚ (map_to_list (p sdb)).*1
  ∧ Strings.ContainsByte (canonicalQuery (p sdb)) "+" = false
  ∧ Strings.ContainsByte (canonicalQuery (p sdb)) "010" = false
  ∧ p (signRequest sdb) = Url.Add "Signature" signature (p sdb)
  ∧ (p sdb !! "Signature" = None → p (signRequest sdb) !! "Signature" = Some [signature])
  ∧ RawRequest (signRequest sdb) = canonicalQuery (p (signRequest sdb))
  ∧ ∀ env T v,
      http_Post env ("https://" +:+ region sdb) contentType
        (canonicalQuery (Url.Add "Signature" signature (p sdb)))
      = http_Post env ("https://" +:+ region (signRequest sdb)) contentType
          (RawRequest (signRequest sdb))
      ∧ (∀ err, http_Post env ("https://" +:+ region sdb) contentType
                  (canonicalQuery (Url.Add "Signature" signature (p sdb))) = inr err →
                post env T v sdb = (signRequest sdb, v, Some err)).
Proof.
  intros toSign signature.
  assert (unsignedSignature sdb = toSign) as Hs.
  { rewrite unsignedSignature_spec. unfold stringToSign, toSign. done. }
  assert (p (signRequest sdb) = Url.Add "Signature" signature (p sdb)) as Hp.
  { unfold signRequest, sign. rewrite Hs. done. }
  assert (RawRequest (signRequest sdb) = canonicalQuery (p (signRequest sdb))) as Hr.
  { rewrite <- Replace_Encode. done. }
  split; [done|]. split; [apply sortedKeys_sorted|]. split; [apply sortedKeys_perm|].
  split; [by apply canonicalQuery_free|]. split; [by apply canonicalQuery_free|].
  split; [done|]. split; [|split; [done|]].
  - intros Hnone. rewrite Hp. unfold Url.Add, Url.get. rewrite Hnone.
    by rewrite lookup_insert_eq.
  - intros env T v. rewrite Hr, Hp. split; [done|].
    intros err Herr. unfold post.
    change (region (signRequest sdb)) with (region sdb).
    by rewrite Hr, Hp, Herr.
Qed.

End Signing.

Example unsignedSignature_ex :
  Sdb.unsignedSignature (Sdb.ListDomains_p Sample.now Sample.client)
  = "POST" +:+ Sdb.LF +:+ "sdb.eu-west-1.amazonaws.com" +:+ Sdb.LF +:+ "/" +:+ Sdb.LF +:+
    "AWSAccessKeyId=AKIDEXAMPLE&Action=ListDomains&SignatureMethod=HmacSHA256&SignatureVersion=2&Timestamp=2014-03-07T09%3A05%3A01%2B00%3A00&Version=2009-04-15".
Proof. vm_compute. reflexivity. Qed.

(** The signature and the body of a put-attributes request, as an
    independent implementation of the protocol computes them. *)
Example signed_request_ex :
  let sent := Sdb.signRequest
                (Sdb.PutAttributes_p Sample.now "my dom+" (Sample.item true) Sample.client) in
  Sdb.p sent !! "Signature" = Some ["sSB9U6y5Xv1K9jZk1DTjZfi0Cyry1AMWnY1VAwh6gP4="]
  ∧ Sdb.RawRequest sent
    = "AWSAccessKeyId=AKIDEXAMPLE&Action=PutAttributes&Attribute.1.Name=color&Attribute.1.Value=red&Attribute.2.Name=size&Attribute.2.Value=big&DomainName=my%20dom%2B&ItemName=item1&Signature=sSB9U6y5Xv1K9jZk1DTjZfi0Cyry1AMWnY1VAwh6gP4%3D&SignatureMethod=HmacSHA256&SignatureVersion=2&Timestamp=2014-03-07T09%3A05%3A01%2B00%3A00&Version=2009-04-15".
Proof. vm_compute. split; reflexivity. Qed.

Example signature_ex :
  Sdb.p (Sdb.signRequest (Sdb.ListDomains_p Sample.now Sample.client)) !! "Signature"
  = Some [Base64.EncodeToString
            (Hmac.sum (bytes_of "secret")
               (bytes_of (Sdb.unsignedSignature (Sdb.ListDomains_p Sample.now Sample.client))))].
Proof. vm_compute. reflexivity. Qed.

(** ** Decoding the canonical query string *)

Section RoundTrip.

Import Url Canon.

Lemma ishex_upperhex n : (n < 16)%N → ishex (upperhex n) = true.
Proof.
  intros Hn. apply nibble_cases in Hn.
  by repeat (destruct Hn as [->|Hn]; [done|]); subst.
Qed.

Lemma unhex_upperhex n : (n < 16)%N → unhex (upperhex n) = n.
Proof.
  intros Hn. apply nibble_cases in Hn.
  by repeat (destruct Hn as [->|Hn]; [done|]); subst.
Qed.

Lemma nibbles_join c :
  ascii_of_N (N.lor (N.shiftl (N.shiftr (N_of_ascii c) 4) 4) (N.land (N_of_ascii c) 15)) = c.
Proof. by destruct c as [[] [] [] [] [] [] [] []]. Qed.

Lemma unescape_pctByte plus c r :
  unescape plus (pctByte c +:+ r) = String c <$> unescape plus r.
Proof.
  unfold pctByte. destruct (shouldEscape c) eqn:Hc.
  - rewrite !app_cons_s, app_nil_l_s. simpl.
    rewrite !ishex_upperhex by (apply hi_nibble || apply lo_nibble).
    rewrite !unhex_upperhex by (apply hi_nibble || apply lo_nibble).
    simpl. by rewrite nibbles_join.
  - rewrite app_cons_s, app_nil_l_s. simpl.
    rewrite decide_False by (intros ->; done).
    rewrite (bool_decide_eq_false_2 (c = "+"%char)) by (intros ->; done).
    by rewrite andb_false_r.
Qed.

(** Decoding undoes percent-encoding, whether or not [+] is read as a
    space. *)
Lemma unescape_pctEncode plus s : unescape plus (pctEncode s) = Some s.
Proof.
  induction s as [|c s IH]; [done|].
  simpl pctEncode. by rewrite unescape_pctByte, IH.
Qed.

Lemma Cut_app a b sep :
  Strings.ContainsByte a sep = false →
  Strings.Cut (a +:+ String sep b) sep = (a, b, true).
Proof.
  induction a as [|c a IH]; intros Ha; simpl in *.
  - by rewrite decide_True.
  - destruct (decide (c = sep)); [done|]. by rewrite IH.
Qed.

Lemma Split_go_last sep cur s :
  Strings.ContainsByte s sep = false → Split_go sep cur s = [String.rev cur +:+ s].
Proof.
  revert cur. induction s as [|c s IH]; intros cur Hs; simpl in *.
  - by rewrite app_nil_r_s.
  - destruct (decide (c = sep)); [done|].
    rewrite IH by done. by rewrite rev_cons_s, app_assoc_s.
Qed.

Lemma Split_go_piece sep cur s r :
  Strings.ContainsByte s sep = false →
  Split_go sep cur (s +:+ String sep r) = (String.rev cur +:+ s) :: Split_go sep "" r.
Proof.
  revert cur. induction s as [|c s IH]; intros cur Hs; simpl in *.
  - rewrite decide_True by done. by rewrite app_nil_r_s.
  - destruct (decide (c = sep)); [done|].
    rewrite IH by done. by rewrite rev_cons_s, app_assoc_s.
Qed.

(** Cutting at [&] gives back the pieces that were joined with [&]. *)
Lemma Split_concat l :
  l ≠ [] → Forall (fun s => Strings.ContainsByte s "&" = false) l →
  Split (String.concat "&" l) "&" = l.
Proof.
  intros Hne Hl. unfold Split.
  induction Hl as [|s l Hs Hl IH]; [done|].
  destruct l as [|s' l].
  - simpl. by rewrite Split_go_last.
  - change (String.concat "&" (s :: s' :: l)) with (s +:+ "&" +:+ String.concat "&" (s' :: l)).
    change ("&" +:+ String.concat "&" (s' :: l))
      with (String "&"%char (String.concat "&" (s' :: l))).
    rewrite Split_go_piece by done. by rewrite IH.
Qed.

Lemma parsePiece_pctPiece plus m err kv :
  parsePiece plus (m, err) (pctPiece kv) = (Add kv.1 kv.2 m, err).
Proof.
  unfold parsePiece.
  rewrite pctPiece_free by done.
  rewrite decide_False by (unfold pctPiece; apply app_not_nil; done).
  unfold pctPiece.
  change ("=" +:+ pctEncode kv.2) with (String "="%char (pctEncode kv.2)).
  rewrite Cut_app by (by apply pctEncode_free).
  by rewrite !unescape_pctEncode.
Qed.

Lemma fold_parsePiece plus l m err :
  foldl (parsePiece plus) (m, err) (map pctPiece l) = (Wire.AddAll l m, err).
Proof.
  revert m. induction l as [|kv l IH]; intros m; [done|].
  cbn [foldl map]. by rewrite parsePiece_pctPiece, IH.
Qed.

(** Decoding the joined pieces of a list of pairs adds the pairs in order. *)
Lemma ParseQuery_pieces plus l :
  ParseQuery plus (String.concat "&" (map pctPiece l)) = (Wire.AddAll l ∅, false).
Proof.
  unfold ParseQuery. destruct l as [|kv l]; [done|].
  rewrite Split_concat; [apply fold_parsePiece|done|].
  apply Forall_forall. intros s Hs.
  apply list_elem_of_fmap in Hs as [kv' [-> _]]. by apply pctPiece_free.
Qed.

End RoundTrip.

Section Mapping.

Import Url Canon Wire.

Lemma values_of_app k l1 l2 : values_of k (l1 ++ l2) = values_of k l1 ++ values_of k l2.
Proof. unfold values_of. by rewrite filter_app, map_app. Qed.

Lemma values_of_cons k kv l :
  values_of k (kv :: l) = if decide (kv.1 = k) then kv.2 :: values_of k l else values_of k l.
Proof.
  unfold values_of. destruct (decide (kv.1 = k)) as [E|E].
  - by rewrite filter_cons_True.
  - by rewrite filter_cons_False.
Qed.

Lemma values_of_key k k' vs :
  values_of k (map (pair k') vs) = if decide (k' = k) then vs else [].
Proof.
  induction vs as [|x vs IH]; simpl.
  - by destruct (decide (k' = k)).
  - rewrite values_of_cons, IH. simpl. by destruct (decide (k' = k)).
Qed.

Lemma values_of_pairsOf (v : Values) keys k :
  NoDup keys →
  values_of k (pairsOf v keys) = if decide (k ∈ keys) then get v k else [].
Proof.
  unfold pairsOf. induction 1 as [|k' keys Hnin Hnd IH]; cbn [flat_map].
  - by rewrite decide_False by apply not_elem_of_nil.
  - rewrite values_of_app, values_of_key, IH.
    destruct (decide (k' = k)) as [->|Hne].
    + rewrite decide_False by done. rewrite decide_True by apply list_elem_of_here.
      by rewrite app_nil_r.
    + destruct (decide (k ∈ keys)) as [Hin|Hin].
      * by rewrite decide_True by (by apply list_elem_of_further).
      * rewrite decide_False; [done|]. intros [E|E]%elem_of_cons; [by apply Hne|by apply Hin].
Qed.

Lemma get_Add_eq k x (m : Values) : get (Add k x m) k = get m k ++ [x].
Proof. unfold get at 1, Add. by rewrite lookup_insert_eq. Qed.

Lemma get_Add_ne k k' x (m : Values) : k' ≠ k → get (Add k' x m) k = get m k.
Proof. intros H. unfold get, Add. by rewrite lookup_insert_ne. Qed.

(** The values a key has after a list of pairs was added. *)
Lemma AddAll_lookup l (m : Values) k :
  AddAll l m !! k
  = match values_of k l with
    | [] => m !! k
    | vs => Some (get m k ++ vs)
    end.
Proof.
  revert m. induction l as [|[k' x] l IH]; intros m; [done|].
  unfold AddAll in *. cbn [foldl]. rewrite IH, values_of_cons. simpl.
  destruct (decide (k' = k)) as [->|Hne].
  - rewrite get_Add_eq. unfold Add. rewrite lookup_insert_eq.
    destruct (values_of k l); [done|]. by rewrite <- app_assoc.
  - rewrite get_Add_ne by done. unfold Add. by rewrite lookup_insert_ne.
Qed.

(** Adding the pairs of a mapping to the empty mapping builds it again. *)
Lemma AddAll_pairs (v : Values) : built v → AddAll (pairs v) ∅ = v.
Proof.
  intros Hb. apply map_eq. intros k.
  rewrite AddAll_lookup. unfold pairs.
  rewrite values_of_pairsOf by apply sortedKeys_NoDup.
  destruct (v !! k) as [vs|] eqn:Hk.
  - rewrite decide_True by (apply elem_of_sortedKeys; eauto).
    unfold get. rewrite Hk, lookup_empty. simpl.
    destruct vs; [|done]. by apply Hb in Hk.
  - rewrite decide_False; [done|].
    rewrite elem_of_sortedKeys, Hk. by intros [? ?].
Qed.

Lemma built_empty : built (∅ : Values).
Proof. apply map_Forall_empty. Qed.

Lemma built_Add k x (v : Values) : built v → built (Add k x v).
Proof.
  intros Hb. unfold Add. apply map_Forall_insert_2; [|done].
  by destruct (get v k).
Qed.

Lemma built_AddAll l (v : Values) : built v → built (AddAll l v).
Proof.
  revert v. induction l as [|kv l IH]; intros v Hb; [done|].
  apply IH. by apply built_Add.
Qed.

(** Every mapping the client holds is built by [Add]. *)
Lemma built_call now c sdb :
  built (Sdb.p (Sdb.call_p now c sdb)) ∧ built (Sdb.p (Sdb.signRequest (Sdb.call_p now c sdb))).
Proof.
  assert (built (Sdb.p (Sdb.call_p now c sdb))) as Hb.
  { rewrite call_p_fields, p_AddAll_p, reset_p. apply built_AddAll.
    unfold seed. repeat (apply map_Forall_insert_2; [done|]). apply built_empty. }
  split; [done|]. by apply built_Add.
Qed.

Lemma ParseQuery_canonicalQuery plus (v : Values) :
  built v → ParseQuery plus (canonicalQuery v) = (v, false).
Proof.
  intros Hb. unfold canonicalQuery. by rewrite ParseQuery_pieces, AddAll_pairs.
Qed.

(** The canonical query string tells mappings apart. *)
Lemma canonicalQuery_inj (v w : Values) :
  built v → built w → canonicalQuery v = canonicalQuery w → v = w.
Proof.
  intros Hv Hw E.
  pose proof (ParseQuery_canonicalQuery true v Hv) as H1.
  pose proof (ParseQuery_canonicalQuery true w Hw) as H2.
  rewrite E in H1. congruence.
Qed.

Lemma value_change_ne (v w : Values) : value_change v w → v ≠ w.
Proof.
  intros (k & vs & i & x & x' & Hk & Hi & Hx & ->) E.
  assert (<[k:=<[i:=x']> vs]> v !! k = Some vs) as H by (by rewrite <- E).
  rewrite lookup_insert_eq in H. injection H as H.
  assert (<[i:=x']> vs !! i = Some x) as H' by (by rewrite H).
  rewrite list_lookup_insert_eq in H' by (by eapply lookup_lt_Some).
  congruence.
Qed.

Lemma value_change_built (v w : Values) : built v → value_change v w → built w.
Proof.
  intros Hb (k & vs & i & x & x' & Hk & Hi & Hx & ->).
  apply map_Forall_insert_2; [|done].
  intros E. apply (f_equal length) in E. rewrite length_insert in E.
  apply lookup_lt_Some in Hi. simpl in E. lia.
Qed.

(** C3. Decoding the canonical query string of a mapping built by [Add]
    gives the mapping back, with no error, whatever bytes the keys and values
    are made of; a [+] in the text decoded would be read the same either
    way, as there is none. *)
Theorem canonical_roundtrip (plus : bool) (v : Values) :
  built v →
  ParseQuery plus (canonicalQuery v) = (v, false)
  ∧ ParseQuery plus (Strings.Replace (Encode v) "+" "%20") = (v, false).
Proof.
  intros Hb. rewrite Replace_Encode. split; by apply ParseQuery_canonicalQuery.
Qed.

End Mapping.

Lemma canonical_roundtrip_witness :
  Url.ParseQuery true
    (Strings.Replace
       (Url.Encode (Url.Add "k e=y" "a b+c=d&e" (Url.Add "q" "x" (Url.Add "q" "" ∅)))) "+" "%20")
  = (Url.Add "k e=y" "a b+c=d&e" (Url.Add "q" "x" (Url.Add "q" "" ∅)), false).
Proof.
  refine (proj2 (canonical_roundtrip true
           (Url.Add "k e=y" "a b+c=d&e" (Url.Add "q" "x" (Url.Add "q" "" ∅))) _)).
  apply (bool_decide_unpack (Canon.built _)). vm_compute. exact I.
Defined.

Example canonicalQuery_ex :
  Canon.canonicalQuery (Url.Add "k e=y" "a b+c=d&e" (Url.Add "q" "x" (Url.Add "q" "" ∅)))
  = "k%20e%3Dy=a%20b%2Bc%3Dd%26e&q=&q=x".
Proof. vm_compute. reflexivity. Qed.

(** ** Signatures *)

Section Collisions.

Import Sdb Canon.

(** More pigeons than holes. *)
Lemma pigeonhole (B : nat) (f : nat → nat) :
  (∀ i, f i < B) → ¬ (∀ i j, i ≠ j → f i ≠ f j).
Proof.
  intros Hb Hinj.
  assert (NoDup (f <$> seq 0 (S B))) as Hnd.
  { apply NoDup_fmap_2_strong; [|apply NoDup_seq].
    intros i j _ _ Hij. destruct (decide (i = j)) as [|Hne]; [done|].
    by destruct (Hinj i j Hne). }
  assert (f <$> seq 0 (S B) ⊆+ seq 0 B) as Hsub.
  { apply NoDup_submseteq; [done|]. intros x Hx.
    apply list_elem_of_fmap in Hx as [i [-> _]]. apply elem_of_seq. specialize (Hb i). lia. }
  apply submseteq_length in Hsub.
  rewrite length_fmap, !length_seq in Hsub. lia.
Qed.

Lemma pigeonhole_N (B : N) (f : nat → N) :
  (∀ i, (f i < B)%N) → ¬ (∀ i j, i ≠ j → f i ≠ f j).
Proof.
  intros Hb Hinj.
  apply (pigeonhole (N.to_nat B) (fun i => N.to_nat (f i))).
  - intros i. specialize (Hb i). lia.
  - intros i j Hne E. apply N2Nat.inj in E. by apply (Hinj i j).
Qed.

Lemma num_bound l :
  Forall (fun b => (b < 256)%N) l → (num l < 256 ^ N.of_nat (length l))%N.
Proof.
  induction 1 as [|b l Hb Hl IH]; [done|].
  cbn [num foldr length]. fold (num l).
  rewrite Nat2N.inj_succ, N.pow_succ_r'. lia.
Qed.

Lemma num_inj l l' :
  length l = length l' →
  Forall (fun b => (b < 256)%N) l → Forall (fun b => (b < 256)%N) l' →
  num l = num l' → l = l'.
Proof.
  intros Hlen Hl. revert l' Hlen.
  induction Hl as [|b l Hb Hl IH]; intros [|b' l'] Hlen Hl' E; try done.
  apply Forall_cons in Hl' as [Hb' Hl'].
  cbn [num foldr] in E. fold (num l) in E. fold (num l') in E.
  assert (b = b') as -> by lia.
  f_equal. apply IH; [by injection Hlen|done|lia].
Qed.

Lemma be_bytes_length n x : length (Sha256.be_bytes n x) = n.
Proof. induction n as [|n IH]; [done|]. simpl. by rewrite IH. Qed.

Lemma be_bytes_bound n x : Forall (fun b => (b < 256)%N) (Sha256.be_bytes n x).
Proof.
  induction n as [|n IH]; [constructor|].
  cbn [Sha256.be_bytes]. constructor; [|done]. by apply N.mod_lt.
Qed.

(** A digest is 32 bytes. *)
Lemma sum_length msg : length (Sha256.sum msg) = 32.
Proof.
  unfold Sha256.sum, Sha256.digest_bytes. by rewrite !length_app, !be_bytes_length.
Qed.

Lemma sum_bound msg : Forall (fun b => (b < 256)%N) (Sha256.sum msg).
Proof.
  unfold Sha256.sum, Sha256.digest_bytes.
  repeat (apply Forall_app; split); apply be_bytes_bound.
Qed.

Lemma xs_inj n m : Sample.xs n = Sample.xs m → n = m.
Proof.
  revert m. induction n as [|n IH]; intros [|m] E; try done.
  injection E as E. f_equal. by apply IH.
Qed.

Lemma Hmac_sum_length key msg : length (Hmac.sum key msg) = 32.
Proof. unfold Hmac.sum. apply sum_length. Qed.

Lemma Hmac_sum_bound key msg : Forall (fun b => (b < 256)%N) (Hmac.sum key msg).
Proof. unfold Hmac.sum. apply sum_bound. Qed.

(** Among infinitely many 32-byte strings two are equal. *)
Lemma digests_collide (g : nat → list N) :
  (∀ n, length (g n) = 32) → (∀ n, Forall (fun b => (b < 256)%N) (g n)) →
  ¬ (∀ i j, i ≠ j → g i ≠ g j).
Proof.
  intros Hlen Hbound Hinj.
  apply (pigeonhole_N (256 ^ N.of_nat 32) (fun n => num (g n))).
  - intros n. rewrite <- (Hlen n). apply num_bound, Hbound.
  - intros i j Hne E. apply (Hinj i j Hne).
    apply num_inj; [by rewrite !Hlen|apply Hbound|apply Hbound|exact E].
Qed.

Lemma clientWith_change n m :
  n ≠ m → value_change (p (Sample.clientWith n)) (p (Sample.clientWith m)).
Proof.
  intros Hne. exists "k", [Sample.xs n], 0, (Sample.xs n), (Sample.xs m).
  split; [apply lookup_singleton_eq|]. split; [reflexivity|]. split.
  - intros Hx. apply xs_inj in Hx. congruence.
  - unfold Sample.clientWith, p. cbn [list_insert insert]. 
    symmetry. apply insert_singleton_eq.
Qed.

Lemma clientWith_built n : built (p (Sample.clientWith n)).
Proof.
  unfold built, Sample.clientWith, p. apply map_Forall_singleton. discriminate.
Qed.

(** There are more parameter values than signatures: some change of a
    single value leaves the signature as it was. *)
Lemma signatures_collide : ¬ signatures_always_differ.
Proof.
  intros Hclaim.
  apply (digests_collide (fun n =>
           Hmac.sum (bytes_of (secretKey (Sample.clientWith n)))
             (bytes_of (unsignedSignature (Sample.clientWith n))))).
  - intros n. apply Hmac_sum_length.
  - intros n. apply Hmac_sum_bound.
  - intros i j Hne E.
    apply (Hclaim (Sample.clientWith i) (Sample.clientWith j)).
    + reflexivity.
    + reflexivity.
    + apply clientWith_built.
    + by apply clientWith_change.
    + unfold sign. f_equal. exact E.
Qed.

End Collisions.

(** ** Base64 *)

Section Base64Facts.

Import Base64.

(** A property checked on every number below a bound holds below it. *)
Lemma below_forall (B : nat) (f : N → bool) :
  forallb f (map N.of_nat (seq 0 B)) = true → ∀ n, (n < N.of_nat B)%N → f n = true.
Proof.
  intros H n Hn. rewrite forallb_forall in H. apply H.
  apply in_map_iff. exists (N.to_nat n). split; [lia|].
  apply in_seq. lia.
Qed.

Lemma below_forall2 (B : nat) (f : N → N → bool) :
  forallb (fun a => forallb (f a) (map N.of_nat (seq 0 B))) (map N.of_nat (seq 0 B)) = true →
  ∀ a b, (a < N.of_nat B)%N → (b < N.of_nat B)%N → f a b = true.
Proof.
  intros H a b Ha Hb.
  apply (below_forall B (f a)); [|done].
  by apply (below_forall B (fun a => forallb (f a) (map N.of_nat (seq 0 B)))).
Qed.

Lemma encodeStd_facts n :
  (n < 64)%N → decodeStd (encodeStd n) = n ∧ encodeStd n ≠ "="%char.
Proof.
  intros Hn.
  pose proof (below_forall 64
    (fun n => (decodeStd (encodeStd n) =? n)%N
              && negb (Ascii.eqb (encodeStd n) "=")) eq_refl n Hn) as H.
  apply andb_true_iff in H as [H1 H2]. split; [by apply N.eqb_eq|].
  intros E. rewrite E in H2. done.
Qed.

Lemma encodeStd_inj n m : (n < 64)%N → (m < 64)%N → encodeStd n = encodeStd m → n = m.
Proof.
  intros Hn Hm E.
  rewrite <- (proj1 (encodeStd_facts n Hn)), <- (proj1 (encodeStd_facts m Hm)). by rewrite E.
Qed.

(** The six-bit groups of one, two and three bytes determine the bytes. *)
Lemma sextets1 a :
  (a < 256)%N →
  (N.shiftr a 2 < 64)%N ∧ (N.shiftl (N.land a 3) 4 < 64)%N
  ∧ N.lor (N.shiftl (N.shiftr a 2) 2) (N.shiftr (N.shiftl (N.land a 3) 4) 4) = a
  ∧ (N.land a 63 < 64)%N
  ∧ (N.shiftl (N.land a 15) 2 < 64)%N.
Proof.
  intros Ha.
  pose proof (below_forall 256
    (fun a => (N.shiftr a 2 <? 64)%N && (N.shiftl (N.land a 3) 4 <? 64)%N
              && (N.lor (N.shiftl (N.shiftr a 2) 2)
                        (N.shiftr (N.shiftl (N.land a 3) 4) 4) =? a)%N
              && (N.land a 63 <? 64)%N && (N.shiftl (N.land a 15) 2 <? 64)%N)
    eq_refl a Ha) as H.
  repeat (apply andb_true_iff in H as [H ?]).
  repeat split; try (by apply N.ltb_lt); by apply N.eqb_eq.
Qed.

Lemma sextets2 a b :
  (a < 256)%N → (b < 256)%N →
  let s2 := N.lor (N.shiftl (N.land a 3) 4) (N.shiftr b 4) in
  let s3 := N.shiftl (N.land b 15) 2 in
  (s2 < 64)%N
  ∧ N.lor (N.shiftl (N.shiftr a 2) 2) (N.shiftr s2 4) = a
  ∧ N.lor (N.shiftl (N.land s2 15) 4) (N.shiftr s3 2) = b.
Proof.
  intros Ha Hb.
  pose proof (below_forall2 256
    (fun a b =>
       let s2 := N.lor (N.shiftl (N.land a 3) 4) (N.shiftr b 4) in
       let s3 := N.shiftl (N.land b 15) 2 in
       (s2 <? 64)%N
       && (N.lor (N.shiftl (N.shiftr a 2) 2) (N.shiftr s2 4) =? a)%N
       && (N.lor (N.shiftl (N.land s2 15) 4) (N.shiftr s3 2) =? b)%N)
    ltac:(vm_compute; reflexivity) a b Ha Hb) as H.
  cbv zeta in H. repeat (apply andb_true_iff in H as [H ?]).
  repeat split; try (by apply N.ltb_lt); by apply N.eqb_eq.
Qed.

Lemma sextets3 b c :
  (b < 256)%N → (c < 256)%N →
  let s3 := N.lor (N.shiftl (N.land b 15) 2) (N.shiftr c 6) in
  (s3 < 64)%N
  ∧ N.shiftr s3 2 = N.land b 15
  ∧ N.lor (N.shiftl (N.land s3 3) 6) (N.land c 63) = c.
Proof.
  intros Hb Hc.
  pose proof (below_forall2 256
    (fun b c =>
       let s3 := N.lor (N.shiftl (N.land b 15) 2) (N.shiftr c 6) in
       (s3 <? 64)%N
       && (N.shiftr s3 2 =? N.land b 15)%N
       && (N.lor (N.shiftl (N.land s3 3) 6) (N.land c 63) =? c)%N)
    ltac:(vm_compute; reflexivity) b c Hb Hc) as H.
  cbv zeta in H. repeat (apply andb_true_iff in H as [H ?]).
  repeat split; try (by apply N.ltb_lt); by apply N.eqb_eq.
Qed.

Lemma sextets23 a b :
  (a < 256)%N → (b < 256)%N →
  let s2 := N.lor (N.shiftl (N.land a 3) 4) (N.shiftr b 4) in
  N.lor (N.shiftl (N.land s2 15) 4) (N.land b 15) = b.
Proof.
  intros Ha Hb.
  pose proof (below_forall2 256
    (fun a b =>
       let s2 := N.lor (N.shiftl (N.land a 3) 4) (N.shiftr b 4) in
       (N.lor (N.shiftl (N.land s2 15) 4) (N.land b 15) =? b)%N)
    ltac:(vm_compute; reflexivity) a b Ha Hb) as H.
  by apply N.eqb_eq.
Qed.

Lemma EncodeToString_inj_aux n l l' :
  length l ≤ n →
  Forall (fun b => (b < 256)%N) l → Forall (fun b => (b < 256)%N) l' →
  EncodeToString l = EncodeToString l' → l = l'.
Proof.
  revert l l'. induction n as [|n IH]; intros l l' Hn Hl Hl' E.
  { destruct l; [|simpl in Hn; lia]. by destruct l' as [|? [|? [|? ?]]]. }
  destruct l as [|a [|b [|c r]]]; destruct l' as [|a' [|b' [|c' r']]];
    try discriminate E; try done;
    repeat match goal with
           | H : Forall _ (_ :: _) |- _ => apply Forall_cons in H as [? H]
           end;
    cbn [EncodeToString] in E.
  - (* one byte, one byte *)
    injection E as E1 E2.
    pose proof (sextets1 a ltac:(done)) as (L1 & L2 & Ja & _).
    pose proof (sextets1 a' ltac:(done)) as (L1' & L2' & Ja' & _).
    apply encodeStd_inj in E1; [|done..]. apply encodeStd_inj in E2; [|done..].
    f_equal. congruence.
  - (* one byte, two bytes *)
    injection E as _ _ E3.
    pose proof (sextets1 b' ltac:(done)) as (_ & _ & _ & _ & L).
    by destruct (proj2 (encodeStd_facts _ L)).
  - (* one byte, three or more *)
    injection E as _ _ E3 _.
    pose proof (sextets3 b' c' ltac:(done) ltac:(done)) as (L & _).
    by destruct (proj2 (encodeStd_facts _ L)).
  - (* two bytes, one byte *)
    injection E as _ _ E3.
    pose proof (sextets1 b ltac:(done)) as (_ & _ & _ & _ & L).
    by destruct (proj2 (encodeStd_facts _ L)).
  - (* two bytes, two bytes *)
    injection E as E1 E2 E3.
    pose proof (sextets1 a ltac:(done)) as (L1 & _).
    pose proof (sextets1 a' ltac:(done)) as (L1' & _).
    pose proof (sextets1 b ltac:(done)) as (_ & _ & _ & _ & L3).
    pose proof (sextets1 b' ltac:(done)) as (_ & _ & _ & _ & L3').
    pose proof (sextets2 a b ltac:(done) ltac:(done)) as (L2 & Ja & Jb).
    pose proof (sextets2 a' b' ltac:(done) ltac:(done)) as (L2' & Ja' & Jb').
    apply encodeStd_inj in E1; [|done..]. apply encodeStd_inj in E2; [|done..].
    apply encodeStd_inj in E3; [|done..].
    cbv zeta in *. assert (a = a') as <- by congruence.
    assert (b = b') as <- by congruence. done.
  - (* two bytes, three or more *)
    injection E as _ _ _ E4.
    pose proof (sextets1 c' ltac:(done)) as (_ & _ & _ & L & _).
    by destruct (proj2 (encodeStd_facts _ L)).
  - (* three or more, one byte *)
    injection E as _ _ E3 _.
    pose proof (sextets3 b c ltac:(done) ltac:(done)) as (L & _).
    by destruct (proj2 (encodeStd_facts _ L)).
  - (* three or more, two bytes *)
    injection E as _ _ _ E4.
    pose proof (sextets1 c ltac:(done)) as (_ & _ & _ & L & _).
    by destruct (proj2 (encodeStd_facts _ L)).
  - (* three or more, three or more *)
    injection E as E1 E2 E3 E4 E5.
    pose proof (sextets1 a ltac:(done)) as (L1 & _).
    pose proof (sextets1 a' ltac:(done)) as (L1' & _).
    pose proof (sextets1 c ltac:(done)) as (_ & _ & _ & L4 & _).
    pose proof (sextets1 c' ltac:(done)) as (_ & _ & _ & L4' & _).
    pose proof (sextets2 a b ltac:(done) ltac:(done)) as (L2 & Ja & _).
    pose proof (sextets2 a' b' ltac:(done) ltac:(done)) as (L2' & Ja' & _).
    pose proof (sextets3 b c ltac:(done) ltac:(done)) as (L3 & Kb & Jc).
    pose proof (sextets3 b' c' ltac:(done) ltac:(done)) as (L3' & Kb' & Jc').
    pose proof (sextets23 a b ltac:(done) ltac:(done)) as Jb.
    pose proof (sextets23 a' b' ltac:(done) ltac:(done)) as Jb'.
    apply encodeStd_inj in E1; [|done..]. apply encodeStd_inj in E2; [|done..].
    apply encodeStd_inj in E3; [|done..]. apply encodeStd_inj in E4; [|done..].
    cbv zeta in *.
    assert (a = a') as <- by congruence.
    assert (b = b') as <- by congruence.
    assert (c = c') as <- by congruence.
    do 3 f_equal. apply IH; [simpl in Hn; lia|done..].
Qed.

(** Distinct byte sequences have distinct base64 texts. *)
Lemma EncodeToString_inj l l' :
  Forall (fun b => (b < 256)%N) l → Forall (fun b => (b < 256)%N) l' →
  EncodeToString l = EncodeToString l' → l = l'.
Proof. apply (EncodeToString_inj_aux (length l)). done. Qed.

End Base64Facts.

Section SignatureChanges.

Import Sdb Canon.

(** C5, as the code has it.  A change of one value of one parameter changes
    the canonical query string and with it the string that is signed; the
    two signatures then differ exactly when the HMAC-SHA256 digests of the
    two strings differ. *)
Theorem changed_value_changes_signed_string sdb sdb' :
  secretKey sdb' = secretKey sdb →
  region sdb' = region sdb →
  built (p sdb) →
  value_change (p sdb) (p sdb') →
  canonicalQuery (p sdb) ≠ canonicalQuery (p sdb')
  ∧ unsignedSignature sdb ≠ unsignedSignature sdb'
  ∧ (sign sdb (unsignedSignature sdb) ≠ sign sdb' (unsignedSignature sdb')
     ↔ Hmac.sum (bytes_of (secretKey sdb)) (bytes_of (unsignedSignature sdb))
       ≠ Hmac.sum (bytes_of (secretKey sdb)) (bytes_of (unsignedSignature sdb'))).
Proof.
  intros Hkey Hreg Hb Hch.
  assert (canonicalQuery (p sdb) ≠ canonicalQuery (p sdb')) as Hq.
  { intros E. apply canonicalQuery_inj in E; [|done|by eapply value_change_built].
    by apply (value_change_ne _ _ Hch). }
  split; [done|]. split.
  - rewrite !unsignedSignature_spec, Hreg. unfold stringToSign.
    change (String.concat LF ["POST"; region sdb; "/"; ?q])
      with ("POST" +:+ LF +:+ region sdb +:+ LF +:+ "/" +:+ LF +:+ q).
    intros E. by repeat apply String.app_inj in E.
  - unfold sign. rewrite Hkey. split.
    + intros Hne E. apply Hne. by rewrite E.
    + intros Hne E. apply Hne.
      by apply EncodeToString_inj in E; [|apply Hmac_sum_bound..].
Qed.

End SignatureChanges.

Lemma changed_value_changes_signed_string_witness :
  Sdb.unsignedSignature (Sample.clientWith 1) ≠ Sdb.unsignedSignature (Sample.clientWith 2).
Proof.
  refine (proj1 (proj2 (changed_value_changes_signed_string
            (Sample.clientWith 1) (Sample.clientWith 2) _ _ _ _))).
  - reflexivity.
  - reflexivity.
  - apply (bool_decide_unpack (Canon.built _)). vm_compute. exact I.
  - exists "k", ["x"], 0, "x", "xx". vm_compute. repeat split; congruence.
Defined.

(** ** Result types *)

Section Results.

Import Sdb.

(** C7, at the two types that fall short.  The results of get-attributes
    and select are structs with the one field [Attributes], respectively
    [Items]: they have no [ResponseMetadata], so a request id and a box usage
    have no place in them, while the result of every other action carries
    [ResponseMetadata] with the fields [RequestId] and [BoxUsage]. *)
Theorem ResponseMetadata_missing :
  has_ResponseMetadata (result_shape AGetAttributes) = false
  ∧ has_ResponseMetadata (result_shape ASelect) = false
  ∧ struct_fields "GetAttributesResponse"
    = [mkField "Attributes" "GetAttributesResult>Attribute" (Tslice (Tstruct "Attribute"))]
  ∧ struct_fields "SelectResponse"
    = [mkField "Items" "SelectResult>Item" (Tslice (Tstruct "Item"))]
  ∧ (∀ r r' : target (result_shape AGetAttributes), Attributes r = Attributes r' → r = r')
  ∧ (∀ r r' : target (result_shape ASelect), Items r = Items r' → r = r')
  ∧ (∀ a, a ≠ AGetAttributes → a ≠ ASelect → has_ResponseMetadata (result_shape a) = true)
  ∧ struct_fields "ResponseMetadata"
    = [mkField "RequestId" "" Tstring; mkField "BoxUsage" "" Tfloat64].
Proof.
  split; [done|]. split; [done|]. split; [done|]. split; [done|].
  split; [|split; [|split; [|done]]].
  - intros [x] [y]. simpl. by intros ->.
  - intros [x] [y]. simpl. by intros ->.
  - intros [] ??; done.
Qed.

End Results.

(** * Further properties *)

(** ** The log writer over any number of writes *)

Section WriterInvariant.

Import Sdb Writer Batches.

Variable TrimSpace : string → string.

Lemma Writes_invariant calls domain buf :
  length buf < 25 →
  let '(s, started) := Writes TrimSpace calls (mkSDBWriter domain buf) in
  Domain s = domain
  ∧ concat (batches started) ++ buffer s = buf ++ map (logItem TrimSpace) calls
  ∧ Forall (fun b => length b = 25) (batches started)
  ∧ length (buffer s) < 25
  ∧ 25 * length started + length (buffer s) = length buf + length calls.
Proof.
  revert buf. induction calls as [|[t p0] calls IH]; intros buf Hbuf.
  - simpl. rewrite app_nil_r. repeat split; [constructor|done|lia].
  - cbn [Writes]. rewrite Write_unfold.
    destruct (decide (length (buf ++ [logItem TrimSpace (t, p0)]) = 25)) as [E|E].
    + specialize (IH [] ltac:(simpl; lia)).
      destruct (Writes TrimSpace calls (mkSDBWriter domain [])) as [s started].
      destruct IH as (Hd & Hc & Hf & Hl & Hn).
      split; [done|]. split; [|split; [|split; [done|]]].
      * cbn [batches map app concat]. fold (batches started).
        rewrite <- app_assoc, Hc. cbn [map app]. by rewrite <- app_assoc.
      * cbn [batches map app]. by constructor.
      * cbn [app length]. rewrite length_app in E. simpl in *. lia.
    + rewrite length_app in E. cbn [length] in E.
      specialize (IH (buf ++ [logItem TrimSpace (t, p0)])
                    ltac:(rewrite length_app; simpl; lia)).
      destruct (Writes TrimSpace calls _) as [s started].
      destruct IH as (Hd & Hc & Hf & Hl & Hn).
      split; [done|]. split; [|split; [done|split; [done|]]].
      * cbn [app map]. rewrite Hc. by rewrite <- app_assoc.
      * cbn [app]. rewrite length_app in Hn. simpl in *. lia.
Qed.

(** X1. Whatever the number of writes to a new writer, every item written
    is in exactly one place, in the order written: the flushed batches, each
    of 25 items, followed by the buffer, which holds fewer than 25; a flush
    is started at every 25th write and at no other. *)
Theorem Writes_partition domain calls :
  let '(s, started) := Writes TrimSpace calls (NewSDBWriter domain) in
  concat (batches started) ++ buffer s = map (logItem TrimSpace) calls
  ∧ Forall (fun b => length b = 25) (batches started)
  ∧ length started = length calls / 25
  ∧ length (buffer s) = length calls mod 25
  ∧ Domain s = domain.
Proof.
  pose proof (Writes_invariant calls domain [] ltac:(simpl; lia)) as H.
  unfold NewSDBWriter.
  destruct (Writes TrimSpace calls (mkSDBWriter domain [])) as [s started].
  destruct H as (Hd & Hc & Hf & Hl & Hn). cbn [length app] in *.
  split; [done|]. split; [done|]. split; [|split; [|done]].
  - apply (Nat.div_unique _ _ _ (length (buffer s))); lia.
  - apply (Nat.mod_unique _ _ (length started)); lia.
Qed.

End WriterInvariant.

(** ** The outcomes of a call *)

Section Outcomes.

Import Sdb.

Variable env : Env.

Lemma call_p_raw now c sdb :
  RawResponse (call_p now c sdb) = "" ∧ RawRequest (call_p now c sdb) = ""
  ∧ accessKey (call_p now c sdb) = accessKey sdb
  ∧ secretKey (call_p now c sdb) = secretKey sdb
  ∧ region (call_p now c sdb) = region sdb.
Proof.
  rewrite call_p_fields. generalize (Wire.call_fields c). intros fs.
  assert (∀ s, RawResponse (Wire.p_AddAll fs s) = RawResponse s
               ∧ RawRequest (Wire.p_AddAll fs s) = RawRequest s
               ∧ accessKey (Wire.p_AddAll fs s) = accessKey s
               ∧ secretKey (Wire.p_AddAll fs s) = secretKey s
               ∧ region (Wire.p_AddAll fs s) = region s) as H.
  { induction fs as [|kv fs IH]; intros s; [done|].
    unfold Wire.p_AddAll in *. cbn [foldl]. by rewrite !(proj1 (IH _)),
      !(proj1 (proj2 (IH _))), !(proj1 (proj2 (proj2 (IH _)))),
      !(proj1 (proj2 (proj2 (proj2 (IH _))))), !(proj2 (proj2 (proj2 (proj2 (IH _))))). }
  destruct (H (resetParameters now sdb)) as (-> & -> & -> & -> & ->). done.
Qed.

End Outcomes.

Section Snapshots.

Import Sdb Calls Canon.

Variable env : Env.

Lemma outcome_post now c sdb :
  outcome env now c sdb
  = post env (result_shape (call_action c)) (zero _) (call_p now c sdb).
Proof. by destruct c. Qed.

Lemma signRequest_fields sdb :
  region (signRequest sdb) = region sdb ∧ secretKey (signRequest sdb) = secretKey sdb
  ∧ accessKey (signRequest sdb) = accessKey sdb
  ∧ RawResponse (signRequest sdb) = RawResponse sdb.
Proof. done. Qed.

Lemma signRequest_RawRequest sdb :
  RawRequest (signRequest sdb) = canonicalQuery (p (signRequest sdb)).
Proof. rewrite <- Replace_Encode. done. Qed.

Lemma signRequest_p sdb :
  p (signRequest sdb)
  = Url.Add "Signature"
      (Base64.EncodeToString
         (Hmac.sum (bytes_of (secretKey sdb)) (bytes_of (stringToSign (region sdb) (p sdb)))))
      (p sdb).
Proof. unfold signRequest, sign. by rewrite unsignedSignature_spec. Qed.

(** X2. After every call of an action method, however it ends, the client
    keeps the exact body it sent in [RawRequest], the canonical query string
    of the call's parameters with the signature, and in [RawResponse] the
    body of the response if one was read and the empty string otherwise,
    never the response of an earlier call; its keys and region are
    untouched. *)
Theorem snapshot_after_call now c sdb :
  let sent := signRequest (call_p now c sdb) in
  let after := (outcome env now c sdb).1.1 in
  p after = p sent
  ∧ RawRequest after = canonicalQuery (p sent)
  ∧ RawResponse after = default "" (body_read env sent)
  ∧ accessKey after = accessKey sdb ∧ secretKey after = secretKey sdb
  ∧ region after = region sdb.
Proof.
  intros sent after.
  pose proof (call_p_raw now c sdb) as (Hresp & _ & Hak & Hsk & Hreg).
  assert (after = match body_read env sent with
                  | Some b => set_RawResponse b sent
                  | None => sent
                  end) as ->.
  { unfold after, body_read. rewrite outcome_post. unfold post. fold sent.
    destruct (http_Post env _ _ _) as [r|err]; [|done].
    unfold unmarshal. destruct (decide (StatusCode r ≠ 200%Z)).
    - destruct (Body r) as [b|err]; [|done].
      destruct (xml_Unmarshal env TResponse b (zero TResponse)) as [v' [e|]]; [done|].
      by destruct (Errors v').
    - destruct (Body r) as [b|err]; [|done].
      by destruct (xml_Unmarshal env _ b _). }
  pose proof (signRequest_RawRequest (call_p now c sdb)) as Hraw. fold sent in Hraw.
  destruct (body_read env sent) as [b|]; simpl.
  - repeat split; try done.
  - repeat split; try done.
Qed.

(** X3. When the transport fails, or the body of the response cannot be
    read whatever its status, the call returns that error and the result is
    the zero value of its type; on status 200 with a body read, the result
    and the error are what the decoder makes of the body, starting from the
    zero value. *)
Theorem outcome_by_path now c sdb :
  let sent := signRequest (call_p now c sdb) in
  let T := result_shape (call_action c) in
  let response := http_Post env ("https://" +:+ region sdb) contentType
                    (canonicalQuery (p sent)) in
  (∀ err, response = inr err → outcome env now c sdb = (sent, zero T, Some err))
  ∧ (∀ r err, response = inl r → Body r = inr err →
              outcome env now c sdb = (sent, zero T, Some err))
  ∧ (∀ r b, response = inl r → StatusCode r = 200%Z → Body r = inl b →
            outcome env now c sdb
            = (set_RawResponse b sent, (xml_Unmarshal env T b (zero T)).1,
               (xml_Unmarshal env T b (zero T)).2)).
Proof.
  intros sent T response.
  assert (response = http_Post env ("https://" +:+ region sent) contentType (RawRequest sent))
    as Hresp.
  { unfold response, sent. rewrite signRequest_RawRequest.
    by rewrite (proj1 (signRequest_fields _)), (proj2 (proj2 (proj2 (proj2 (call_p_raw now c sdb))))). }
  rewrite outcome_post. unfold post. fold sent. rewrite <- Hresp. fold T.
  split; [|split].
  - by intros err ->.
  - intros r err -> Hb. unfold unmarshal. rewrite Hb. by destruct (decide _).
  - intros r b -> Hs Hb. rewrite decide_False by (by rewrite Hs; intros ?).
    unfold unmarshal. rewrite Hb. by destruct (xml_Unmarshal env T b (zero T)).
Qed.

End Snapshots.

(** ** What the service can check *)

Section Verification.

Import Sdb Canon Service.

Lemma values_of_none k l : Forall (fun kv => kv.1 ≠ k) l → values_of k l = [].
Proof.
  induction 1 as [|kv l Hkv Hl IH]; [done|].
  by rewrite values_of_cons, decide_False.
Qed.

Lemma Forall_fields_from {A} (P : string * string → Prop)
    (f : nat → A → list (string * string)) i l :
  (∀ j x, Forall P (f j x)) → Forall P (Wire.fields_from f i l).
Proof.
  intros Hf. revert i. induction l as [|x l IH]; intros i; [constructor|].
  cbn [Wire.fields_from]. apply Forall_app. by split.
Qed.

Lemma app_head_ne c d (s t u : string) : c ≠ d → String c s +:+ t ≠ String d u.
Proof. intros Hne E. rewrite app_cons_s in E. by injection E. Qed.

(** No action adds a parameter called [Signature]. *)
Lemma call_fields_no_Signature c :
  Forall (fun kv => kv.1 ≠ "Signature") (Wire.call_fields c).
Proof.
  destruct c; cbn [Wire.call_fields]; try (repeat constructor; done).
  - apply Forall_app. split; [repeat constructor; done|].
    apply Forall_fields_from. intros j x.
    repeat constructor; by apply app_head_ne.
  - apply Forall_app. split; [repeat constructor; done|].
    apply Forall_fields_from. intros j x. unfold Wire.batch_item.
    constructor; [by apply app_head_ne|].
    apply Forall_fields_from. intros j' y.
    repeat constructor; by apply app_head_ne.
Qed.

Lemma call_no_Signature now c sdb : p (call_p now c sdb) !! "Signature" = None.
Proof.
  rewrite call_p_fields, p_AddAll_p, reset_p, AddAll_lookup.
  by rewrite values_of_none by apply call_fields_no_Signature.
Qed.

Lemma verify_signRequest sdb :
  built (p sdb) → p sdb !! "Signature" = None →
  verify (secretKey sdb) (region sdb) (RawRequest (signRequest sdb)) = true.
Proof.
  intros Hb Hnone. unfold verify.
  rewrite signRequest_RawRequest.
  rewrite ParseQuery_canonicalQuery by (rewrite signRequest_p; by apply built_Add).
  rewrite signRequest_p, Add_fresh by done.
  rewrite lookup_insert_eq. cbn [negb andb].
  rewrite delete_insert_eq, delete_id by done.
  by apply bool_decide_eq_true_2.
Qed.

(** X4. The body every action method sends verifies: decoded with
    [url.ParseQuery] it holds exactly one [Signature], and that signature is
    the one of the canonical form of the other parameters under the client's
    secret key and region. *)
Theorem request_verifies now c sdb :
  verify (secretKey sdb) (region sdb) (RawRequest (signRequest (call_p now c sdb))) = true.
Proof.
  pose proof (call_p_raw now c sdb) as (_ & _ & _ & Hsk & Hreg).
  rewrite <- Hsk, <- Hreg. apply verify_signRequest.
  - apply built_call.
  - apply call_no_Signature.
Qed.

End Verification.

Example request_verifies_ex :
  Service.verify "secret" "sdb.eu-west-1.amazonaws.com"
    "AWSAccessKeyId=AKIDEXAMPLE&Action=PutAttributes&Attribute.1.Name=color&Attribute.1.Value=red&Attribute.2.Name=size&Attribute.2.Value=big&DomainName=my%20dom%2B&ItemName=item1&Signature=sSB9U6y5Xv1K9jZk1DTjZfi0Cyry1AMWnY1VAwh6gP4%3D&SignatureMethod=HmacSHA256&SignatureVersion=2&Timestamp=2014-03-07T09%3A05%3A01%2B00%3A00&Version=2009-04-15"
  = true
  ∧ Service.verify "secret" "sdb.eu-west-1.amazonaws.com"
      "AWSAccessKeyId=AKIDEXAMPLE&Action=PutAttributes&Attribute.1.Name=color&Attribute.1.Value=blue&Attribute.2.Name=size&Attribute.2.Value=big&DomainName=my%20dom%2B&ItemName=item1&Signature=sSB9U6y5Xv1K9jZk1DTjZfi0Cyry1AMWnY1VAwh6gP4%3D&SignatureMethod=HmacSHA256&SignatureVersion=2&Timestamp=2014-03-07T09%3A05%3A01%2B00%3A00&Version=2009-04-15"
    = false.
Proof. vm_compute. split; reflexivity. Qed.

Section BodyBytes.

Import Sdb Canon Service.

Lemma all_bytes_app f a b : all_bytes f (a +:+ b) = all_bytes f a && all_bytes f b.
Proof.
  induction a as [|c a IH]; [done|].
  rewrite app_cons_s. cbn [all_bytes]. by rewrite IH, andb_assoc.
Qed.

Lemma body_byte_unreserved c : Url.shouldEscape c = false → body_byte c = true.
Proof. intros H. unfold body_byte. by rewrite H. Qed.

Lemma pctByte_bytes c : all_bytes body_byte (pctByte c) = true.
Proof.
  unfold pctByte. destruct (Url.shouldEscape c) eqn:Hc; cbn [all_bytes].
  - rewrite !(body_byte_unreserved (Url.upperhex _))
      by (apply upperhex_unreserved; apply hi_nibble || apply lo_nibble).
    done.
  - by rewrite body_byte_unreserved.
Qed.

Lemma pctEncode_bytes s : all_bytes body_byte (pctEncode s) = true.
Proof.
  induction s as [|c s IH]; [done|].
  cbn [pctEncode]. by rewrite all_bytes_app, pctByte_bytes, IH.
Qed.

Lemma canonicalQuery_bytes (v : Url.Values) : all_bytes body_byte (canonicalQuery v) = true.
Proof.
  unfold canonicalQuery. generalize (pairs v). intros l.
  induction l as [|kv l IH]; [done|].
  assert (all_bytes body_byte (pctPiece kv) = true) as Hkv.
  { unfold pctPiece. by rewrite !all_bytes_app, !pctEncode_bytes. }
  destruct l as [|kv' l]; [done|].
  change (String.concat "&" (map pctPiece (kv :: kv' :: l)))
    with (pctPiece kv +:+ "&" +:+ String.concat "&" (map pctPiece (kv' :: l))).
  by rewrite !all_bytes_app, Hkv, IH.
Qed.

(** X5. Whatever bytes the keys and values of the parameters hold, the
    body sent and the query string signed are made of unreserved characters
    (letters, digits, [-], [_], [.], [~]) and [%], [=], [&] only. *)
Theorem request_bytes_safe sdb :
  all_bytes body_byte (RawRequest (signRequest sdb)) = true
  ∧ all_bytes body_byte (Strings.Replace (Url.Encode (p sdb)) "+" "%20") = true.
Proof.
  rewrite signRequest_RawRequest, Replace_Encode. split; apply canonicalQuery_bytes.
Qed.

(** X6. When the region holds no line feed, cutting the string that is
    signed at the line feeds gives back its four components: the method, the
    region, the path and the canonical query string. *)
Theorem unsignedSignature_components sdb :
  Strings.ContainsByte (region sdb) "010" = false →
  Url.Split (unsignedSignature sdb) "010"
  = ["POST"; region sdb; "/"; canonicalQuery (p sdb)].
Proof.
  intros Hreg. rewrite unsignedSignature_spec. unfold stringToSign, Url.Split.
  change (String.concat LF ["POST"; region sdb; "/"; canonicalQuery (p sdb)])
    with ("POST" +:+ String "010" (region sdb +:+ String "010"
            ("/" +:+ String "010" (canonicalQuery (p sdb))))).
  rewrite Split_go_piece by done.
  rewrite Split_go_piece by done.
  rewrite Split_go_piece by done.
  rewrite Split_go_last by (by apply canonicalQuery_free).
  done.
Qed.

End BodyBytes.

Lemma unsignedSignature_components_witness :
  Url.Split (Sdb.unsignedSignature (Sdb.ListDomains_p Sample.now Sample.client)) "010"
  = ["POST"; "sdb.eu-west-1.amazonaws.com"; "/";
     Canon.canonicalQuery (Sdb.p (Sdb.ListDomains_p Sample.now Sample.client))].
Proof.
  refine (unsignedSignature_components (Sdb.ListDomains_p Sample.now Sample.client) _).
  reflexivity.
Defined.

(** ** Items *)

Section ItemFacts.

Import Sdb Wire Items.

Lemma survives_self a : ¬ survives a a.
Proof. intros [H _]. done. Qed.

Lemma RemoveAttribute_filter a i :
  RemoveAttribute a i
  = (default zeroAttribute (last (filter (fun attr => ¬ survives a attr) (Item_Attributes i))),
     mkItem (Item_Name i) (filter (survives a) (Item_Attributes i))).
Proof. unfold RemoveAttribute. by rewrite RemoveAttribute_loop. Qed.

(** X7. Removing the attribute that [AddAttribute] has just added returns
    that attribute and leaves the item with those of its earlier attributes
    that share neither the name nor the value; when none of them shares
    either, the item is as it was before the two calls. *)
Theorem AddAttribute_RemoveAttribute name value i :
  let '(a, i1) := AddAttribute name value i in
  a = mkAttribute name value false
  ∧ RemoveAttribute a i1
    = (a, mkItem (Item_Name i) (filter (survives a) (Item_Attributes i)))
  ∧ (Forall (survives a) (Item_Attributes i) → RemoveAttribute a i1 = (a, i)).
Proof.
  unfold AddAttribute. set (a := mkAttribute name value false).
  assert (RemoveAttribute a (mkItem (Item_Name i) (Item_Attributes i ++ [a]))
          = (a, mkItem (Item_Name i) (filter (survives a) (Item_Attributes i)))) as H.
  { rewrite RemoveAttribute_filter. cbn [Item_Name Item_Attributes].
    rewrite !filter_app.
    rewrite (filter_cons_False (survives a)) by apply survives_self.
    rewrite (filter_cons_True (fun attr => ¬ survives a attr)) by apply survives_self.
    rewrite !filter_nil, app_nil_r, last_snoc. done. }
  split; [done|]. split; [done|].
  intros Hall. rewrite H. f_equal. destruct i as [n attrs]. cbn in *. f_equal.
  clear H. induction Hall as [|x l Hx Hl IH]; [done|].
  by rewrite filter_cons_True, IH.
Qed.

Lemma filter_survives_all a l : Forall (survives a) l → filter (survives a) l = l.
Proof.
  induction 1 as [|x l Hx Hl IH]; [done|]. by rewrite filter_cons_True, IH.
Qed.

Lemma filter_not_survives_none a l :
  Forall (survives a) l → filter (fun attr => ¬ survives a attr) l = [].
Proof.
  induction 1 as [|x l Hx Hl IH]; [done|]. rewrite filter_cons_False, IH; tauto.
Qed.

(** X8. When no attribute of the item shares the name or the value of the
    target, [RemoveAttribute] leaves the item unchanged and returns the zero
    attribute.  Removing is idempotent: a second removal of the same target
    finds nothing, returns the zero attribute and changes nothing. *)
Theorem RemoveAttribute_absent a i :
  (Forall (survives a) (Item_Attributes i) → RemoveAttribute a i = (zeroAttribute, i))
  ∧ RemoveAttribute a (RemoveAttribute a i).2 = (zeroAttribute, (RemoveAttribute a i).2).
Proof.
  assert (∀ j, Forall (survives a) (Item_Attributes j) →
               RemoveAttribute a j = (zeroAttribute, j)) as H.
  { intros [n attrs] Hall. rewrite RemoveAttribute_filter. cbn in *.
    by rewrite filter_survives_all, filter_not_survives_none. }
  split; [apply H|]. apply H.
  rewrite RemoveAttribute_filter. cbn [snd Item_Attributes].
  apply Forall_forall. intros x Hx. by apply list_elem_of_filter in Hx as [? _].
Qed.

(** X9. [RemoveAttribute] looks at the name and the value of the target and
    never at its [Replace] flag; what it leaves is a sublist of the item's
    attributes, in their order, and an attribute it returns after removing
    something is one of the item's attributes that is no longer there. *)
Theorem RemoveAttribute_frame a a' i :
  (Name a = Name a' → Value a = Value a' → RemoveAttribute a i = RemoveAttribute a' i)
  ∧ Item_Attributes (RemoveAttribute a i).2 `sublist_of` Item_Attributes i
  ∧ (Item_Attributes (RemoveAttribute a i).2 ≠ Item_Attributes i →
     (RemoveAttribute a i).1 ∈ Item_Attributes i
     ∧ (RemoveAttribute a i).1 ∉ Item_Attributes (RemoveAttribute a i).2).
Proof.
  split; [|split].
  - intros Hn Hv. unfold RemoveAttribute. by rewrite Hn, Hv.
  - rewrite RemoveAttribute_filter. apply sublist_filter.
  - rewrite RemoveAttribute_filter. cbn [fst snd Item_Attributes]. intros Hne.
    destruct (last (filter (fun attr => ¬ survives a attr) (Item_Attributes i)))
      as [r|] eqn:Hlast.
    + apply last_Some_elem_of, list_elem_of_filter in Hlast as [Hr Hin].
      split; [done|]. intros Hin'. by apply list_elem_of_filter in Hin' as [? _].
    + apply last_None in Hlast. destruct Hne.
      apply filter_survives_all. apply Forall_forall. intros x Hx.
      destruct (decide (survives a x)) as [|Hns]; [done|].
      assert (x ∈ filter (fun attr => ¬ survives a attr) (Item_Attributes i)) as Hx'
        by (by apply list_elem_of_filter).
      rewrite Hlast in Hx'. by apply not_elem_of_nil in Hx'.
Qed.

Lemma AddAttributes_spec nvs i :
  AddAttributes nvs i
  = mkItem (Item_Name i)
      (Item_Attributes i ++ map (fun nv => mkAttribute nv.1 nv.2 false) nvs).
Proof.
  revert i. induction nvs as [|nv nvs IH]; intros [n attrs].
  - cbn. by rewrite app_nil_r.
  - unfold AddAttributes in *. cbn [foldl]. rewrite IH. cbn. by rewrite <- app_assoc.
Qed.

End ItemFacts.

Lemma RemoveAttribute_absent_witness :
  Sdb.RemoveAttribute (Sdb.mkAttribute "shape" "round" true) (Sample.item false)
  = (Items.zeroAttribute, Sample.item false).
Proof.
  refine (proj1 (RemoveAttribute_absent (Sdb.mkAttribute "shape" "round" true)
                   (Sample.item false)) _).
  repeat constructor; cbn; discriminate.
Defined.

(** ** The indexed parameters of put-attributes and batch-put-attributes *)

Section IndexedFields.

Import Sdb Wire Canon Keys.

Lemma number_inj i j : number i = number j → i = j.
Proof. unfold number, Strconv.Itoa. intros H. apply FormatInt_inj in H. lia. Qed.

Lemma number_no_dot i : Strings.ContainsByte (number i) "." = false.
Proof. apply FormatInt_no_dot. Qed.

Lemma number_dot_inj i j (s t : string) :
  number i +:+ String "." s = number j +:+ String "." t → i = j ∧ s = t.
Proof.
  intros H. apply (app_dot_inj _ _ s t) in H as [Hn Hs]; try apply number_no_dot.
  split; [by apply number_inj|done].
Qed.

(** A key that starts with [pre] is none of the keys that do not. *)
Lemma prefix_ne pre x k : Strings.HasPrefix k pre = false → pre +:+ x ≠ k.
Proof.
  revert k. induction pre as [|c pre IH]; intros k Hk E; [by destruct k|].
  rewrite app_cons_s in E. subst k. cbn in Hk.
  rewrite decide_True in Hk by done. by apply (IH _ Hk).
Qed.

Lemma values_of_fields_from_none {A} (f : nat → A → list (string * string)) k i l :
  (∀ j x, values_of k (f j x) = []) → values_of k (fields_from f i l) = [].
Proof.
  intros Hf. revert i. induction l as [|x l IH]; intros i; [done|].
  cbn [fields_from]. by rewrite values_of_app, Hf, IH.
Qed.

(** The values of a key that only the element with index [j0] writes. *)
Lemma values_of_fields_from_at {A} (f : nat → A → list (string * string)) k j0
    (h : A → list string) i l :
  (∀ j x, values_of k (f j x) = if decide (j = j0) then h x else []) →
  values_of k (fields_from f i l)
  = if decide (i ≤ j0) then from_option h [] (l !! (j0 - i)) else [].
Proof.
  intros Hf. revert i. induction l as [|x l IH]; intros i.
  - cbn. by destruct (decide (i ≤ j0)).
  - cbn [fields_from]. rewrite values_of_app, Hf, IH.
    destruct (decide (i = j0)) as [->|Hne].
    + rewrite decide_False by lia. rewrite decide_True by lia.
      rewrite Nat.sub_diag. cbn. by rewrite app_nil_r.
    + destruct (decide (i ≤ j0)) as [Hle|Hgt].
      * rewrite decide_True by lia.
        replace (j0 - i) with (S (j0 - S i)) by lia. done.
      * by rewrite decide_False by lia.
Qed.

Lemma put_attribute_putName j0 j nv :
  values_of (putName j0) (put_attribute j nv) = if decide (j = j0) then [nv.1] else [].
Proof.
  unfold put_attribute, putName. rewrite !values_of_cons. cbn [fst snd].
  repeat case_decide; try done;
    repeat match goal with
           | H : "Attribute." +:+ _ = _ |- _ =>
               apply String.app_inj, number_dot_inj in H as [? ?]
           end; subst; done.
Qed.

Lemma put_attribute_putValue j0 j nv :
  values_of (putValue j0) (put_attribute j nv) = if decide (j = j0) then [nv.2] else [].
Proof.
  unfold put_attribute, putValue. rewrite !values_of_cons. cbn [fst snd].
  repeat case_decide; try done;
    repeat match goal with
           | H : "Attribute." +:+ _ = _ |- _ =>
               apply String.app_inj, number_dot_inj in H as [? ?]
           end; subst; done.
Qed.

Lemma fields_from_keys {A} (f : nat → A → list (string * string)) i l k :
  k ∈ (fields_from f i l).*1 → ∃ j x, i ≤ j ∧ k ∈ (f j x).*1.
Proof.
  revert i. induction l as [|x l IH]; intros i Hk; [by apply elem_of_nil in Hk|].
  cbn [fields_from] in Hk. rewrite fmap_app in Hk. apply elem_of_app in Hk as [Hk|Hk].
  - exists i, x. split; [lia|done].
  - apply IH in Hk as (j & y & Hj & Hk). exists j, y. split; [lia|done].
Qed.

Lemma NoDup_fields_from {A} (f : nat → A → list (string * string)) i l :
  (∀ j x, NoDup (f j x).*1) →
  (∀ j x j' x' k, j ≠ j' → k ∈ (f j x).*1 → k ∉ (f j' x').*1) →
  NoDup (fields_from f i l).*1.
Proof.
  intros Hnd Hdis. revert i. induction l as [|x l IH]; intros i; [constructor|].
  cbn [fields_from]. rewrite fmap_app. apply NoDup_app. split; [apply Hnd|]. split; [|apply IH].
  intros k Hk Hk'. apply fields_from_keys in Hk' as (j & y & Hj & Hk').
  apply (Hdis i x j y k); [lia|done..].
Qed.

Lemma values_of_elem k l : k ∈ l.*1 ↔ values_of k l ≠ [].
Proof.
  induction l as [|kv l IH].
  - split; [by intros ?%elem_of_nil|done].
  - rewrite fmap_cons, values_of_cons, elem_of_cons, IH.
    destruct (decide (kv.1 = k)) as [->|Hne]; [by split; [|left]|].
    split; [by intros [?|?]|by right].
Qed.

(** Adding fields with fresh, pairwise different keys adds as many
    parameters, each with the one value of its field. *)
Lemma size_AddAll l (m : Url.Values) :
  NoDup l.*1 → (∀ k, k ∈ l.*1 → m !! k = None) →
  size (AddAll l m) = size m + length l.
Proof.
  revert m. induction l as [|[k x] l IH]; intros m Hnd Hfresh; [cbn; lia|].
  cbn in Hnd. apply NoDup_cons in Hnd as [Hk Hnd].
  unfold AddAll in *. cbn [foldl fst snd].
  rewrite Add_fresh by (apply Hfresh; cbn; apply list_elem_of_here).
  rewrite IH; [|done|].
  - rewrite map_size_insert_None by (apply Hfresh; cbn; apply list_elem_of_here).
    cbn. lia.
  - intros k' Hk'. rewrite lookup_insert_ne by (by intros ->).
    apply Hfresh. cbn. by apply list_elem_of_further.
Qed.

Lemma single_AddAll l (m : Url.Values) :
  NoDup l.*1 → (∀ k, k ∈ l.*1 → m !! k = None) →
  map_Forall (fun _ vs => length vs = 1) m →
  map_Forall (fun _ vs => length vs = 1) (AddAll l m).
Proof.
  revert m. induction l as [|[k x] l IH]; intros m Hnd Hfresh Hm; [done|].
  cbn in Hnd. apply NoDup_cons in Hnd as [Hk Hnd].
  unfold AddAll in *. cbn [foldl fst snd].
  rewrite Add_fresh by (apply Hfresh; cbn; apply list_elem_of_here).
  apply IH; [done| |by apply map_Forall_insert_2].
  intros k' Hk'. rewrite lookup_insert_ne by (by intros ->).
  apply Hfresh. cbn. by apply list_elem_of_further.
Qed.

Lemma seed_lookup_prefixed a t pre x :
  Forall (fun k => Strings.HasPrefix k pre = false)
    ["Timestamp"; "Version"; "SignatureVersion"; "SignatureMethod"; "AWSAccessKeyId"] →
  seed a t !! (pre +:+ x) = None.
Proof.
  intros H. unfold seed.
  repeat (apply Forall_cons in H as [? H]).
  by rewrite !lookup_insert_ne, lookup_empty by (by apply not_eq_sym, prefix_ne).
Qed.

Lemma seed_size a t : size (seed a t) = 5.
Proof.
  unfold seed. rewrite !map_size_insert_None; [by rewrite map_size_empty|..];
    by rewrite ?lookup_insert_ne, ?lookup_empty.
Qed.

Lemma seed_single a t : map_Forall (fun _ vs => length vs = 1) (seed a t).
Proof. unfold seed. repeat (apply map_Forall_insert_2; [done|]). apply map_Forall_empty. Qed.

Lemma put_attribute_keys j nv : (put_attribute j nv).*1 = [putName j; putValue j].
Proof. done. Qed.

Lemma putName_ne_putValue j j' : putName j ≠ putValue j'.
Proof.
  unfold putName, putValue. intros E.
  apply String.app_inj, number_dot_inj in E as [_ ?]. done.
Qed.

Lemma putName_inj j j' : putName j = putName j' → j = j'.
Proof.
  unfold putName. intros E. by apply String.app_inj, number_dot_inj in E as [? _].
Qed.

Lemma putValue_inj j j' : putValue j = putValue j' → j = j'.
Proof.
  unfold putValue. intros E. by apply String.app_inj, number_dot_inj in E as [? _].
Qed.

Lemma put_fields_NoDup i nvs : NoDup (fields_from put_attribute i nvs).*1.
Proof.
  apply NoDup_fields_from.
  - intros j x. rewrite put_attribute_keys.
    apply NoDup_cons. split; [|apply NoDup_singleton].
    intros ?%list_elem_of_singleton. by apply (putName_ne_putValue j j).
  - intros j x j' x' k Hne. rewrite !put_attribute_keys.
    intros [->|[->|[]%elem_of_nil]%elem_of_cons]%elem_of_cons
           [E|[E|[]%elem_of_nil]%elem_of_cons]%elem_of_cons.
    + by apply putName_inj in E.
    + by apply putName_ne_putValue in E.
    + symmetry in E. by apply putName_ne_putValue in E.
    + by apply putValue_inj in E.
Qed.

Lemma put_fields_length n l : length (fields_from put_attribute n l) = 2 * length l.
Proof.
  revert n. induction l as [|nv l IH]; intros n; [done|].
  cbn [fields_from]. rewrite length_app, IH. cbn. lia.
Qed.

Lemma put_all_keys (d n : string) nvs k :
  k ∈ ([("Action", "PutAttributes"); ("DomainName", d); ("ItemName", n)]
         ++ fields_from put_attribute 0 nvs).*1 →
  k ∈ ["Action"; "DomainName"; "ItemName"] ∨ ∃ j, k = putName j ∨ k = putValue j.
Proof.
  rewrite fmap_app. intros [Hk|Hk]%elem_of_app; [by left|right].
  apply fields_from_keys in Hk as (j & x & _ & Hk). rewrite put_attribute_keys in Hk.
  exists j. apply elem_of_cons in Hk as [Hk|Hk]; [by left|right].
  by apply list_elem_of_singleton in Hk.
Qed.

Lemma put_all_NoDup (d n : string) nvs :
  NoDup ([("Action", "PutAttributes"); ("DomainName", d); ("ItemName", n)]
           ++ fields_from put_attribute 0 nvs).*1.
Proof.
  rewrite fmap_app. apply NoDup_app. split; [|split; [|apply put_fields_NoDup]].
  - by apply (bool_decide_unpack (NoDup _)).
  - intros k Hk Hk'.
    assert (Strings.HasPrefix k "Attribute." = false) as Hpre.
    { apply (Forall_forall (fun k => Strings.HasPrefix k "Attribute." = false)
               ["Action"; "DomainName"; "ItemName"]); [by repeat constructor|done]. }
    apply fields_from_keys in Hk' as (j & x & _ & Hk'). rewrite put_attribute_keys in Hk'.
    apply elem_of_cons in Hk' as [->|Hk']; [by eapply prefix_ne in Hpre|].
    apply list_elem_of_singleton in Hk' as ->. by eapply prefix_ne in Hpre.
Qed.

Lemma put_all_fresh a t (d n : string) nvs k :
  k ∈ ([("Action", "PutAttributes"); ("DomainName", d); ("ItemName", n)]
         ++ fields_from put_attribute 0 nvs).*1 →
  seed a t !! k = None.
Proof.
  intros [Hk|[j [->| ->]]]%put_all_keys.
  - apply (Forall_forall (fun k => seed a t !! k = None)
             ["Action"; "DomainName"; "ItemName"]); [by repeat constructor|done].
  - apply seed_lookup_prefixed. by repeat constructor.
  - apply seed_lookup_prefixed. by repeat constructor.
Qed.

(** X10. In the parameters of put-attributes the attribute with index [j]
    (from 0) of the item is found under [Attribute.<j+1>.Name] and
    [Attribute.<j+1>.Value], each with exactly its name, respectively its
    value, and no such parameter exists from the number of attributes on;
    attributes of the same name are kept apart by their index.  With the
    action, the domain and the item name that makes 8 parameters plus two
    per attribute, each with a single value. *)
Theorem PutAttributes_parameters now domain i sdb :
  let params := p (PutAttributes_p now domain i sdb) in
  params !! "Action" = Some ["PutAttributes"]
  ∧ params !! "DomainName" = Some [domain]
  ∧ params !! "ItemName" = Some [Item_Name i]
  ∧ (∀ j, params !! putName j = (fun a => [Name a]) <$> Item_Attributes i !! j)
  ∧ (∀ j, params !! putValue j = (fun a => [Value a]) <$> Item_Attributes i !! j)
  ∧ size params = 8 + 2 * length (Item_Attributes i)
  ∧ map_Forall (fun _ vs => length vs = 1) params.
Proof.
  intros params.
  pose proof (call_p_fields now (CallPutAttributes domain i) sdb) as Hp.
  apply (f_equal p) in Hp. rewrite p_AddAll_p, reset_p in Hp.
  cbn [call_p call_fields] in Hp. fold params in Hp.
  unfold wire_item in Hp. cbn [fst snd] in Hp.
  set (nvs := map name_value (Item_Attributes i)) in *.
  set (sd := seed (accessKey sdb) (Time.Format now Time.dateFormat)) in *.
  assert (∀ k, Strings.HasPrefix k "Attribute." = false →
               values_of k (fields_from put_attribute 0 nvs) = []) as Hother.
  { intros k Hk. apply values_of_fields_from_none. intros j x.
    apply values_of_none. repeat constructor; by apply prefix_ne. }
  assert (∀ k v, Strings.HasPrefix k "Attribute." = false →
            values_of k [("Action", "PutAttributes"); ("DomainName", domain);
                         ("ItemName", Item_Name i)] = [v] →
            sd !! k = None → params !! k = Some [v]) as Hfixed.
  { intros k v Hk Hv Hs. rewrite Hp, AddAll_lookup, values_of_app, Hv, Hother by done.
    unfold Url.get. by rewrite Hs. }
  assert (∀ (k : string) (h : string * string → string) j,
            (∀ j' nv, values_of k (put_attribute j' nv)
                      = if decide (j' = j) then [h nv] else []) →
            (∃ x, k = "Attribute." +:+ x) →
            params !! k = (fun nv => [h nv]) <$> nvs !! j) as Hindexed.
  { intros k h j Hk [x ->]. rewrite Hp, AddAll_lookup, values_of_app.
    rewrite (values_of_none _ [_; _; _])
      by (repeat constructor; by apply not_eq_sym, prefix_ne).
    rewrite (values_of_fields_from_at _ _ j (fun nv => [h nv])) by done.
    rewrite decide_True by lia. rewrite Nat.sub_0_r. cbn [app].
    unfold Url.get, sd. rewrite seed_lookup_prefixed by (by repeat constructor).
    by destruct (nvs !! j). }
  split; [by apply Hfixed|]. split; [by apply Hfixed|]. split; [by apply Hfixed|].
  split; [|split; [|split]].
  - intros j. rewrite (Hindexed _ fst j); [|apply put_attribute_putName|by eexists].
    unfold nvs. rewrite list_lookup_fmap. by destruct (Item_Attributes i !! j).
  - intros j. rewrite (Hindexed _ snd j); [|apply put_attribute_putValue|by eexists].
    unfold nvs. rewrite list_lookup_fmap. by destruct (Item_Attributes i !! j).
  - rewrite Hp, size_AddAll by (apply put_all_NoDup || apply put_all_fresh).
    unfold sd. rewrite seed_size, length_app, put_fields_length. cbn [length].
    unfold nvs. rewrite length_map. lia.
  - rewrite Hp. apply single_AddAll;
      [apply put_all_NoDup|apply put_all_fresh|apply seed_single].
Qed.

Lemma batch_attribute_keys i j nv :
  (batch_attribute (number i) j nv).*1 = [batchName i j; batchValue i j].
Proof. done. Qed.

Lemma batch_item_keys i it k :
  k ∈ (batch_item i it).*1 →
  k = batchItemName i ∨ ∃ j, k = batchName i j ∨ k = batchValue i j.
Proof.
  unfold batch_item. rewrite fmap_cons. intros [->|Hk]%elem_of_cons; [by left|right].
  apply fields_from_keys in Hk as (j & x & _ & Hk). rewrite batch_attribute_keys in Hk.
  exists j. apply elem_of_cons in Hk as [Hk|Hk]; [by left|right].
  by apply list_elem_of_singleton in Hk.
Qed.

Lemma batchName_inj i j i' j' : batchName i j = batchName i' j' → i = i' ∧ j = j'.
Proof.
  unfold batchName. intros H.
  apply String.app_inj, number_dot_inj in H as [? H].
  injection H as H. by apply number_dot_inj in H as [? _].
Qed.

Lemma batchValue_inj i j i' j' : batchValue i j = batchValue i' j' → i = i' ∧ j = j'.
Proof.
  unfold batchValue. intros H.
  apply String.app_inj, number_dot_inj in H as [? H].
  injection H as H. by apply number_dot_inj in H as [? _].
Qed.

Lemma batchName_ne_batchValue i j i' j' : batchName i j ≠ batchValue i' j'.
Proof.
  unfold batchName, batchValue. intros H.
  apply String.app_inj, number_dot_inj in H as [? H].
  injection H as H. by apply number_dot_inj in H as [_ H].
Qed.

Lemma batchName_ne_batchItemName i j i' : batchName i j ≠ batchItemName i'.
Proof.
  unfold batchName, batchItemName. intros H.
  apply String.app_inj, number_dot_inj in H as [_ H]. done.
Qed.

Lemma batchValue_ne_batchItemName i j i' : batchValue i j ≠ batchItemName i'.
Proof.
  unfold batchValue, batchItemName. intros H.
  apply String.app_inj, number_dot_inj in H as [_ H]. done.
Qed.

Lemma batchItemName_inj i i' : batchItemName i = batchItemName i' → i = i'.
Proof.
  unfold batchItemName. intros H.
  by apply String.app_inj, number_dot_inj in H as [? _].
Qed.

Lemma batch_attribute_pairs i j nv :
  batch_attribute (number i) j nv = [(batchName i j, nv.1); (batchValue i j, nv.2)].
Proof. done. Qed.

Lemma batch_attribute_batchName i0 j0 i j nv :
  values_of (batchName i0 j0) (batch_attribute (number i) j nv)
  = if decide (i = i0 ∧ j = j0) then [nv.1] else [].
Proof.
  rewrite batch_attribute_pairs, !values_of_cons. cbn [fst snd].
  rewrite (decide_False (P := batchValue i j = _))
    by (intros E; symmetry in E; by apply batchName_ne_batchValue in E).
  destruct (decide (i = i0 ∧ j = j0)) as [[-> ->]|Hne].
  - by rewrite decide_True.
  - rewrite decide_False; [done|]. by intros ?%batchName_inj.
Qed.

Lemma batch_attribute_batchValue i0 j0 i j nv :
  values_of (batchValue i0 j0) (batch_attribute (number i) j nv)
  = if decide (i = i0 ∧ j = j0) then [nv.2] else [].
Proof.
  rewrite batch_attribute_pairs, !values_of_cons. cbn [fst snd].
  rewrite (decide_False (P := batchName i j = _)) by apply batchName_ne_batchValue.
  destruct (decide (i = i0 ∧ j = j0)) as [[-> ->]|Hne].
  - by rewrite decide_True.
  - rewrite decide_False; [done|]. by intros ?%batchValue_inj.
Qed.

Lemma batch_attribute_batchItemName i0 i j nv :
  values_of (batchItemName i0) (batch_attribute (number i) j nv) = [].
Proof.
  rewrite batch_attribute_pairs. apply values_of_none.
  repeat constructor; cbn [fst].
  - apply batchName_ne_batchItemName.
  - apply batchValue_ne_batchItemName.
Qed.

(** The values an item writes under the keys of item [i0]. *)
Lemma batch_item_batchItemName i0 i it :
  values_of (batchItemName i0) (batch_item i it) = if decide (i = i0) then [it.1] else [].
Proof.
  unfold batch_item. rewrite values_of_cons. cbn [fst snd].
  rewrite values_of_fields_from_none by (intros; apply batch_attribute_batchItemName).
  change ("Item." +:+ number i +:+ ".ItemName") with (batchItemName i).
  destruct (decide (i = i0)) as [->|Hne]; [by rewrite decide_True|].
  rewrite decide_False; [done|]. by intros ?%batchItemName_inj.
Qed.

Lemma batch_item_indexed (k : string) (h : string * string → string) i0 j0 i
    (it : string * list (string * string)) :
  (∀ i' j nv, values_of k (batch_attribute (number i') j nv)
              = if decide (i' = i0 ∧ j = j0) then [h nv] else []) →
  k ≠ batchItemName i →
  values_of k (batch_item i it)
  = if decide (i = i0) then from_option (fun nv => [h nv]) [] (it.2 !! j0) else [].
Proof.
  intros Hk Hne. unfold batch_item. rewrite values_of_cons. cbn [fst snd].
  rewrite decide_False by (by apply not_eq_sym).
  destruct (decide (i = i0)) as [->|Hi].
  - rewrite (values_of_fields_from_at _ _ j0 (fun nv => [h nv])).
    + rewrite decide_True by lia. by rewrite Nat.sub_0_r.
    + intros j x. rewrite Hk. by repeat case_decide; try done; naive_solver.
  - apply values_of_fields_from_none. intros j x. rewrite Hk.
    by rewrite decide_False by naive_solver.
Qed.

Lemma elem_of_two (k a b : string) : k ∈ [a; b] ↔ k = a ∨ k = b.
Proof. rewrite elem_of_cons, list_elem_of_singleton. done. Qed.

Lemma length_fields_batch i n l :
  length (fields_from (batch_attribute (number i)) n l) = 2 * length l.
Proof.
  revert n. induction l as [|nv l IH]; intros n; [done|].
  cbn [fields_from]. rewrite length_app, IH. cbn. lia.
Qed.

Lemma batch_attribute_NoDup i n l :
  NoDup (fields_from (batch_attribute (number i)) n l).*1.
Proof.
  apply NoDup_fields_from.
  - intros j x. rewrite batch_attribute_keys.
    apply NoDup_cons. split; [|apply NoDup_singleton].
    intros ?%list_elem_of_singleton. by apply (batchName_ne_batchValue i j i j).
  - intros j x j' x' k Hne. rewrite !batch_attribute_keys.
    intros [->| ->]%elem_of_two [E|E]%elem_of_two.
    + apply batchName_inj in E. lia.
    + by apply batchName_ne_batchValue in E.
    + symmetry in E. by apply batchName_ne_batchValue in E.
    + apply batchValue_inj in E. lia.
Qed.

Lemma batch_item_NoDup i it : NoDup (batch_item i it).*1.
Proof.
  unfold batch_item. rewrite fmap_cons. apply NoDup_cons. split; [|apply batch_attribute_NoDup].
  intros Hk. apply fields_from_keys in Hk as (j & x & _ & Hk).
  rewrite batch_attribute_keys in Hk. cbn [fst] in Hk.
  apply elem_of_two in Hk as [E|E].
  - symmetry in E. by apply batchName_ne_batchItemName in E.
  - symmetry in E. by apply batchValue_ne_batchItemName in E.
Qed.

Lemma batch_items_NoDup n wis : NoDup (fields_from batch_item n wis).*1.
Proof.
  apply NoDup_fields_from; [apply batch_item_NoDup|].
  intros i it i' it' k Hne Hk Hk'.
  apply batch_item_keys in Hk as [->|[j [->| ->]]];
    apply batch_item_keys in Hk' as [E|[j' [E|E]]].
  - by apply batchItemName_inj in E.
  - symmetry in E. by apply batchName_ne_batchItemName in E.
  - symmetry in E. by apply batchValue_ne_batchItemName in E.
  - by apply batchName_ne_batchItemName in E.
  - apply batchName_inj in E. lia.
  - by apply batchName_ne_batchValue in E.
  - by apply batchValue_ne_batchItemName in E.
  - symmetry in E. by apply batchName_ne_batchValue in E.
  - apply batchValue_inj in E. lia.
Qed.

Lemma batch_keys_prefixed n wis k :
  k ∈ (fields_from batch_item n wis).*1 → ∃ x, k = "Item." +:+ x.
Proof.
  intros Hk. apply fields_from_keys in Hk as (i & it & _ & Hk).
  apply batch_item_keys in Hk as [->|[j [->| ->]]]; by eexists.
Qed.

Lemma batch_all_NoDup (d : string) wis :
  NoDup ([("Action", "BatchPutAttributes"); ("DomainName", d)]
           ++ fields_from batch_item 0 wis).*1.
Proof.
  rewrite fmap_app. apply NoDup_app. split; [|split; [|apply batch_items_NoDup]].
  - by apply (bool_decide_unpack (NoDup _)).
  - intros k Hk Hk'. apply batch_keys_prefixed in Hk' as [x ->].
    assert (Strings.HasPrefix ("Item." +:+ x) "Item." = false) as Hpre.
    { apply (Forall_forall (fun k => Strings.HasPrefix k "Item." = false)
               ["Action"; "DomainName"]); [by repeat constructor|done]. }
    by eapply prefix_ne in Hpre.
Qed.

Lemma batch_all_fresh a t (d : string) wis k :
  k ∈ ([("Action", "BatchPutAttributes"); ("DomainName", d)]
         ++ fields_from batch_item 0 wis).*1 →
  seed a t !! k = None.
Proof.
  rewrite fmap_app. intros [Hk|Hk]%elem_of_app.
  - apply (Forall_forall (fun k => seed a t !! k = None) ["Action"; "DomainName"]);
      [by repeat constructor|done].
  - apply batch_keys_prefixed in Hk as [x ->].
    apply seed_lookup_prefixed. by repeat constructor.
Qed.

Lemma batch_fields_length n wis :
  length (fields_from batch_item n wis)
  = sum_list (map (fun it : string * list (string * string) => 1 + 2 * length it.2) wis).
Proof.
  revert n. induction wis as [|it wis IH]; intros n; [done|].
  cbn [fields_from map sum_list sum_list_with]. rewrite length_app, IH.
  unfold batch_item. cbn [length]. rewrite length_fields_batch. done.
Qed.

Lemma batch_parameters now domain items sdb :
  let params := p (BatchPutAttributes_p now domain items sdb) in
  params !! "Action" = Some ["BatchPutAttributes"]
  ∧ params !! "DomainName" = Some [domain]
  ∧ (∀ i, params !! batchItemName i = (fun it => [Item_Name it]) <$> items !! i)
  ∧ (∀ i j, params !! batchName i j
            = items !! i ≫= fun it => (fun a => [Name a]) <$> Item_Attributes it !! j)
  ∧ (∀ i j, params !! batchValue i j
            = items !! i ≫= fun it => (fun a => [Value a]) <$> Item_Attributes it !! j)
  ∧ size params
    = 7 + sum_list (map (fun it => 1 + 2 * length (Item_Attributes it)) items)
  ∧ map_Forall (fun _ vs => length vs = 1) params.
Proof.
  intros params.
  pose proof (call_p_fields now (CallBatchPutAttributes domain items) sdb) as Hp.
  apply (f_equal p) in Hp. rewrite p_AddAll_p, reset_p in Hp.
  cbn [call_p call_fields] in Hp. fold params in Hp.
  set (wis := map wire_item items) in *.
  set (sd := seed (accessKey sdb) (Time.Format now Time.dateFormat)) in *.
  assert (∀ k v, Strings.HasPrefix k "Item." = false →
            values_of k [("Action", "BatchPutAttributes"); ("DomainName", domain)] = [v] →
            sd !! k = None → params !! k = Some [v]) as Hfixed.
  { intros k v Hk Hv Hs. rewrite Hp, AddAll_lookup, values_of_app, Hv.
    rewrite (values_of_none k (fields_from _ _ _)).
    - unfold Url.get. by rewrite Hs.
    - apply Forall_forall. intros kv Hkv E.
      assert (k ∈ (fields_from batch_item 0 wis).*1) as Hin
        by (rewrite <- E; apply list_elem_of_fmap; by exists kv).
      apply batch_keys_prefixed in Hin as [x ->]. by apply (prefix_ne _ x) in Hk. }
  assert (∀ (k : string) (h : string * list (string * string) → list string) i0,
            (∀ i it, values_of k (batch_item i it) = if decide (i = i0) then h it else []) →
            (∃ x, k = "Item." +:+ x) →
            params !! k = match from_option h [] (wis !! i0) with
                          | [] => None
                          | vs => Some vs
                          end) as Hindexed.
  { intros k h i0 Hk [x ->]. rewrite Hp, AddAll_lookup, values_of_app.
    rewrite (values_of_none _ [_; _])
      by (repeat constructor; by apply not_eq_sym, prefix_ne).
    rewrite (values_of_fields_from_at _ _ i0 h) by done.
    rewrite decide_True by lia. rewrite Nat.sub_0_r. cbn [app].
    unfold Url.get, sd. rewrite seed_lookup_prefixed by (by repeat constructor).
    done. }
  split; [by apply Hfixed|]. split; [by apply Hfixed|].
  split; [|split; [|split; [|split]]].
  - intros i. rewrite (Hindexed _ (fun it => [it.1]) i);
      [|apply batch_item_batchItemName|by eexists].
    unfold wis. rewrite list_lookup_fmap. by destruct (items !! i).
  - intros i j.
    rewrite (Hindexed _ (fun it => from_option (fun nv => [nv.1]) [] (it.2 !! j)) i);
      [| |by eexists].
    + unfold wis. rewrite list_lookup_fmap. destruct (items !! i) as [it|]; [|done].
      cbn. rewrite list_lookup_fmap. by destruct (Item_Attributes it !! j).
    + intros i' it. apply (batch_item_indexed _ fst);
        [apply batch_attribute_batchName|apply batchName_ne_batchItemName].
  - intros i j.
    rewrite (Hindexed _ (fun it => from_option (fun nv => [nv.2]) [] (it.2 !! j)) i);
      [| |by eexists].
    + unfold wis. rewrite list_lookup_fmap. destruct (items !! i) as [it|]; [|done].
      cbn. rewrite list_lookup_fmap. by destruct (Item_Attributes it !! j).
    + intros i' it. apply (batch_item_indexed _ snd);
        [apply batch_attribute_batchValue|apply batchValue_ne_batchItemName].
  - rewrite Hp, size_AddAll by (apply batch_all_NoDup || apply batch_all_fresh).
    unfold sd. rewrite seed_size, length_app, batch_fields_length. cbn [length].
    unfold wis. rewrite map_map. cbn [wire_item snd].
    assert (map (fun x => 1 + 2 * length (map name_value (Item_Attributes x))) items
            = map (fun it => 1 + 2 * length (Item_Attributes it)) items) as ->.
    { apply map_ext. intros it. by rewrite length_map. }
    lia.
  - rewrite Hp. apply single_AddAll;
      [apply batch_all_NoDup|apply batch_all_fresh|apply seed_single].
Qed.

(** X11. In the parameters of batch-put-attributes the item with index [i]
    (from 0) has its name under [Item.<i+1>.ItemName] and its attribute with
    index [j] under [Item.<i+1>.Attribute.<j+1>.Name] and [...Value], each
    with exactly that one value; past the last item or the last attribute of
    an item there is no such parameter.  That makes 7 parameters plus one per
    item and two per attribute, each with a single value. *)
Theorem BatchPutAttributes_parameters now domain items sdb :
  let params := p (BatchPutAttributes_p now domain items sdb) in
  params !! "Action" = Some ["BatchPutAttributes"]
  ∧ params !! "DomainName" = Some [domain]
  ∧ (∀ i, params !! batchItemName i = (fun it => [Item_Name it]) <$> items !! i)
  ∧ (∀ i j, params !! batchName i j
            = items !! i ≫= fun it => (fun a => [Name a]) <$> Item_Attributes it !! j)
  ∧ (∀ i j, params !! batchValue i j
            = items !! i ≫= fun it => (fun a => [Value a]) <$> Item_Attributes it !! j)
  ∧ size params
    = 7 + sum_list (map (fun it => 1 + 2 * length (Item_Attributes it)) items)
  ∧ map_Forall (fun _ vs => length vs = 1) params.
Proof. apply batch_parameters. Qed.

End IndexedFields.

Example BatchPutAttributes_parameters_ex :
  let params := Sdb.p (Sdb.BatchPutAttributes_p Sample.now "d"
                         [Sample.item false; Sdb.mkItem "item2" []] Sample.client) in
  params !! "Item.1.Attribute.2.Value" = Some ["big"]
  ∧ params !! "Item.2.ItemName" = Some ["item2"]
  ∧ params !! "Item.2.Attribute.1.Name" = None
  ∧ size params = 13.
Proof. vm_compute. repeat split; reflexivity. Qed.

(** ** Order of the parameters *)

Section Order.

Import Sdb Wire Canon.

Lemma Add_comm k1 x1 k2 x2 (m : Url.Values) :
  k1 ≠ k2 → Url.Add k1 x1 (Url.Add k2 x2 m) = Url.Add k2 x2 (Url.Add k1 x1 m).
Proof.
  intros Hne. unfold Url.Add at 1 3.
  rewrite get_Add_ne by done. rewrite (get_Add_ne k2) by done.
  unfold Url.Add. by rewrite insert_insert_ne.
Qed.

Lemma AddAll_perm fs gs (m : Url.Values) :
  fs ≡ₚ gs → NoDup fs.*1 → AddAll fs m = AddAll gs m.
Proof.
  intros Hperm. revert m.
  induction Hperm as [|kv fs gs Hperm IH|kv1 kv2 fs|fs gs hs H1 IH1 H2 IH2]; intros m Hnd.
  - done.
  - unfold AddAll in *. cbn [foldl]. apply IH.
    rewrite fmap_cons in Hnd. by apply NoDup_cons in Hnd as [_ ?].
  - unfold AddAll. cbn [foldl]. f_equal.
    rewrite !fmap_cons in Hnd. apply NoDup_cons in Hnd as [Hin _].
    apply Add_comm. intros E. apply Hin. rewrite E. apply list_elem_of_here.
  - rewrite IH1 by done. apply IH2. by rewrite <- H1.
Qed.

(** X12. The order in which parameters with different keys are added has
    no effect: two sequences of [p.Add] calls that are permutations of each
    other, no key occurring twice, leave the same parameters, and so the same
    string to sign, signature and body.  Values added under one key keep
    their order, so there the order does count. *)
Theorem Add_order_irrelevant fs gs sdb :
  fs ≡ₚ gs → NoDup fs.*1 →
  p_AddAll fs sdb = p_AddAll gs sdb
  ∧ signRequest (p_AddAll fs sdb) = signRequest (p_AddAll gs sdb)
  ∧ ∀ k x y, x ≠ y →
      p (p_Add k y (p_Add k x sdb)) ≠ p (p_Add k x (p_Add k y sdb)).
Proof.
  intros Hperm Hnd.
  assert (p_AddAll fs sdb = p_AddAll gs sdb) as E.
  { assert (∀ l s, p_AddAll l s = set_p (AddAll l (p s)) s) as H.
    { induction l as [|kv l IH]; intros s; [by destruct s|].
      unfold p_AddAll, AddAll in *. cbn [foldl]. by rewrite IH. }
    by rewrite !H, (AddAll_perm fs gs). }
  split; [done|]. split; [by rewrite E|].
  intros k x y Hxy H. cbn in H.
  apply (f_equal (fun m : Url.Values => m !! k)) in H.
  unfold Url.Add in H. rewrite !lookup_insert_eq in H.
  unfold Url.get in H. rewrite !lookup_insert_eq in H. cbn in H.
  injection H as H. rewrite <- !app_assoc in H. apply app_inv_head in H.
  cbn in H. injection H as H _. by apply Hxy.
Qed.

End Order.

Lemma Add_order_irrelevant_witness :
  Wire.p_AddAll [("DomainName", "d"); ("Action", "CreateDomain")]
    (Sdb.resetParameters Sample.now Sample.client)
  = Sdb.CreateDomain_p Sample.now "d" Sample.client.
Proof.
  refine (proj1 (Add_order_irrelevant
            [("DomainName", "d"); ("Action", "CreateDomain")]
            [("Action", "CreateDomain"); ("DomainName", "d")]
            (Sdb.resetParameters Sample.now Sample.client) _ _)).
  - apply perm_swap.
  - by apply (bool_decide_unpack (NoDup _)).
Defined.

(** ** The form of a signature *)

Section SignatureForm.

Import Sdb Service Base64.

Lemma base64_byte_encodeStd n : base64_byte (encodeStd n) = true.
Proof.
  destruct (decide (n < 64)%N) as [Hn|Hn].
  - by apply (below_forall 64 (fun n => base64_byte (encodeStd n))).
  - unfold encodeStd.
    replace (n <? 26)%N with false by (symmetry; apply N.ltb_ge; lia).
    replace (n <? 52)%N with false by (symmetry; apply N.ltb_ge; lia).
    replace (n <? 62)%N with false by (symmetry; apply N.ltb_ge; lia).
    replace (n =? 62)%N with false by (symmetry; apply N.eqb_neq; lia).
    done.
Qed.

Lemma EncodeToString_form_aux n l :
  length l ≤ n →
  String.length (EncodeToString l) = 4 * ((length l + 2) / 3)
  ∧ all_bytes base64_byte (EncodeToString l) = true.
Proof.
  revert l. induction n as [|n IH]; intros l Hn.
  { destruct l; [done|cbn in Hn; lia]. }
  destruct l as [|a [|b [|c r]]]; cbn [EncodeToString String.length all_bytes];
    rewrite ?base64_byte_encodeStd; try done.
  destruct (IH r ltac:(cbn in Hn; lia)) as [Hlen Hall].
  rewrite Hlen, Hall. split; [|done].
  cbn [length]. replace (S (S (S (length r))) + 2) with (length r + 2 + 1 * 3) by lia.
  rewrite Nat.div_add by done. lia.
Qed.

(** X13. A signature is 44 characters of the base64 alphabet (letters,
    digits, [+], [/], [=]), whatever the key and the string signed. *)
Theorem sign_form sdb s :
  String.length (sign sdb s) = 44 ∧ all_bytes base64_byte (sign sdb s) = true.
Proof.
  unfold sign.
  destruct (EncodeToString_form_aux _ _ (Nat.le_refl (length
              (Hmac.sum (bytes_of (secretKey sdb)) (bytes_of s))))) as [Hlen Hall].
  split; [|done]. rewrite Hlen, Hmac_sum_length. done.
Qed.

End SignatureForm.

(** ** The first revision *)

Section FirstRevision.

Import Sdb.

Lemma later_range {A} (body1 : nat → A → Rev1.SimpleDB → Rev1.SimpleDB)
    (body2 : nat → A → SimpleDB → SimpleDB) i l s :
  (∀ j a s, Rev1.later (body1 j a s) = body2 j a (Rev1.later s)) →
  Rev1.later (range body1 i l s) = range body2 i l (Rev1.later s).
Proof.
  intros Hbody. revert i s. induction l as [|a l IH]; intros i s; [done|].
  cbn [range]. by rewrite IH, Hbody.
Qed.

(** Up to the field [Error], an action of the first revision sets the
    parameters the later revision sets. *)
Lemma later_call_p now c s :
  Rev1.later (Rev1.call_p now c s) = call_p now c (Rev1.later s).
Proof.
  destruct c as [| | | |domain i|domain items| | |]; try done.
  - unfold Rev1.call_p, call_p, PutAttributes_p. by apply later_range.
  - unfold Rev1.call_p, call_p, BatchPutAttributes_p.
    apply later_range. intros j it s'. by apply later_range.
Qed.

Lemma later_signRequest s : Rev1.later (Rev1.signRequest s) = signRequest (Rev1.later s).
Proof. done. Qed.

Lemma call_p_keys now c s s' :
  accessKey s = accessKey s' → secretKey s = secretKey s' → region s = region s' →
  call_p now c s = call_p now c s'.
Proof.
  intros Ha Hs Hr. rewrite !call_p_fields. f_equal.
  rewrite (reset_forgets now s), (reset_forgets now s'). by rewrite Ha, Hs, Hr.
Qed.

(** X15. For the same call, clock reading, keys and region the two
    revisions of the client send the same request: the same parameters, the
    same signature and the same body to the same address, whatever either
    client held before. *)
Theorem revisions_send_the_same now c (s1 : Rev1.SimpleDB) (s2 : SimpleDB) :
  Rev1.accessKey s1 = accessKey s2 →
  Rev1.secretKey s1 = secretKey s2 →
  Rev1.region s1 = region s2 →
  let sent1 := Rev1.signRequest (Rev1.call_p now c s1) in
  let sent2 := signRequest (call_p now c s2) in
  Rev1.p sent1 = p sent2
  ∧ Rev1.RawRequest sent1 = RawRequest sent2
  ∧ Rev1.region sent1 = region sent2.
Proof.
  intros Ha Hs Hr sent1 sent2.
  assert (Rev1.later sent1 = sent2) as <-.
  { unfold sent1, sent2. rewrite later_signRequest, later_call_p.
    f_equal. by apply call_p_keys. }
  done.
Qed.

Lemma range_Error {A} (body : nat → A → Rev1.SimpleDB → Rev1.SimpleDB) i l s :
  (∀ j a s, Rev1.Error_ (body j a s) = Rev1.Error_ s) →
  Rev1.Error_ (range body i l s) = Rev1.Error_ s.
Proof.
  intros Hbody. revert i s. induction l as [|a l IH]; intros i s; [done|].
  cbn [range]. by rewrite IH, Hbody.
Qed.

(** Every action starts by clearing [Error]. *)
Lemma call_p_Error now c s :
  Rev1.Error_ (Rev1.signRequest (Rev1.call_p now c s)) = Rev1.zeroResponse.
Proof.
  change (Rev1.Error_ (Rev1.call_p now c s) = Rev1.zeroResponse).
  destruct c as [| | | |domain i|domain items| | |]; try done.
  - unfold Rev1.call_p. by rewrite range_Error.
  - unfold Rev1.call_p. rewrite range_Error; [done|].
    intros j it s'. by rewrite range_Error.
Qed.

Variable env : Rev1.Env.

(** X14. In the first revision a response with a status other than 200
    whose body decodes as an error envelope makes every call return the same
    fixed error text, whatever the envelope holds, even no entry at all; the
    whole envelope is kept in the field [Error] of the client.  In every
    other case [Error] is the zero [Response] after the call: an envelope
    of an earlier call never stays. *)
Theorem first_revision_errors now c s :
  let sent := Rev1.signRequest (Rev1.call_p now c s) in
  let response := Rev1.http_Post env ("https://" +:+ Rev1.region sent) contentType
                    (Rev1.RawRequest sent) in
  let envelope :=
    match response with
    | inl r =>
        if decide (StatusCode r ≠ 200%Z) then
          match Body r with
          | inl b =>
              match Rev1.xml_Unmarshal_Response env b Rev1.zeroResponse with
              | (v, None) => Some (b, v)
              | _ => None
              end
          | inr _ => None
          end
        else None
    | inr _ => None
    end in
  match envelope with
  | Some (b, v) =>
      Rev1.outcome env now c s
      = (Rev1.set_Error v (Rev1.set_RawResponse b sent), zero _,
         Some (errorString "Error occured, see SimpleDB.Error for details"))
  | None => Rev1.Error_ (Rev1.outcome env now c s).1.1 = Rev1.zeroResponse
  end.
Proof.
  intros sent response envelope. unfold envelope, Rev1.outcome, Rev1.post.
  fold sent. fold response.
  assert (Rev1.Error_ sent = Rev1.zeroResponse) as Hz by apply call_p_Error.
  destruct response as [r|err]; [|done].
  destruct (decide (StatusCode r ≠ 200%Z)).
  - unfold Rev1.unmarshal_Response. destruct (Body r) as [b|err]; [|done].
    by destruct (Rev1.xml_Unmarshal_Response env b Rev1.zeroResponse) as [v [e|]].
  - unfold Rev1.unmarshal. destruct (Body r) as [b|err]; [|done].
    by destruct (Rev1.xml_Unmarshal env _ b _).
Qed.

End FirstRevision.

Lemma revisions_send_the_same_witness :
  Rev1.RawRequest
    (Rev1.signRequest
       (Rev1.call_p Sample.now (Sdb.CallSelect "select * from logs")
          (Rev1.NewSimpleDB Sample.now "AKIDEXAMPLE" "secret" "sdb.eu-west-1.amazonaws.com")))
  = Sdb.RawRequest
      (Sdb.signRequest
         (Sdb.call_p Sample.now (Sdb.CallSelect "select * from logs") Sample.client)).
Proof.
  refine (proj1 (proj2 (revisions_send_the_same Sample.now
                          (Sdb.CallSelect "select * from logs")
                          (Rev1.NewSimpleDB Sample.now "AKIDEXAMPLE" "secret"
                             "sdb.eu-west-1.amazonaws.com")
                          Sample.client _ _ _))); reflexivity.
Defined.

(** ** What a flush of the log writer sends *)

Section Flush.

Import Sdb Writer Keys.

Variable TrimSpace : string → string.

(** X16. The request of a flush of the log writer carries, for the write
    with index [k] (from 0), the item name made from the clock reading under
    [Item.<k+1>.ItemName], the name [msg] under [Item.<k+1>.Attribute.1.Name]
    and the trimmed text under [Item.<k+1>.Attribute.1.Value]; no item has a
    second attribute, and with the seven fixed parameters that makes 7 plus 3
    per write. *)
Theorem flush_parameters now domain calls (s : Rev1.SimpleDB) :
  let items := map (logItem TrimSpace) calls in
  let params := Rev1.p (Rev1.call_p now (CallBatchPutAttributes domain items) s) in
  params !! "Action" = Some ["BatchPutAttributes"]
  ∧ params !! "DomainName" = Some [domain]
  ∧ (∀ k, params !! batchItemName k = (fun c => [itemName c.1]) <$> calls !! k)
  ∧ (∀ k, params !! batchName k 0 = (fun _ => ["msg"]) <$> calls !! k)
  ∧ (∀ k, params !! batchValue k 0 = (fun c => [TrimSpace c.2]) <$> calls !! k)
  ∧ (∀ k j, params !! batchName k (S j) = None ∧ params !! batchValue k (S j) = None)
  ∧ size params = 7 + 3 * length calls.
Proof.
  intros items params.
  assert (params = p (BatchPutAttributes_p now domain items (Rev1.later s))) as ->.
  { unfold params.
    change (Rev1.p (Rev1.call_p now (CallBatchPutAttributes domain items) s))
      with (p (Rev1.later (Rev1.call_p now (CallBatchPutAttributes domain items) s))).
    by rewrite later_call_p. }
  destruct (batch_parameters now domain items (Rev1.later s))
    as (Ha & Hd & Hi & Hn & Hv & Hsize & _).
  split; [done|]. split; [done|].
  split; [|split; [|split; [|split]]].
  - intros k. rewrite Hi. unfold items. rewrite list_lookup_fmap.
    by destruct (calls !! k).
  - intros k. rewrite Hn. unfold items. rewrite list_lookup_fmap.
    by destruct (calls !! k).
  - intros k. rewrite Hv. unfold items. rewrite list_lookup_fmap.
    by destruct (calls !! k).
  - intros k j. rewrite Hn, Hv. unfold items. rewrite list_lookup_fmap.
    by destruct (calls !! k).
  - rewrite Hsize. f_equal. unfold items. rewrite map_map. cbn.
    clear. induction calls as [|c l IH]; [done|]. cbn. rewrite IH. lia.
Qed.

End Flush.

(** ** Error envelopes under the struct tags *)

Section EnvelopeFacts.

Import Sdb Xml Envelope.

Lemma get_set_eq k v fs : get k (set k v fs) = Some v.
Proof.
  induction fs as [|[k' w] fs IH]; cbn.
  - by rewrite decide_True.
  - destruct (decide (k' = k)) as [->|Hne]; cbn.
    + by rewrite decide_True.
    + by rewrite decide_False.
Qed.

Lemma get_set_ne k k' v fs : k ≠ k' → get k' (set k v fs) = get k' fs.
Proof.
  intros Hne. induction fs as [|[k0 w] fs IH]; cbn.
  - by rewrite decide_False.
  - destruct (decide (k0 = k)) as [->|Hne0]; cbn.
    + by rewrite !decide_False.
    + destruct (decide (k0 = k')); [done|]. exact IH.
Qed.

(** The loop over the children inside [unmarshalPath] is
    [unmarshalChildren]. *)
Lemma unmarshalPath_Element struct_name sv path local children :
  unmarshalPath struct_name sv path (Element local children)
  = match findField (getTypeInfo struct_name) path local with
    | Perfect f =>
        match typ f with
        | Tstring => Some (set (goname f) (Vstring (chardata children)) sv)
        | Tslice Tstring =>
            Some (set (goname f)
                    (Vslice (elems_of (get (goname f) sv) ++ [Vstring (chardata children)]))
                    sv)
        | Tslice (Tstruct s) =>
            match unmarshalChildren s [] [] children with
            | Some ev =>
                Some (set (goname f)
                        (Vslice (elems_of (get (goname f) sv) ++ [Vstruct ev])) sv)
            | None => None
            end
        | Tstruct s =>
            match unmarshalChildren s (fields_of (get (goname f) sv)) [] children with
            | Some ev => Some (set (goname f) (Vstruct ev) sv)
            | None => None
            end
        | _ => None
        end
    | Prefix path' => unmarshalChildren struct_name sv path' children
    | NoBusiness => Some sv
    end.
Proof. reflexivity. Qed.

(** One [<Error>] of the service, met while a [SimpleDBError] is filled:
    its code and its message overwrite what the entry held. *)
Lemma unmarshalPath_error_node sv e :
  unmarshalPath "SimpleDBError" sv [] (error_node e)
  = Some (set "Message" (Vstring e.1.2) (set "Code" (Vstring e.1.1) sv)).
Proof.
  unfold error_node. rewrite unmarshalPath_Element.
  change (findField (getTypeInfo "SimpleDBError") [] "Error") with (Prefix ["Error"]).
  cbn [unmarshalChildren]. rewrite unmarshalPath_Element.
  change (findField (getTypeInfo "SimpleDBError") ["Error"] "Code")
    with (Perfect (mkFieldInfo ["Error"] "Code" "Code" Tstring)).
  cbn [typ goname chardata foldr]. rewrite unmarshalPath_Element.
  change (findField (getTypeInfo "SimpleDBError") ["Error"] "Message")
    with (Perfect (mkFieldInfo ["Error"] "Message" "Message" Tstring)).
  cbn [typ goname chardata foldr]. rewrite unmarshalPath_Element.
  change (findField (getTypeInfo "SimpleDBError") ["Error"] "BoxUsage") with NoBusiness.
  by rewrite !app_nil_r_s.
Qed.

Lemma unmarshalChildren_errors errs sv :
  unmarshalChildren "SimpleDBError" sv [] (map error_node errs)
  = Some (foldl (fun sv e => set "Message" (Vstring e.1.2) (set "Code" (Vstring e.1.1) sv))
            sv errs).
Proof.
  revert sv. induction errs as [|e errs IH]; intros sv; [done|].
  cbn [map unmarshalChildren foldl]. rewrite unmarshalPath_error_node. apply IH.
Qed.

(** All the errors of an envelope end in one entry: it has the code and
    the message of the last and no request id. *)
Lemma fill_keeps_RequestId (errs : list (string * string * string)) sv :
  get "RequestId"
    (foldl (fun sv e => set "Message" (Vstring e.1.2) (set "Code" (Vstring e.1.1) sv))
       sv errs)
  = get "RequestId" sv.
Proof.
  revert sv. induction errs as [|e errs IH]; intros sv; [done|].
  cbn [foldl]. rewrite IH. by rewrite !(get_set_ne _ "RequestId").
Qed.

Lemma to_SimpleDBError_errors errs :
  to_SimpleDBError
    (Vstruct (foldl (fun sv e => set "Message" (Vstring e.1.2) (set "Code" (Vstring e.1.1) sv))
                [] errs))
  = mkSimpleDBError (last_code errs) (last_message errs) "".
Proof.
  unfold to_SimpleDBError, last_code, last_message. cbn [fields_of].
  rewrite fill_keeps_RequestId.
  destruct errs as [|e0 errs] using rev_ind; [done|].
  rewrite foldl_app, last_snoc. cbn [foldl from_option].
  rewrite (get_set_ne "Message" "Code"), get_set_eq by done.
  by rewrite get_set_eq.
Qed.

(** What the decoder makes of the envelope of the service, from the zero
    [Response]. *)
Lemma Unmarshal_Response_document b errs rid :
  parse b = Some (document errs rid) →
  Unmarshal_Response b (zero TResponse)
  = Some (mkResponse [mkSimpleDBError (last_code errs) (last_message errs) ""] "", None).
Proof.
  intros Hb. unfold Unmarshal_Response, Unmarshal. rewrite Hb. unfold document.
  cbn [unmarshalChildren]. rewrite unmarshalPath_Element.
  change (findField (getTypeInfo "Response") [] "Errors")
    with (Perfect (mkFieldInfo [] "Errors" "Errors" (Tslice (Tstruct "SimpleDBError")))).
  cbn [typ goname]. rewrite unmarshalChildren_errors, unmarshalPath_Element.
  change (findField (getTypeInfo "Response") [] "RequestID") with NoBusiness.
  unfold to_Response. rewrite get_set_eq, (get_set_ne "Errors" "RequestId") by done.
  change (get "Errors" (of_Response (zero TResponse))) with (Some (Vslice [])).
  change (get "RequestId" (of_Response (zero TResponse))) with (Some (Vstring "")).
  cbn [elems_of app map string_of]. by rewrite to_SimpleDBError_errors.
Qed.

(** C2. A response with a status other than 200 whose body is an error
    envelope of the service, with its errors inside one [Errors] element,
    makes the call fail with a structured error that has the code and the
    message of the last error, not of the first, and an empty request id. *)
Theorem post_surfaces_last_error env now c sdb r b errs rid :
  let sent := signRequest (call_p now c sdb) in
  decodes_by_tags env →
  http_Post env ("https://" +:+ region sent) contentType (RawRequest sent) = inl r →
  StatusCode r ≠ 200%Z →
  Body r = inl b →
  parse b = Some (document errs rid) →
  (run env now c sdb).2
  = Some (SimpleDBError_error
            (mkSimpleDBError (last_code errs) (last_message errs) "")).
Proof.
  intros sent Henv Hpost Hne Hb Hdoc.
  apply Unmarshal_Response_document, Henv in Hdoc.
  rewrite run_post, (post_not_200 env _ _ _ r Hpost Hne), Hb, Hdoc. done.
Qed.

End EnvelopeFacts.

Lemma post_surfaces_last_error_witness :
  (Sdb.run (Envelope.service 400 "400 Bad Request" Envelope.two_errors)
     Sample.now (Sdb.CallCreateDomain "") Sample.client).2
  = Some (Sdb.SimpleDBError_error
            (Sdb.mkSimpleDBError "MissingParameter"
               "The request must contain the parameter ItemName" "")).
Proof.
  refine (post_surfaces_last_error
            (Envelope.service 400 "400 Bad Request" Envelope.two_errors)
            Sample.now (Sdb.CallCreateDomain "") Sample.client
            (Sdb.mkHttpResponse 400 "400 Bad Request" (inl Envelope.two_errors))
            Envelope.two_errors
            [("InvalidParameterValue", "Value () for parameter DomainName is invalid. ",
              "0.0055590278");
             ("MissingParameter", "The request must contain the parameter ItemName",
              "0.0000219907")]
            "b1e8f1f7" _ _ _ _ _).
  - intros b v r H. cbn. by rewrite H.
  - reflexivity.
  - simpl. lia.
  - reflexivity.
  - vm_compute. reflexivity.
Defined.

Example Unmarshal_Response_ex :
  Xml.Unmarshal_Response Envelope.one_error (Sdb.zero Sdb.TResponse)
  = Some (Sdb.mkResponse
            [Sdb.mkSimpleDBError "InvalidParameterValue"
               "Value () for parameter DomainName is invalid. " ""] "", None)
  ∧ Xml.Unmarshal_Response "<Response/>" (Sdb.zero Sdb.TResponse)
    = Some (Sdb.mkResponse [] "", None)
  ∧ Xml.Unmarshal_Response "<Response><Errors/><RequestId>r</RequestId></Response>"
      (Sdb.zero Sdb.TResponse)
    = Some (Sdb.mkResponse [Sdb.mkSimpleDBError "" "" ""] "r", None)
  ∧ Xml.Unmarshal_Response "<Response><Errors><Error>" (Sdb.zero Sdb.TResponse) = None.
Proof. vm_compute. done. Qed.

(** ** The tests *)

Section TestFacts.

Import Sdb Tests Xml Envelope.

Lemma expectInvalidParameter_zero err :
  expectInvalidParameter err = 0
  ↔ ∃ v, err = Some (SimpleDBError_error v) ∧ Code v = "InvalidParameterValue".
Proof.
  unfold expectInvalidParameter. split.
  - destruct err as [[v| |]|]; cbn; try lia.
    destruct (decide (Code v ≠ "InvalidParameterValue")) as [|Heq]; [lia|].
    intros _. exists v. split; [done|]. by destruct (decide (Code v = "InvalidParameterValue")).
  - intros (v & -> & Hv). cbn. by rewrite decide_False by (by intros ?).
Qed.

(** X17. When the service answers every request with a status other than
    200 and an error envelope, each of the two tests with an empty domain
    name passes, that is calls [t.Error] not once, exactly when the last
    error of the envelope has the code [InvalidParameterValue]; the errors
    before it do not count. *)
Theorem missing_name_tests env now db r b errs rid :
  decodes_by_tags env →
  (∀ url ct body, http_Post env url ct body = inl r) →
  StatusCode r ≠ 200%Z →
  Body r = inl b →
  parse b = Some (document errs rid) →
  ((TestCreateDomainMissingDomainName env now db).2 = 0
   ↔ last_code errs = "InvalidParameterValue")
  ∧ ((TestDeleteDomainMissingDomainName env now db).2 = 0
     ↔ last_code errs = "InvalidParameterValue").
Proof.
  intros Henv Hpost Hne Hb Hdoc.
  apply Unmarshal_Response_document, Henv in Hdoc.
  assert (∀ T sdb,
            (post env T (zero T) sdb).2
            = Some (SimpleDBError_error
                      (mkSimpleDBError (last_code errs) (last_message errs) ""))) as H.
  { intros T sdb. by rewrite (post_not_200 env _ _ _ r (Hpost _ _ _) Hne), Hb, Hdoc. }
  assert (∀ w, expectInvalidParameter (Some (SimpleDBError_error w)) = 0
               ↔ Code w = "InvalidParameterValue") as Hw.
  { intros w. rewrite expectInvalidParameter_zero. split.
    - by intros (? & [= <-] & ?).
    - intros ?. by exists w. }
  split.
  - rewrite <- (Hw (mkSimpleDBError (last_code errs) (last_message errs) "")).
    rewrite <- (H TCreateDomainResponse (CreateDomain_p now "" db)).
    unfold TestCreateDomainMissingDomainName, CreateDomain.
    by destruct (post env _ _ _) as [[? ?] ?].
  - rewrite <- (Hw (mkSimpleDBError (last_code errs) (last_message errs) "")).
    rewrite <- (H TDeleteDomainResponse (DeleteDomain_p now "" db)).
    unfold TestDeleteDomainMissingDomainName, DeleteDomain.
    by destruct (post env _ _ _) as [[? ?] ?].
Qed.

End TestFacts.

Lemma missing_name_tests_witness :
  (Tests.TestCreateDomainMissingDomainName
     (Envelope.service 400 "400 Bad Request" Envelope.one_error)
     Sample.now Sample.client).2 = 0.
Proof.
  refine (proj2 (proj1 (missing_name_tests
                          (Envelope.service 400 "400 Bad Request" Envelope.one_error)
                          Sample.now Sample.client
                          (Sdb.mkHttpResponse 400 "400 Bad Request" (inl Envelope.one_error))
                          Envelope.one_error
                          [("InvalidParameterValue",
                            "Value () for parameter DomainName is invalid. ",
                            "0.0055590278")]
                          "b1e8f1f7" _ _ _ _ _)) _).
  - intros b v r H. cbn. by rewrite H.
  - reflexivity.
  - simpl. lia.
  - reflexivity.
  - vm_compute. reflexivity.
  - reflexivity.
Defined.

(** An envelope that names the invalid parameter first and another error
    after it fails both tests. *)
Example missing_name_tests_ex :
  (Tests.TestCreateDomainMissingDomainName
     (Envelope.service 400 "400 Bad Request" Envelope.two_errors)
     Sample.now Sample.client).2 = 1
  ∧ (Tests.TestDeleteDomainMissingDomainName
       (Envelope.service 400 "400 Bad Request" Envelope.two_errors)
       Sample.now Sample.client).2 = 1.
Proof. vm_compute. done. Qed.

(** ** Making a log writer *)

Section MakeWriter.

Import Sdb.

Variable env : Rev1.Env.

(** X18. [NewSDBWriter] sends the signed create-domain request for the
    domain and gives a writer only together with no error, and only when the
    answer had status 200, its body could be read and it decoded; the writer
    then has that domain and an empty buffer.  In every other case it gives
    no writer and an error. *)
Theorem NewSDBWriter_cases now sdb domain :
  let sent := Rev1.signRequest (Rev1.call_p now (CallCreateDomain domain) sdb) in
  match Rev1.NewSDBWriter env now sdb domain with
  | (_, Some w, err) =>
      err = None
      ∧ w = Writer.NewSDBWriter domain
      ∧ ∃ r b,
          Rev1.http_Post env ("https://" +:+ Rev1.region sent) contentType
            (Rev1.RawRequest sent) = inl r
          ∧ StatusCode r = 200%Z
          ∧ Body r = inl b
          ∧ (Rev1.xml_Unmarshal env TCreateDomainResponse b (zero _)).2 = None
  | (_, None, err) => err ≠ None
  end.
Proof.
  intros sent. unfold Rev1.NewSDBWriter, Rev1.outcome, Rev1.post. fold sent.
  generalize sent. clear sent. intros sent.
  destruct (Rev1.http_Post env _ _ _) as [r|e] eqn:Hr; [|done].
  destruct (decide (StatusCode r ≠ 200%Z)) as [Hs|Hs].
  - unfold Rev1.unmarshal_Response. destruct (Body r) as [b|e]; [|done].
    by destruct (Rev1.xml_Unmarshal_Response env b _) as [v [e|]].
  - unfold Rev1.unmarshal. destruct (Body r) as [b|e] eqn:Hb; [|done].
    cbn [call_action result_shape].
    destruct (Rev1.xml_Unmarshal env TCreateDomainResponse b _) as [v [e|]] eqn:Hx; [done|].
    split; [done|]. split; [done|]. exists r, b.
    split; [done|]. split; [by apply dec_stable|]. split; [done|]. by rewrite Hx.
Qed.

End MakeWriter.
